(** * launchpad_jtag_finder: a shallow embedding of the JTAG / SWD pin finder

    The sketch [launchpad_jtag_finder.ino] turns an MSP430G2553 LaunchPad into
    a brute-force finder of the JTAG (tck, tms, tdo, tdi) and SWD (swclk,
    swdio) pins of an unknown target.  This file embeds its pin layer, its
    bit-banging helpers and its three finders as state-passing functions over
    a [machine], and proves properties of them.

    Conventions of the embedding.
    - A C integer is a [Z]; the wrap-around of the C type is written out at
      every store ([u8] for [unsigned char], [u16] for [unsigned int], which
      is 16 bits wide on the MSP430, [u32] for [unsigned long]).
    - The port registers are the fields of [ports].  The target wired to the
      pins is a parameter of the development: a state [W] that reacts to
      every register write and supplies the input registers P1IN and P2IN.
    - The loop counters and role variables ([j], [tck], [tms], [tdo], [tdi],
      [swclk], [swdio]), globals of the sketch that are only written by the
      [for] headers, are passed as arguments.  [retval], a local of each
      finder, is threaded next to the machine.
    - [log] is the history of calls that cross the pin and console
      boundaries, newest first; [history] gives it in chronological order. *)

From Stdlib Require Import ZArith List String Bool Lia.
Import ListNotations.
Open Scope string_scope.
Open Scope list_scope.
Open Scope Z_scope.

(** ** Integer types of the target compiler *)

Definition u8 (v : Z) : Z := Z.land v 0xFF.
Definition u16 (v : Z) : Z := Z.land v 0xFFFF.
Definition u32 (v : Z) : Z := Z.land v 0xFFFFFFFF.

(** [#define PINS 16] *)
Definition PINS : Z := 16.

(** Modelled from the spec: the masks BIT0 .. BIT7 are declared by the MSP430
    device header, which is not part of the repository.  BITn is the mask of
    bit n of a port; ordinals 0..7 are P1.0..P1.7 and 8..15 are P2.0..P2.7,
    as the pin table printed by [setup] says. *)
Definition BIT0 : Z := 0x01.
Definition BIT1 : Z := 0x02.
Definition BIT2 : Z := 0x04.
Definition BIT3 : Z := 0x08.
Definition BIT4 : Z := 0x10.
Definition BIT5 : Z := 0x20.
Definition BIT6 : Z := 0x40.
Definition BIT7 : Z := 0x80.

(** ** The machine *)

(** The six port registers the sketch writes. *)
Record ports : Type := mkPorts {
  P1DIR : Z; P1REN : Z; P1OUT : Z;
  P2DIR : Z; P2REN : Z; P2OUT : Z
}.

(** Calls across the pin boundary and the console boundary.  [Trial] is a
    marker without a counterpart in the sketch: it records the role assignment
    of a permutation at the point where its [continue] tests have been passed
    (the point where verbose mode prints the assignment). *)
Inductive event : Type :=
| CfgAllInputs
| CfgInput (pin : Z)
| CfgOutput (pin : Z)
| SetPin (pin : Z)
| ClrPin (pin : Z)
| ReadPin (pin : Z) (byte : Z)
| PrintStr (text : string)
| PrintDec (n : Z)
| PrintHex (n : Z)
| Trial (roles : list Z).

(** ** Loops *)

(** The values [j, j+1, ...] a counter takes in [n] rounds. *)
Fixpoint count_from (n : nat) (j : Z) : list Z :=
  match n with
  | O => []
  | S n' => j :: count_from n' (j + 1)
  end.

(** The values [0 .. n-1] a counter takes in [for(j=0;j<n;j++)]. *)
Definition upto (n : nat) : list Z := count_from n 0.

(** [for_each l body s]: the loop body run once per counter value, in order.
    A [continue] is a body that returns its state unchanged. *)
Definition for_each {S : Type} (l : list Z) (body : Z -> S -> S) (s : S) : S :=
  fold_left (fun acc j => body j acc) l s.

(** ** Pure helpers *)

(** [count_ones]: 32 rounds of testing the lsb and shifting right. *)
Definition count_ones (val : Z) : Z :=
  fst (for_each (upto 32)
         (fun _ (st : Z * Z) =>
            let (cnt, val) := st in
            ((if Z.land val 0x1 =? 0 then cnt else cnt + 1), Z.shiftr val 1))
         (0, u32 val)).

(** The Signal Sampler on its three variables (previous byte, toggle count,
    captured word), as the three finders inline it:
    [if(byte_val != byte_prev) toggle_count++; byte_prev = byte_val;
     idval = idval >> 1;
     if(byte_val == 0x00) idval &= ~0x80000000; else idval |= 0x80000000;] *)
Definition sampler : Type := (Z * Z * Z)%type.

Definition sampler_step (st : sampler) (byte : Z) : sampler :=
  let '(prev, count, acc) := st in
  let count := if byte =? prev then count else u8 (count + 1) in
  let prev := byte in
  let acc := Z.shiftr acc 1 in
  let acc := if byte =? 0x00 then Z.land acc (u32 (Z.lnot 0x80000000))
             else Z.lor acc 0x80000000 in
  (prev, count, acc).

Definition sampler_run (bytes : list Z) : sampler :=
  fold_left sampler_step bytes (0x00, 0x00, 0x00000000).

(** Number of changes between consecutive bytes of a sequence read after
    [prev], without any wrap-around. *)
Fixpoint toggles (prev : Z) (bytes : list Z) : Z :=
  match bytes with
  | [] => 0
  | b :: rest => (if b =? prev then 0 else 1) + toggles b rest
  end.

(** The world outside the microcontroller, as the sketch meets it: a state
    [W] that reacts to every store to a port register (it sees the new
    register file) and that supplies the two input registers. *)
Class Target (W : Type) : Type := {
  react : ports -> W -> W;
  P1IN : W -> Z;
  P2IN : W -> Z
}.

(** The registers, the global variables that carry data between statements,
    the world and the log. *)
Record machine (W : Type) : Type := mkMachine {
  io : ports;
  byte_val : Z;        (* unsigned char *)
  byte_prev : Z;       (* unsigned char *)
  toggle_count : Z;    (* unsigned char *)
  tc : Z;              (* unsigned char *)
  idval : Z;           (* unsigned long *)
  cnt1 : Z;            (* int *)
  vflag : Z;           (* unsigned char *)
  world : W;
  log : list event
}.

Arguments mkMachine {W}.
Arguments io {W}.
Arguments byte_val {W}.
Arguments byte_prev {W}.
Arguments toggle_count {W}.
Arguments tc {W}.
Arguments idval {W}.
Arguments cnt1 {W}.
Arguments vflag {W}.
Arguments world {W}.
Arguments log {W}.

Section Machine.

Context {W : Type} {target : Target W}.

Local Abbreviation machine := (machine W).

(** The log in chronological order. *)
Definition history (s : machine) : list event := rev_append (log s) [].

Definition set_byte_val (v : Z) (s : machine) : machine :=
  mkMachine (io s) v (byte_prev s) (toggle_count s) (tc s) (idval s) (cnt1 s)
            (vflag s) (world s) (log s).
Definition set_byte_prev (v : Z) (s : machine) : machine :=
  mkMachine (io s) (byte_val s) v (toggle_count s) (tc s) (idval s) (cnt1 s)
            (vflag s) (world s) (log s).
Definition set_toggle_count (v : Z) (s : machine) : machine :=
  mkMachine (io s) (byte_val s) (byte_prev s) v (tc s) (idval s) (cnt1 s)
            (vflag s) (world s) (log s).
Definition set_tc (v : Z) (s : machine) : machine :=
  mkMachine (io s) (byte_val s) (byte_prev s) (toggle_count s) v (idval s)
            (cnt1 s) (vflag s) (world s) (log s).
Definition set_idval (v : Z) (s : machine) : machine :=
  mkMachine (io s) (byte_val s) (byte_prev s) (toggle_count s) (tc s) v
            (cnt1 s) (vflag s) (world s) (log s).
Definition set_cnt1 (v : Z) (s : machine) : machine :=
  mkMachine (io s) (byte_val s) (byte_prev s) (toggle_count s) (tc s)
            (idval s) v (vflag s) (world s) (log s).
Definition set_vflag (v : Z) (s : machine) : machine :=
  mkMachine (io s) (byte_val s) (byte_prev s) (toggle_count s) (tc s)
            (idval s) (cnt1 s) v (world s) (log s).

(** One more entry in the log. *)
Definition emit (e : event) (s : machine) : machine :=
  mkMachine (io s) (byte_val s) (byte_prev s) (toggle_count s) (tc s)
            (idval s) (cnt1 s) (vflag s) (world s) (e :: log s).

(** A store to the register file: the world sees the new registers. *)
Definition store (p : ports) (s : machine) : machine :=
  mkMachine p (byte_val s) (byte_prev s) (toggle_count s) (tc s) (idval s)
            (cnt1 s) (vflag s) (react p (world s)) (log s).

Definition wr_P1DIR (v : Z) (s : machine) : machine :=
  let p := io s in
  store (mkPorts (u8 v) (P1REN p) (P1OUT p) (P2DIR p) (P2REN p) (P2OUT p)) s.
Definition wr_P1REN (v : Z) (s : machine) : machine :=
  let p := io s in
  store (mkPorts (P1DIR p) (u8 v) (P1OUT p) (P2DIR p) (P2REN p) (P2OUT p)) s.
Definition wr_P1OUT (v : Z) (s : machine) : machine :=
  let p := io s in
  store (mkPorts (P1DIR p) (P1REN p) (u8 v) (P2DIR p) (P2REN p) (P2OUT p)) s.
Definition wr_P2DIR (v : Z) (s : machine) : machine :=
  let p := io s in
  store (mkPorts (P1DIR p) (P1REN p) (P1OUT p) (u8 v) (P2REN p) (P2OUT p)) s.
Definition wr_P2REN (v : Z) (s : machine) : machine :=
  let p := io s in
  store (mkPorts (P1DIR p) (P1REN p) (P1OUT p) (P2DIR p) (u8 v) (P2OUT p)) s.
Definition wr_P2OUT (v : Z) (s : machine) : machine :=
  let p := io s in
  store (mkPorts (P1DIR p) (P1REN p) (P1OUT p) (P2DIR p) (P2REN p) (u8 v)) s.

(** ** The pin layer *)

(** [set_all_pins_to_inputs]: the three P1 statements keep the two uart pins
    out; the third one is [P1OUT &= 0xF9]. *)
Definition set_all_pins_to_inputs (s : machine) : machine :=
  let s := emit CfgAllInputs s in
  let s := wr_P1DIR (Z.land (P1DIR (io s)) (Z.lnot 0xF9)) s in
  let s := wr_P1REN (Z.lor (P1REN (io s)) 0xF9) s in
  let s := wr_P1OUT (Z.land (P1OUT (io s)) 0xF9) s in
  let s := wr_P2DIR 0x00 s in
  let s := wr_P2REN 0xFF s in
  wr_P2OUT 0xFF s.

(** The three statements of one branch of [set_pin_to_input]:
    [PxDIR &= ~BITn; PxREN |= BITn; PxOUT &= ~BITn]. *)
Definition input_P1 (bit : Z) (s : machine) : machine :=
  let s := wr_P1DIR (Z.land (P1DIR (io s)) (Z.lnot bit)) s in
  let s := wr_P1REN (Z.lor (P1REN (io s)) bit) s in
  wr_P1OUT (Z.land (P1OUT (io s)) (Z.lnot bit)) s.
Definition input_P2 (bit : Z) (s : machine) : machine :=
  let s := wr_P2DIR (Z.land (P2DIR (io s)) (Z.lnot bit)) s in
  let s := wr_P2REN (Z.lor (P2REN (io s)) bit) s in
  wr_P2OUT (Z.land (P2OUT (io s)) (Z.lnot bit)) s.

(** [set_pin_to_input]: the branches for pins 1 and 2 are commented out. *)
Definition set_pin_to_input (pin : Z) (s : machine) : machine :=
  let s := emit (CfgInput pin) s in
  if pin =? 0 then input_P1 BIT0 s
  else if pin =? 3 then input_P1 BIT3 s
  else if pin =? 4 then input_P1 BIT4 s
  else if pin =? 5 then input_P1 BIT5 s
  else if pin =? 6 then input_P1 BIT6 s
  else if pin =? 7 then input_P1 BIT7 s
  else if pin =? 8 then input_P2 BIT0 s
  else if pin =? 9 then input_P2 BIT1 s
  else if pin =? 10 then input_P2 BIT2 s
  else if pin =? 11 then input_P2 BIT3 s
  else if pin =? 12 then input_P2 BIT4 s
  else if pin =? 13 then input_P2 BIT5 s
  else if pin =? 14 then input_P2 BIT6 s
  else if pin =? 15 then input_P2 BIT7 s
  else s.

(** The three statements of one branch of [set_pin_to_output]:
    [PxDIR |= BITn; PxREN &= ~BITn; PxOUT &= ~BITn]. *)
Definition output_P1 (bit : Z) (s : machine) : machine :=
  let s := wr_P1DIR (Z.lor (P1DIR (io s)) bit) s in
  let s := wr_P1REN (Z.land (P1REN (io s)) (Z.lnot bit)) s in
  wr_P1OUT (Z.land (P1OUT (io s)) (Z.lnot bit)) s.
Definition output_P2 (bit : Z) (s : machine) : machine :=
  let s := wr_P2DIR (Z.lor (P2DIR (io s)) bit) s in
  let s := wr_P2REN (Z.land (P2REN (io s)) (Z.lnot bit)) s in
  wr_P2OUT (Z.land (P2OUT (io s)) (Z.lnot bit)) s.

Definition set_pin_to_output (pin : Z) (s : machine) : machine :=
  let s := emit (CfgOutput pin) s in
  if pin =? 0 then output_P1 BIT0 s
  else if pin =? 3 then output_P1 BIT3 s
  else if pin =? 4 then output_P1 BIT4 s
  else if pin =? 5 then output_P1 BIT5 s
  else if pin =? 6 then output_P1 BIT6 s
  else if pin =? 7 then output_P1 BIT7 s
  else if pin =? 8 then output_P2 BIT0 s
  else if pin =? 9 then output_P2 BIT1 s
  else if pin =? 10 then output_P2 BIT2 s
  else if pin =? 11 then output_P2 BIT3 s
  else if pin =? 12 then output_P2 BIT4 s
  else if pin =? 13 then output_P2 BIT5 s
  else if pin =? 14 then output_P2 BIT6 s
  else if pin =? 15 then output_P2 BIT7 s
  else s.

Definition set_pin (pin : Z) (s : machine) : machine :=
  let s := emit (SetPin pin) s in
  if pin =? 0 then wr_P1OUT (Z.lor (P1OUT (io s)) BIT0) s
  else if pin =? 3 then wr_P1OUT (Z.lor (P1OUT (io s)) BIT3) s
  else if pin =? 4 then wr_P1OUT (Z.lor (P1OUT (io s)) BIT4) s
  else if pin =? 5 then wr_P1OUT (Z.lor (P1OUT (io s)) BIT5) s
  else if pin =? 6 then wr_P1OUT (Z.lor (P1OUT (io s)) BIT6) s
  else if pin =? 7 then wr_P1OUT (Z.lor (P1OUT (io s)) BIT7) s
  else if pin =? 8 then wr_P2OUT (Z.lor (P2OUT (io s)) BIT0) s
  else if pin =? 9 then wr_P2OUT (Z.lor (P2OUT (io s)) BIT1) s
  else if pin =? 10 then wr_P2OUT (Z.lor (P2OUT (io s)) BIT2) s
  else if pin =? 11 then wr_P2OUT (Z.lor (P2OUT (io s)) BIT3) s
  else if pin =? 12 then wr_P2OUT (Z.lor (P2OUT (io s)) BIT4) s
  else if pin =? 13 then wr_P2OUT (Z.lor (P2OUT (io s)) BIT5) s
  else if pin =? 14 then wr_P2OUT (Z.lor (P2OUT (io s)) BIT6) s
  else if pin =? 15 then wr_P2OUT (Z.lor (P2OUT (io s)) BIT7) s
  else s.

Definition clr_pin (pin : Z) (s : machine) : machine :=
  let s := emit (ClrPin pin) s in
  if pin =? 0 then wr_P1OUT (Z.land (P1OUT (io s)) (Z.lnot BIT0)) s
  else if pin =? 3 then wr_P1OUT (Z.land (P1OUT (io s)) (Z.lnot BIT3)) s
  else if pin =? 4 then wr_P1OUT (Z.land (P1OUT (io s)) (Z.lnot BIT4)) s
  else if pin =? 5 then wr_P1OUT (Z.land (P1OUT (io s)) (Z.lnot BIT5)) s
  else if pin =? 6 then wr_P1OUT (Z.land (P1OUT (io s)) (Z.lnot BIT6)) s
  else if pin =? 7 then wr_P1OUT (Z.land (P1OUT (io s)) (Z.lnot BIT7)) s
  else if pin =? 8 then wr_P2OUT (Z.land (P2OUT (io s)) (Z.lnot BIT0)) s
  else if pin =? 9 then wr_P2OUT (Z.land (P2OUT (io s)) (Z.lnot BIT1)) s
  else if pin =? 10 then wr_P2OUT (Z.land (P2OUT (io s)) (Z.lnot BIT2)) s
  else if pin =? 11 then wr_P2OUT (Z.land (P2OUT (io s)) (Z.lnot BIT3)) s
  else if pin =? 12 then wr_P2OUT (Z.land (P2OUT (io s)) (Z.lnot BIT4)) s
  else if pin =? 13 then wr_P2OUT (Z.land (P2OUT (io s)) (Z.lnot BIT5)) s
  else if pin =? 14 then wr_P2OUT (Z.land (P2OUT (io s)) (Z.lnot BIT6)) s
  else if pin =? 15 then wr_P2OUT (Z.land (P2OUT (io s)) (Z.lnot BIT7)) s
  else s.

(** The value [read_pin] returns: the masked input register, 0 for a pin
    without a branch. *)
Definition pin_byte (pin : Z) (w : W) : Z :=
  if pin =? 0 then Z.land (u8 (P1IN w)) BIT0
  else if pin =? 3 then Z.land (u8 (P1IN w)) BIT3
  else if pin =? 4 then Z.land (u8 (P1IN w)) BIT4
  else if pin =? 5 then Z.land (u8 (P1IN w)) BIT5
  else if pin =? 6 then Z.land (u8 (P1IN w)) BIT6
  else if pin =? 7 then Z.land (u8 (P1IN w)) BIT7
  else if pin =? 8 then Z.land (u8 (P2IN w)) BIT0
  else if pin =? 9 then Z.land (u8 (P2IN w)) BIT1
  else if pin =? 10 then Z.land (u8 (P2IN w)) BIT2
  else if pin =? 11 then Z.land (u8 (P2IN w)) BIT3
  else if pin =? 12 then Z.land (u8 (P2IN w)) BIT4
  else if pin =? 13 then Z.land (u8 (P2IN w)) BIT5
  else if pin =? 14 then Z.land (u8 (P2IN w)) BIT6
  else if pin =? 15 then Z.land (u8 (P2IN w)) BIT7
  else 0.

Definition read_pin (pin : Z) (s : machine) : Z * machine :=
  let byte := pin_byte pin (world s) in
  (byte, emit (ReadPin pin byte) s).

(** [byte_val = read_pin(pin)] followed by the Signal Sampler. *)
Definition observe (s : machine) : machine :=
  let '(prev, count, acc) :=
    sampler_step (byte_prev s, toggle_count s, idval s) (byte_val s) in
  set_idval acc (set_byte_prev prev (set_toggle_count count s)).

Definition sample (pin : Z) (s : machine) : machine :=
  let (byte, s) := read_pin pin s in
  observe (set_byte_val byte s).

(** ** SWD bit-banging helpers *)

(** [send_fixed_swd_pattern(val, num)]; [swclk] and [swdio] are the globals
    it reads. *)
Definition send_fixed_swd_pattern (swclk swdio : Z) (val num : Z)
    (s : machine) : machine :=
  let s := if u8 val =? 1 then set_pin swdio s else clr_pin swdio s in
  let s := for_each (upto (Z.to_nat (u16 num)))
             (fun _ s => set_pin swclk (clr_pin swclk s)) s in
  clr_pin swclk s.

(** [send_16bit_swd_pattern(pattern)]. *)
Definition send_16bit_swd_pattern (swclk swdio : Z) (pattern : Z)
    (s : machine) : machine :=
  let ps :=
    for_each (upto 16)
      (fun _ (ps : Z * machine) =>
         let (pattern, s) := ps in
         let s := clr_pin swclk s in
         let s := if Z.land pattern 0x8000 =? 0 then clr_pin swdio s
                  else set_pin swdio s in
         let s := set_pin swclk s in
         (u16 (Z.shiftl pattern 1), s))
      (u16 pattern, s) in
  clr_pin swclk (snd ps).

(** ** Console *)

Definition print (text : string) (s : machine) : machine :=
  emit (PrintStr text) s.
Definition print_dec (n : Z) (s : machine) : machine := emit (PrintDec n) s.
Definition print_hex (n : Z) (s : machine) : machine := emit (PrintHex n) s.

(** ** JTAG finder, id method *)

(** The pulse [set_pin(tck); clr_pin(tck);]. *)
Definition pulse (tck : Z) (s : machine) : machine :=
  clr_pin tck (set_pin tck s).

Definition print_tck_tms_tdo (tck tms tdo : Z) (s : machine) : machine :=
  let s := print "  " s in
  let s := print "  tck=" s in let s := print_dec tck s in
  let s := print "  tms=" s in let s := print_dec tms s in
  let s := print "  tdo=" s in print_dec tdo s.

Definition print_tck_tms_tdo_tdi (tck tms tdo tdi : Z) (s : machine)
    : machine :=
  let s := print_tck_tms_tdo tck tms tdo s in
  let s := print "  tdi=" s in print_dec tdi s.

(** The 40 clocks that reset the TAP, walk it to Shift-DR and shift the
    data register out on tdo (from [set_pin(tms)] to the end of the
    [for loop of 40]). *)
Definition id_shift_out (tck tms tdo : Z) (s : machine) : machine :=
  let s := set_pin tms s in
  for_each (upto 40)
    (fun j s =>
       let s := set_pin tck s in
       let s := clr_pin tck s in
       let s := if j =? 4 then clr_pin tms s
                else if j =? 5 then set_pin tms s
                else if j =? 6 then clr_pin tms s
                else s in
       if 7 <? j then sample tdo s else s)
    s.

(** The first 512 clocks of a tdi permutation: the flush. *)
Definition id_flush (tck tdi : Z) (s : machine) : machine :=
  let s := set_pin_to_output tdi s in
  for_each (upto 512) (fun _ s => pulse tck s) s.

(** The second 512 clocks: 32 alternating bits on tdi, then zeros, with the
    toggles of tdo counted in [tc]. *)
Definition id_inject (tck tdo tdi : Z) (s : machine) : machine :=
  for_each (upto 512)
    (fun j s =>
       let s := set_pin tck s in
       let s := clr_pin tck s in
       let s := if (j <? 32) && negb (j mod 2 =? 0) then set_pin tdi s
                else clr_pin tdi s in
       let (byte, s) := read_pin tdo s in
       let s := set_byte_val byte s in
       let s := if byte_val s =? byte_prev s then s
                else set_tc (u8 (tc s + 1)) s in
       set_byte_prev (byte_val s) s)
    s.

Definition id_report (tck tms tdo tdi : Z) (s : machine) : machine :=
  let s := print_tck_tms_tdo_tdi tck tms tdo tdi s in
  let s := print "  jtag id=" s in
  let s := print_hex (idval s) s in
  print "\r\n" s.

(** A tdi permutation from its verbose print to the end of the second 512
    clocks. *)
Definition id_tdi_probe (tck tms tdo tdi : Z) (s : machine) : machine :=
  let s := emit (Trial [tck; tms; tdo; tdi]) s in
  let s := if vflag s =? 0 then s
           else print "\r\n" (print_tck_tms_tdo_tdi tck tms tdo tdi s) in
  let s := set_byte_prev 0x00 s in
  let s := set_tc 0x00 s in
  let s := id_flush tck tdi s in
  id_inject tck tdo tdi s.

(** The body of the tdi loop after its [continue] test. *)
Definition id_tdi_trial (tck tms tdo tdi : Z) (rs : Z * machine)
    : Z * machine :=
  let (retval, s) := rs in
  let s := id_tdi_probe tck tms tdo tdi s in
  if (29 <? tc s) && (tc s <? 35)
  then (1, id_report tck tms tdo tdi s)
  else (retval, s).

(** [for(tdi=0;tdi<PINS;tdi++)] of the id method. *)
Definition id_tdi_search (tck tms tdo : Z) (rs : Z * machine) : Z * machine :=
  for_each (upto (Z.to_nat PINS))
    (fun tdi rs =>
       if (tdi =? tck) || (tdi =? tms) || (tdi =? tdo)
          || (tdi =? 1) || (tdi =? 2)
       then rs
       else id_tdi_trial tck tms tdo tdi rs)
    rs.

(** The start of a (tck, tms, tdo) permutation: the verbose print, the pin
    directions and the three variables of the sampler. *)
Definition id_prepare (tck tms tdo : Z) (s : machine) : machine :=
  let s := emit (Trial [tck; tms; tdo]) s in
  let s := if vflag s =? 0 then s
           else print "\r\n" (print_tck_tms_tdo tck tms tdo s) in
  let s := set_all_pins_to_inputs s in
  let s := set_pin_to_output tck s in
  let s := set_pin_to_output tms s in
  let s := set_byte_prev 0x00 s in
  let s := set_toggle_count 0x00 s in
  set_idval 0x00000000 s.

(** The part of a (tck, tms, tdo) permutation that comes before the test of
    the toggle count. *)
Definition id_capture (tck tms tdo : Z) (s : machine) : machine :=
  id_shift_out tck tms tdo (id_prepare tck tms tdo s).

(** The body of the tdo loop after its [continue] tests. *)
Definition id_trial (tck tms tdo : Z) (rs : Z * machine) : Z * machine :=
  let (retval, s) := rs in
  let s := id_capture tck tms tdo s in
  if 7 <? toggle_count s
  then id_tdi_search tck tms tdo (retval, s)
  else (retval, s).

Definition jtag_finder_id_method (s : machine) : Z * machine :=
  for_each (upto (Z.to_nat PINS))
    (fun tck rs =>
       for_each (upto (Z.to_nat PINS))
         (fun tms rs =>
            if tck =? tms then rs
            else
              for_each (upto (Z.to_nat PINS))
                (fun tdo rs =>
                   if (tck =? tdo) || (tms =? tdo) then rs
                   else if (tck =? 1) || (tms =? 1) || (tdo =? 1) then rs
                   else if (tck =? 2) || (tms =? 2) || (tdo =? 2) then rs
                   else id_trial tck tms tdo rs)
                rs)
         rs)
    (0, s).

(** ** JTAG finder, bypass method *)

(** The 9 clocks of the reset and walk to Shift-DR. *)
Definition bypass_reset (tck tms tdi : Z) (s : machine) : machine :=
  let s := set_pin tms s in
  let s := clr_pin tdi s in
  for_each (upto 9)
    (fun j s =>
       let s := if j =? 5 then clr_pin tms s
                else if j =? 6 then set_pin tms s
                else if j =? 7 then clr_pin tms s
                else s in
       pulse tck s)
    s.

(** The 64 clocks of the flush. *)
Definition bypass_flush (tck : Z) (s : machine) : machine :=
  for_each (upto 64) (fun _ s => pulse tck s) s.

(** The 33 clocks of the measurement. *)
Definition bypass_measure (tck tms tdo tdi : Z) (s : machine) : machine :=
  let s := clr_pin tms s in
  for_each (upto 33)
    (fun j s =>
       let s := if j mod 4 =? 0 then set_pin tdi s else clr_pin tdi s in
       let s := pulse tck s in
       sample tdo s)
    s.

Definition bypass_report (tck tms tdo tdi : Z) (s : machine) : machine :=
  let s := print_tck_tms_tdo_tdi tck tms tdo tdi s in
  let s := print "  bypass_data=" s in
  let s := print_hex (idval s) s in
  let s := print "\r\n" s in
  set_pin tms s.

(** From the verbose print to the end of the measurement. *)
Definition bypass_probe (tck tms tdo tdi : Z) (s : machine) : machine :=
  let s := emit (Trial [tck; tms; tdo; tdi]) s in
  let s := if vflag s =? 0 then s
           else print "\r\n" (print_tck_tms_tdo_tdi tck tms tdo tdi s) in
  let s := set_all_pins_to_inputs s in
  let s := set_pin_to_output tck s in
  let s := set_pin_to_output tms s in
  let s := set_pin_to_output tdi s in
  let s := set_byte_prev 0x00 s in
  let s := set_toggle_count 0x00 s in
  let s := set_idval 0x00000000 s in
  let s := bypass_reset tck tms tdi s in
  let s := bypass_flush tck s in
  bypass_measure tck tms tdo tdi s.

(** The test of the toggle count and what follows it. *)
Definition bypass_verdict (tck tms tdo tdi : Z) (rs : Z * machine)
    : Z * machine :=
  let (retval, s) := rs in
  if (13 <? toggle_count s) && (toggle_count s <? 19)
  then (1, bypass_report tck tms tdo tdi s)
  else (retval, s).

(** The body of the tdi loop after its [continue] test.  [ones] stands for
    the function whose result is stored in [cnt1]; the sketch uses
    [count_ones]. *)
Definition bypass_trial_with (ones : Z -> Z) (tck tms tdo tdi : Z)
    (rs : Z * machine) : Z * machine :=
  let (retval, s) := rs in
  let s := bypass_probe tck tms tdo tdi s in
  let s := set_cnt1 (ones (idval s)) s in
  bypass_verdict tck tms tdo tdi (retval, s).

Definition jtag_finder_bypass_method_with (ones : Z -> Z) (s : machine)
    : Z * machine :=
  for_each (upto (Z.to_nat PINS))
    (fun tck rs =>
       for_each (upto (Z.to_nat PINS))
         (fun tms rs =>
            if tck =? tms then rs
            else
              for_each (upto (Z.to_nat PINS))
                (fun tdo rs =>
                   if (tck =? tdo) || (tms =? tdo) then rs
                   else if (tck =? 1) || (tms =? 1) || (tdo =? 1) then rs
                   else if (tck =? 2) || (tms =? 2) || (tdo =? 2) then rs
                   else
                     for_each (upto (Z.to_nat PINS))
                       (fun tdi rs =>
                          if (tdi =? tck) || (tdi =? tms) || (tdi =? tdo)
                             || (tdi =? 1) || (tdi =? 2)
                          then rs
                          else bypass_trial_with ones tck tms tdo tdi rs)
                       rs)
                rs)
         rs)
    (0, s).

Definition bypass_trial : Z -> Z -> Z -> Z -> Z * machine -> Z * machine :=
  bypass_trial_with count_ones.

Definition jtag_finder_bypass_method : machine -> Z * machine :=
  jtag_finder_bypass_method_with count_ones.

(** ** SWD finder *)

(** The six calls that send the connect sequence. *)
Definition swd_connect (swclk swdio : Z) (s : machine) : machine :=
  let s := send_fixed_swd_pattern swclk swdio 0 8 s in
  let s := send_fixed_swd_pattern swclk swdio 1 50 s in
  let s := send_fixed_swd_pattern swclk swdio 0 0x79e7 s in
  let s := send_fixed_swd_pattern swclk swdio 0 8 s in
  let s := send_fixed_swd_pattern swclk swdio 1 50 s in
  send_fixed_swd_pattern swclk swdio 0 0x00a5 s.

(** The 38 clocks that read the answer. *)
Definition swd_read (swclk swdio : Z) (s : machine) : machine :=
  for_each (upto 38)
    (fun j s =>
       let s := clr_pin swclk s in
       let s := set_pin swclk s in
       if (2 <? j) && (j <? 35) then sample swdio s else s)
    s.

Definition swd_report (swclk swdio : Z) (s : machine) : machine :=
  let s := print "  " s in
  let s := print "  swclk=" s in let s := print_dec swclk s in
  let s := print "  swdio=" s in let s := print_dec swdio s in
  let s := print "  swd_id=" s in let s := print_hex (idval s) s in
  print "\r\n" s.

(** From the verbose print to the last [clr_pin(swdio)]. *)
Definition swd_probe (swclk swdio : Z) (s : machine) : machine :=
  let s := emit (Trial [swclk; swdio]) s in
  let s := if vflag s =? 0 then s
           else
             let s := print "  " s in
             let s := print "  swclk=" s in let s := print_dec swclk s in
             let s := print "  swdio=" s in let s := print_dec swdio s in
             print "\r\n" s in
  let s := set_all_pins_to_inputs s in
  let s := set_pin_to_output swclk s in
  let s := set_pin_to_output swdio s in
  let s := set_byte_prev 0x00 s in
  let s := set_toggle_count 0x00 s in
  let s := set_idval 0x00000000 s in
  let s := swd_connect swclk swdio s in
  let s := clr_pin swclk s in
  let s := clr_pin swdio s in
  let s := set_pin_to_input swdio s in
  let s := swd_read swclk swdio s in
  let s := clr_pin swclk s in
  clr_pin swdio s.

Definition swd_trial (swclk swdio : Z) (rs : Z * machine) : Z * machine :=
  let (retval, s) := rs in
  let s := swd_probe swclk swdio s in
  if 7 <? toggle_count s
  then (1, swd_report swclk swdio s)
  else (retval, s).

Definition swd_finder (s : machine) : Z * machine :=
  for_each (upto (Z.to_nat PINS))
    (fun swclk rs =>
       for_each (upto (Z.to_nat PINS))
         (fun swdio rs =>
            if (swclk =? swdio) || (swclk =? 1) || (swdio =? 1)
               || (swclk =? 2) || (swdio =? 2)
            then rs
            else swd_trial swclk swdio rs)
         rs)
    (0, s).

(** ** setup *)

(** The three finder stages of [setup]: each prints its start line, runs its
    finder, prints the not-found line when the finder returned 0 and prints
    its end line. *)
Definition id_stage (s : machine) : machine :=
  let s := print "  Start of JTAG Finder using JTAG ID method.\r\n" s in
  let rs := jtag_finder_id_method s in
  let s := if fst rs =? 0
           then print "    Did not find a JTAG interface using the JTAG ID method.\r\n" (snd rs)
           else snd rs in
  print "  End of JTAG Finder using JTAG ID method.\r\n\n" s.

Definition bypass_stage (s : machine) : machine :=
  let s := print "  Start of JTAG Finder using Bypass method.\r\n" s in
  let rs := jtag_finder_bypass_method s in
  let s := if fst rs =? 0
           then print "    Did not find a JTAG interface using Bypass method.\r\n" (snd rs)
           else snd rs in
  print "  End of JTAG Finder using Bypass method.\r\n\n" s.

Definition swd_stage (s : machine) : machine :=
  let s := print "  Start of SWD Finder.\r\n" s in
  let rs := swd_finder s in
  let s := if fst rs =? 0
           then print "    Did not find a SWD interface.\r\n" (snd rs)
           else snd rs in
  print "  End of SWD Finder.\r\n\n" s.

(** The part of [setup] that runs the three finders, from
    [Begin testing...] to [Done testing.]. *)
Definition run_finders (s : machine) : machine :=
  let s := print "\r\n\n" s in
  let s := print "Begin testing...\r\n\n" s in
  let s := id_stage s in
  let s := bypass_stage s in
  let s := swd_stage s in
  print "Done testing.\r\n" s.

(** [setup]; [incomingByte] is the byte the console delivers once the wait
    for a key is over. *)
Definition setup (incomingByte : Z) (s : machine) : machine :=
  let s := set_vflag 0 s in
  let s := print "\r\n\n\n\n\n\n\n" s in
  let s := print "----------------------------------------------------------------------\r\n" s in
  let s := print "------------------- LaunchPad JTAG/SWD Finder v1.0 -------------------\r\n" s in
  let s := print "----------------------------------------------------------------------\r\n" s in
  let s := print "\r\n" s in
  let s := print "The test results below use the numbers 0 thru 15 as follows to specify\r\n" s in
  let s := print "any MSP430G2553 pins that are connected to JTAG or SWD signals:\r\n" s in
  let s := print "  0:P1.0   1:n/a    2:n/a    3:Pl.3   4:P1.4   5:P1.5   6:P1.6   7:P1.7\r\n" s in
  let s := print "  8:P2.0   9:P2.1  10:P2.2  11:P2.3  12:P2.4  13:P2.5  14:P2.6  15:P2.7\r\n" s in
  let s := print "\r\n\n" s in
  let s := print "\Press 'v' for verbose mode or any other key for non-verbose mode." s in
  let s := if (incomingByte =? 118) || (incomingByte =? 86)
           then set_vflag 1 s else s in
  let s := if vflag s =? 1 then print "\r\n  Verbose mode on." s
           else print "\r\n  Verbose mode off." s in
  run_finders s.

End Machine.

(** ** Observations on the registers *)

(** The direction, pull-resistor and output bits of a pin ordinal. *)
Definition dir_bit (p : ports) (pin : Z) : bool :=
  if pin <? 8 then Z.testbit (P1DIR p) pin else Z.testbit (P2DIR p) (pin - 8).
Definition ren_bit (p : ports) (pin : Z) : bool :=
  if pin <? 8 then Z.testbit (P1REN p) pin else Z.testbit (P2REN p) (pin - 8).
Definition out_bit (p : ports) (pin : Z) : bool :=
  if pin <? 8 then Z.testbit (P1OUT p) pin else Z.testbit (P2OUT p) (pin - 8).

Definition non_reserved_pins : list Z :=
  [0; 3; 4; 5; 6; 7; 8; 9; 10; 11; 12; 13; 14; 15].
Definition port2_pins : list Z := [8; 9; 10; 11; 12; 13; 14; 15].

(** ** Observations on a log *)

(** The machine after power-up, with nothing logged. *)
Definition power_on {W : Type} (w : W) : machine W :=
  mkMachine (mkPorts 0 0 0 0 0 0) 0 0 0 0 0 0 0 w [].

(** The two ordinals of the hardware uart. *)
Definition reserved (pin : Z) : bool := (pin =? 1) || (pin =? 2).

Fixpoint distinct (l : list Z) : bool :=
  match l with
  | [] => true
  | x :: rest => negb (existsb (Z.eqb x) rest) && distinct rest
  end.

(** A role assignment is valid when its pins are pairwise distinct pin
    ordinals, none of them reserved. *)
Definition valid_roles (roles : list Z) : bool :=
  distinct roles
  && forallb (fun p => (0 <=? p) && (p <? PINS) && negb (reserved p)) roles.

Definition ok_event (e : event) : Prop :=
  match e with
  | Trial roles => valid_roles roles = true
  | _ => True
  end.

Definition is_trial (e : event) : bool :=
  match e with Trial _ => true | _ => false end.

(** The role assignments tried, in order. *)
Fixpoint trials_of (evs : list event) : list (list Z) :=
  match evs with
  | [] => []
  | Trial roles :: rest => roles :: trials_of rest
  | _ :: rest => trials_of rest
  end.

(** The bytes read from the pins, in order. *)
Fixpoint reads_of (evs : list event) : list Z :=
  match evs with
  | [] => []
  | ReadPin _ byte :: rest => byte :: reads_of rest
  | _ :: rest => reads_of rest
  end.

(** The level of [dat] at every rising edge of [clk], given the levels [c]
    and [d] of the two pins before the first event. *)
Fixpoint waveform (clk dat : Z) (c d : bool) (evs : list event) : list bool :=
  match evs with
  | [] => []
  | SetPin p :: rest =>
      if p =? clk then
        if c then waveform clk dat true d rest
        else d :: waveform clk dat true d rest
      else if p =? dat then waveform clk dat c true rest
      else waveform clk dat c d rest
  | ClrPin p :: rest =>
      if p =? clk then waveform clk dat false d rest
      else if p =? dat then waveform clk dat c false rest
      else waveform clk dat c d rest
  | _ :: rest => waveform clk dat c d rest
  end.

(** For every read of [pin], the number of rising edges of [clk] before it;
    [n] is the number of edges before the first event and [c] the level of
    [clk] there. *)
Fixpoint read_points (clk pin : Z) (c : bool) (n : Z) (evs : list event)
    : list Z :=
  match evs with
  | [] => []
  | SetPin p :: rest =>
      if p =? clk then read_points clk pin true (if c then n else n + 1) rest
      else read_points clk pin c n rest
  | ClrPin p :: rest =>
      if p =? clk then read_points clk pin false n rest
      else read_points clk pin c n rest
  | ReadPin p _ :: rest =>
      if p =? pin then n :: read_points clk pin c n rest
      else read_points clk pin c n rest
  | _ :: rest => read_points clk pin c n rest
  end.

(** The events of a loop that, for every counter value [j], performs the
    pin operations [ops j] and then, when [reads_at j], reads [pin]; [bytes]
    are the bytes the reads deliver, in order. *)
Fixpoint loop_events (ops : Z -> list event) (reads_at : Z -> bool) (pin : Z)
    (l : list Z) (bytes : list Z) : list event :=
  match l with
  | [] => []
  | j :: l' =>
      ops j ++
      (if reads_at j then
         match bytes with
         | b :: bytes' =>
             ReadPin pin b :: loop_events ops reads_at pin l' bytes'
         | [] => loop_events ops reads_at pin l' []
         end
       else loop_events ops reads_at pin l' bytes)
  end.

(** The pin operations of clock [j] of the 40 clocks of the id method. *)
Definition id_shift_ops (tck tms : Z) (j : Z) : list event :=
  [SetPin tck; ClrPin tck]
  ++ (if j =? 4 then [ClrPin tms]
      else if j =? 5 then [SetPin tms]
      else if j =? 6 then [ClrPin tms]
      else []).

(** What [id_shift_out] logs when its reads deliver [bytes]. *)
Definition id_shift_events (tck tms tdo : Z) (bytes : list Z) : list event :=
  SetPin tms
  :: loop_events (id_shift_ops tck tms) (fun j => 7 <? j) tdo (upto 40) bytes.

(** An event with the byte of a read blanked. *)
Definition blank (e : event) : event :=
  match e with
  | ReadPin pin _ => ReadPin pin 0
  | _ => e
  end.

(** The 40 levels of tms, 1111101 followed by zeros. *)
Definition tms_sequence : list bool :=
  [true; true; true; true; true; false; true] ++ repeat false 33.

(** The three variables of the Signal Sampler in a machine. *)
Definition sampler_of {W : Type} (s : machine W) : sampler :=
  (byte_prev s, toggle_count s, idval s).

(** Every triple of pin ordinals in the order of the three outer loops, and
    those of them with distinct, non-reserved pins. *)
Definition all_triples : list (list Z) :=
  flat_map (fun tck =>
    flat_map (fun tms => map (fun tdo => [tck; tms; tdo]) (upto 16))
      (upto 16)) (upto 16).

Definition valid_triples : list (list Z) := filter valid_roles all_triples.

(** The 16 bits of a pattern, most significant first. *)
Definition msb_first16 (pattern : Z) : list bool :=
  map (fun i => Z.testbit pattern (15 - i)) (upto 16).

(** ** Simulated targets *)

(** A target that is not there: it ignores the pins and drives nothing. *)
#[export] Instance absent_target : Target unit := {|
  react := fun _ w => w;
  P1IN := fun _ => 0;
  P2IN := fun _ => 0
|}.

(** A scan path between the target's TDI and TDO: [chain_len] register
    stages clocked by the rising edge of TCK.  At an edge the stage next to
    TDO moves to the TDO driver and the level on TDI enters the far end.
    With one stage, TDO shows after each clock the level TDI had at the
    clock before: the pass-through of a bypass register. *)
Record scan_path : Type := mkScanPath {
  wire_tck : Z;          (* pin wired to TCK *)
  wire_tdo : Z;          (* pin wired to TDO *)
  wire_tdi : list Z;     (* pins wired to TDI *)
  chain_len : Z;
  clk_seen : bool;       (* level of TCK at the last store *)
  stages : Z;            (* bit 0 is the stage next to TDO *)
  tdo_level : bool
}.

(** The level the microcontroller drives on a pin: high when the pin is an
    output and its output bit is set. *)
Definition drives_high (p : ports) (pin : Z) : bool :=
  dir_bit p pin && out_bit p pin.

Definition scan_react (p : ports) (w : scan_path) : scan_path :=
  let clk := drives_high p (wire_tck w) in
  if negb (clk_seen w) && clk then
    let tdi := existsb (drives_high p) (wire_tdi w) in
    mkScanPath (wire_tck w) (wire_tdo w) (wire_tdi w) (chain_len w) clk
      (Z.lor (Z.shiftr (stages w) 1)
             (if tdi then Z.shiftl 1 (chain_len w - 1) else 0))
      (Z.testbit (stages w) 0)
  else
    mkScanPath (wire_tck w) (wire_tdo w) (wire_tdi w) (chain_len w) clk
      (stages w) (tdo_level w).

Definition scan_P1IN (w : scan_path) : Z :=
  if tdo_level w && (wire_tdo w <? 8) then Z.shiftl 1 (wire_tdo w) else 0.

Definition scan_P2IN (w : scan_path) : Z :=
  if tdo_level w && (8 <=? wire_tdo w) then Z.shiftl 1 (wire_tdo w - 8) else 0.

#[export] Instance scan_target : Target scan_path := {|
  react := scan_react;
  P1IN := scan_P1IN;
  P2IN := scan_P2IN
|}.

(** A target in bypass wired to the given pins: one stage, empty. *)
Definition bypass_target (tck tdo tdi : Z) : scan_path :=
  mkScanPath tck tdo [tdi] 1 false 0 false.

(** A target with a 32 bit register of alternating bits in the scan path,
    TCK on pin 0, TDO on pin 4 and TDI reachable from pins 5 and 6. *)
Definition two_tdi_target : scan_path :=
  mkScanPath 0 4 [5; 6] 32 false 0x55555555 false.

(** A target with a scan path of 840 stages of alternating bits, TCK on pin
    0, TDO on pin 4 and TDI on none of the pins. *)
Definition long_chain_target : scan_path :=
  mkScanPath 0 4 [] 840 false ((2 ^ 840 - 1) / 3) false.

(** A machine whose output registers are all ones. *)
Definition all_high : machine unit :=
  mkMachine (mkPorts 0 0 0xFF 0 0 0xFF) 0 0 0 0 0 0 0 tt [].

(** The bytes a pin with the given mask delivers for a sequence of levels. *)
Definition bytes_of (mask : Z) (bits : list bool) : list Z :=
  map (fun b : bool => if b then mask else 0) bits.

Definition pin_masks : list Z :=
  [BIT0; BIT1; BIT2; BIT3; BIT4; BIT5; BIT6; BIT7].

(** ** Relations between logs *)

(** The strings that open an acceptance report or say that a finder found
    nothing. *)
Definition id_mark : string := "  jtag id=".
Definition bypass_mark : string := "  bypass_data=".
Definition swd_mark : string := "  swd_id=".
Definition id_not_found : string :=
  "    Did not find a JTAG interface using the JTAG ID method.\r\n".
Definition bypass_not_found : string :=
  "    Did not find a JTAG interface using Bypass method.\r\n".
Definition swd_not_found : string :=
  "    Did not find a SWD interface.\r\n".

Definition marks : list string :=
  [id_mark; bypass_mark; swd_mark; id_not_found; bypass_not_found;
   swd_not_found].

(** An event that is neither a [Trial] marker nor the print of a mark. *)
Definition plain (e : event) : bool :=
  match e with
  | Trial _ => false
  | PrintStr text => negb (existsb (String.eqb text) marks)
  | _ => true
  end.

Definition is_print (m : string) (e : event) : bool :=
  match e with
  | PrintStr text => String.eqb text m
  | _ => false
  end.

(** Whether the mark [m] was printed. *)
Definition printed (m : string) (evs : list event) : bool :=
  existsb (is_print m) evs.

(** A trial of a valid role assignment, or anything that is not a trial. *)
Definition roles_ok (e : event) : bool :=
  match e with
  | Trial roles => valid_roles roles
  | _ => true
  end.

(** Anything but a trial of three roles. *)
Definition not_triple (e : event) : bool :=
  match e with
  | Trial roles => negb (Nat.eqb (List.length roles) 3)
  | _ => true
  end.

(** Anything a finder that reports with [m] may log. *)
Definition finder_event (m : string) (e : event) : bool :=
  plain e || is_trial e || is_print m e.

Definition triples_of (evs : list event) : list (list Z) :=
  filter (fun roles => Nat.eqb (List.length roles) 3) (trials_of evs).

(** The log [l'] is the log [l] followed by the events [new]. *)
Definition continues (l l' : list event) (new : list event) : Prop :=
  l' = rev new ++ l.

(** [l'] continues [l] with events that all satisfy [p]. *)
Definition appends (p : event -> bool) (l l' : list event) : Prop :=
  exists new, continues l l' new /\ forallb p new = true.

(** [l'] continues [l] with events whose projection is [T]. *)
Definition yields {A : Type} (proj : list event -> list A)
    (l l' : list event) (T : list A) : Prop :=
  exists new, continues l l' new /\ proj new = T.

(** The flag [r'] is 1 if the mark [m] was printed between [l] and [l'],
    and is [r] otherwise. *)
Definition flags (m : string) (r : Z) (l : list event) (r' : Z)
    (l' : list event) : Prop :=
  exists new,
    continues l l' new /\ r' = (if printed m new then 1 else r).

Definition no_print (m : string) (e : event) : bool := negb (is_print m e).

Definition neither (m nf : string) (e : event) : bool :=
  no_print m e && no_print nf e.

(** Between [s] and [s'] the mark [m] was printed, or not, as [b] says. *)
Definition reports {W : Type} (m : string) (s s' : machine W) (b : bool)
    : Prop :=
  exists new, history s' = history s ++ new /\ printed m new = b.

(** The role assignments that pass the [continue] tests of the loops. *)
Definition passes3 (tck tms tdo : Z) : bool :=
  negb (tck =? tms)
  && negb ((tck =? tdo) || (tms =? tdo))
  && negb ((tck =? 1) || (tms =? 1) || (tdo =? 1))
  && negb ((tck =? 2) || (tms =? 2) || (tdo =? 2)).

Definition passes4 (tck tms tdo tdi : Z) : bool :=
  passes3 tck tms tdo
  && negb ((tdi =? tck) || (tdi =? tms) || (tdi =? tdo)
           || (tdi =? 1) || (tdi =? 2)).

Definition passes2 (swclk swdio : Z) : bool :=
  negb ((swclk =? swdio) || (swclk =? 1) || (swdio =? 1)
        || (swclk =? 2) || (swdio =? 2)).

(** The trials of four roles and the acceptance reports of the id method. *)
Definition tdi_trials_and_reports (evs : list event) : list event :=
  filter (fun e =>
            match e with
            | Trial [_; _; _; _] => true
            | _ => is_print id_mark e
            end) evs.

(** A class of events that contains the plain ones. *)
Definition accepts_plain (p : event -> bool) : Prop :=
  forall e, plain e = true -> p e = true.

(** An operation that neither reads nor writes [cnt1]. *)
Definition cnt1_blind (W : Type) (f : machine W -> machine W) : Prop :=
  forall c s, f (set_cnt1 c s) = set_cnt1 c (f s).

(** The levels the connect sequence of the SWD finder is meant to put on
    swdio, one per clock: 8 zeros, 50 ones, a 16-bit pattern, 8 zeros, 50
    ones and a second 16-bit pattern. *)
Definition swd_specified (switch request : Z) : list bool :=
  repeat false 8 ++ repeat true 50 ++ msb_first16 switch
  ++ repeat false 8 ++ repeat true 50 ++ msb_first16 request.

(** The level a byte returned by [read_pin] stands for. *)
Definition level_of (byte : Z) : bool := negb (byte =? 0).

Fixpoint bools_eqb (a b : list bool) : bool :=
  match a, b with
  | [], [] => true
  | x :: a', y :: b' => Bool.eqb x y && bools_eqb a' b'
  | _, _ => false
  end.

(** ** Counting set bits *)

(** The number of set bits among the bits [0 .. n-1] of [val]. *)
Definition ones_below (n : nat) (val : Z) : Z :=
  fold_right Z.add 0 (map (fun i => Z.b2z (Z.testbit val i)) (upto n)).

(** ** The word of the Signal Sampler *)

(** The sample that sits at bit [i] of the captured word after the samples
    [bytes]: the word holds the last 32 samples, the newest at bit 31. *)
Definition captured_bit (bytes : list Z) (i : Z) : bool :=
  let k := Z.of_nat (List.length bytes) - 32 + i in
  (0 <=? k) && level_of (nth (Z.to_nat k) bytes 0).

(** ** Pins and their bits *)

(** The pin ordinals that have a branch in the functions of the pin layer:
    0 and 3 to 15. *)
Definition wired (pin : Z) : bool := existsb (Z.eqb pin) non_reserved_pins.

(** The input bit of a pin ordinal. *)
Definition in_bit {W : Type} {target : Target W} (w : W) (pin : Z) : bool :=
  if pin <? 8 then Z.testbit (P1IN w) pin else Z.testbit (P2IN w) (pin - 8).

(** The mask of a pin ordinal within its port. *)
Definition mask_of (pin : Z) : Z :=
  if pin <? 8 then Z.shiftl 1 pin else Z.shiftl 1 (pin - 8).

(** ** The clocks of the bypass method *)

(** The pin operations of clock [j] of the 9 clocks of the bypass reset, of
    a clock of the flush and of clock [j] of the 33 clocks of the
    measurement. *)
Definition bypass_reset_ops (tck tms : Z) (j : Z) : list event :=
  (if j =? 5 then [ClrPin tms]
   else if j =? 6 then [SetPin tms]
   else if j =? 7 then [ClrPin tms]
   else [])
  ++ [SetPin tck; ClrPin tck].

Definition pulse_ops (tck : Z) (j : Z) : list event :=
  [SetPin tck; ClrPin tck].

Definition bypass_measure_ops (tck tdi : Z) (j : Z) : list event :=
  [if j mod 4 =? 0 then SetPin tdi else ClrPin tdi; SetPin tck; ClrPin tck].

(** What the bypass method logs from [set_pin(tms)] to the end of the
    measurement when its reads deliver [bytes]. *)
Definition bypass_events (tck tms tdo tdi : Z) (bytes : list Z)
    : list event :=
  [SetPin tms; ClrPin tdi]
  ++ flat_map (bypass_reset_ops tck tms) (upto 9)
  ++ flat_map (pulse_ops tck) (upto 64)
  ++ [ClrPin tms]
  ++ loop_events (bypass_measure_ops tck tdi) (fun _ => true) tdo (upto 33)
       bytes.

(** ** The clocks of the SWD read *)

(** The pin operations of a clock of the 38 clocks that read the answer of
    the SWD finder, and what [swd_read] logs when its reads deliver
    [bytes]. *)
Definition swd_read_ops (swclk : Z) (j : Z) : list event :=
  [ClrPin swclk; SetPin swclk].

Definition swd_read_events (swclk swdio : Z) (bytes : list Z) : list event :=
  loop_events (swd_read_ops swclk) (fun j => (2 <? j) && (j <? 35)) swdio
    (upto 38) bytes.

(** ** The clocks of the tdi search *)

(** The pin operations of clock [j] of the second 512 clocks of a tdi
    permutation of the id method, and what the permutation logs from
    [set_pin_to_output(tdi)] on when its reads deliver [bytes]. *)
Definition id_inject_ops (tck tdi : Z) (j : Z) : list event :=
  [SetPin tck; ClrPin tck;
   if (j <? 32) && negb (j mod 2 =? 0) then SetPin tdi else ClrPin tdi].

Definition id_tdi_events (tck tdo tdi : Z) (bytes : list Z) : list event :=
  [CfgOutput tdi]
  ++ flat_map (pulse_ops tck) (upto 512)
  ++ loop_events (id_inject_ops tck tdi) (fun _ => true) tdo (upto 512) bytes.

(** The two variables of the toggle counter of the tdi search. *)
Definition counter_of {W : Type} (s : machine W) : Z * Z :=
  (byte_prev s, tc s).

(** ** Targets that never answer *)

(** A target whose input registers never change, whatever is done to the
    pins: nothing is connected, or the lines are stuck. *)
Definition steady_inputs (W : Type) {target : Target W} : Prop :=
  forall w w' : W, P1IN w = P1IN w' /\ P2IN w = P2IN w'.

(** A sampler that has seen nothing but the byte [c]. *)
Definition calm (c : Z) (st : sampler) : Prop :=
  let '(prev, count, _) := st in
  (count = 0 /\ prev = 0) \/ (0 <= count <= 1 /\ prev = c).

(** The relation every operation of a trial keeps: a sampler that has seen
    nothing but the byte [c] still has seen nothing else. *)
Definition stays_calm {W : Type} (c : Z) (a b : machine W) : Prop :=
  calm c (sampler_of a) -> calm c (sampler_of b).

(** ** The search spaces of the bypass and SWD finders *)

(** Every quadruple and every pair of pin ordinals in the order of the
    loops, and those of them with distinct, non-reserved pins. *)
Definition all_quadruples : list (list Z) :=
  flat_map (fun tck =>
    flat_map (fun tms =>
      flat_map (fun tdo => map (fun tdi => [tck; tms; tdo; tdi]) (upto 16))
        (upto 16)) (upto 16)) (upto 16).

Definition valid_quadruples : list (list Z) :=
  filter valid_roles all_quadruples.

Definition all_pairs : list (list Z) :=
  flat_map (fun swclk => map (fun swdio => [swclk; swdio]) (upto 16))
    (upto 16).

Definition valid_pairs : list (list Z) := filter valid_roles all_pairs.

(** ** The UART pins *)

(** The direction and pull-resistor bits of the two uart pins. *)
Definition uart_config (p : ports) : list bool :=
  [dir_bit p 1; dir_bit p 2; ren_bit p 1; ren_bit p 2].

(** The uart pins are left alone between [a] and [b]: their direction and
    pull-resistor bits are the same and none of their output bits went from
    0 to 1. *)
Definition uart_kept {W : Type} (a b : machine W) : Prop :=
  uart_config (io b) = uart_config (io a)
  /\ implb (out_bit (io b) 1) (out_bit (io a) 1) = true
  /\ implb (out_bit (io b) 2) (out_bit (io a) 2) = true.

(** A relation between the machine before and the machine after that is
    reflexive, transitive and kept by the operations of the pin layer, by a
    log entry and by a store to a variable. *)
Record kept_by_steps {W : Type} {target : Target W}
    (R : machine W -> machine W -> Prop) : Prop := {
  k_refl : forall s, R s s;
  k_trans : forall a b c, R a b -> R b c -> R a c;
  k_emit : forall e s, R s (emit e s);
  k_byte_val : forall v s, R s (set_byte_val v s);
  k_byte_prev : forall v s, R s (set_byte_prev v s);
  k_toggle_count : forall v s, R s (set_toggle_count v s);
  k_tc : forall v s, R s (set_tc v s);
  k_idval : forall v s, R s (set_idval v s);
  k_cnt1 : forall v s, R s (set_cnt1 v s);
  k_vflag : forall v s, R s (set_vflag v s);
  k_set_pin : forall pin s, R s (set_pin pin s);
  k_clr_pin : forall pin s, R s (clr_pin pin s);
  k_input : forall pin s, R s (set_pin_to_input pin s);
  k_output : forall pin s, R s (set_pin_to_output pin s);
  k_all_inputs : forall s, R s (set_all_pins_to_inputs s)
}.

(** A relation on machines, on the machines of two loop states. *)
Definition on_machines {W : Type} (R : machine W -> machine W -> Prop)
    (a b : Z * machine W) : Prop :=
  R (snd a) (snd b).

(** ** Verbose mode *)

(** The events of the console. *)
Definition console (e : event) : bool :=
  match e with
  | PrintStr _ | PrintDec _ | PrintHex _ => true
  | _ => false
  end.

(** A log without its console events: the pin operations, the reads and the
    trial markers. *)
Definition pin_activity (evs : list event) : list event :=
  filter (fun e => negb (console e)) evs.

(** A machine without its verbose flag and its console output. *)
Definition quiet_view {W : Type} (s : machine W) :=
  (io s, byte_val s, byte_prev s, toggle_count s, tc s, idval s, cnt1 s,
   world s, pin_activity (log s)).

(** Two machines that differ in nothing but the verbose flag and what was
    printed; with a return value, the values are equal as well. *)
Definition same_activity {W : Type} (a b : machine W) : Prop :=
  quiet_view a = quiet_view b.

Definition same_outcome {W : Type} (ra rb : Z * machine W) : Prop :=
  fst ra = fst rb /\ same_activity (snd ra) (snd rb).

(** ** Search spaces *)

(** The trials of a search space one after the other, each started from
    what the one before it left: no trial is skipped and none ends the
    search. *)
Definition run_trials {S : Type} (trial : list Z -> S -> S)
    (space : list (list Z)) (st : S) : S :=
  fold_left (fun acc roles => trial roles acc) space st.

(** Whether some trial of a search space is accepted, each trial being
    judged on the machine that the trials before it left. *)
Fixpoint some_accepted {W : Type} (accepts : list Z -> machine W -> bool)
    (trial : list Z -> Z * machine W -> Z * machine W)
    (space : list (list Z)) (s : machine W) : bool :=
  match space with
  | [] => false
  | roles :: rest =>
      accepts roles s
      || some_accepted accepts trial rest (snd (trial roles (0, s)))
  end.

(** The candidates for tdi of a triple, in the order of the tdi loop. *)
Definition id_tdi_candidates (tck tms tdo : Z) : list (list Z) :=
  map (fun tdi => [tck; tms; tdo; tdi])
    (filter (fun tdi => negb (existsb (Z.eqb tdi) [tck; tms; tdo; 1; 2]))
       (upto 16)).

Section Trials.

Context {W : Type} {target : Target W}.

(** The trial of each finder on a role assignment, and its acceptance
    test: the band of the finder on the count that the probe of the
    assignment leaves. *)
Definition id_tdi_trial_of (roles : list Z) (rs : Z * machine W)
    : Z * machine W :=
  match roles with
  | [tck; tms; tdo; tdi] => id_tdi_trial tck tms tdo tdi rs
  | _ => rs
  end.

Definition id_tdi_accepts (roles : list Z) (s : machine W) : bool :=
  match roles with
  | [tck; tms; tdo; tdi] =>
      (29 <? tc (id_tdi_probe tck tms tdo tdi s))
      && (tc (id_tdi_probe tck tms tdo tdi s) <? 35)
  | _ => false
  end.

Definition id_trial_of (roles : list Z) (rs : Z * machine W)
    : Z * machine W :=
  match roles with
  | [tck; tms; tdo] => id_trial tck tms tdo rs
  | _ => rs
  end.

(** A triple is accepted when its activity gate passes and one of its
    candidates for tdi is accepted. *)
Definition id_accepts (roles : list Z) (s : machine W) : bool :=
  match roles with
  | [tck; tms; tdo] =>
      (7 <? toggle_count (id_capture tck tms tdo s))
      && some_accepted id_tdi_accepts id_tdi_trial_of
           (id_tdi_candidates tck tms tdo) (id_capture tck tms tdo s)
  | _ => false
  end.

Definition bypass_trial_of (roles : list Z) (rs : Z * machine W)
    : Z * machine W :=
  match roles with
  | [tck; tms; tdo; tdi] => bypass_trial tck tms tdo tdi rs
  | _ => rs
  end.

Definition bypass_accepts (roles : list Z) (s : machine W) : bool :=
  match roles with
  | [tck; tms; tdo; tdi] =>
      (13 <? toggle_count (bypass_probe tck tms tdo tdi s))
      && (toggle_count (bypass_probe tck tms tdo tdi s) <? 19)
  | _ => false
  end.

Definition swd_trial_of (roles : list Z) (rs : Z * machine W)
    : Z * machine W :=
  match roles with
  | [swclk; swdio] => swd_trial swclk swdio rs
  | _ => rs
  end.

Definition swd_accepts (roles : list Z) (s : machine W) : bool :=
  match roles with
  | [swclk; swdio] => 7 <? toggle_count (swd_probe swclk swdio s)
  | _ => false
  end.

(** Whether a finder started on [s] accepts a candidate of its search
    space. *)
Definition id_found (s : machine W) : bool :=
  some_accepted id_accepts id_trial_of valid_triples s.

Definition bypass_found (s : machine W) : bool :=
  some_accepted bypass_accepts bypass_trial_of valid_quadruples s.

Definition swd_found (s : machine W) : bool :=
  some_accepted swd_accepts swd_trial_of valid_pairs s.

End Trials.

(** * Properties *)

(** ** The pin layer *)

Section PinLayer.

Context {W : Type} {target : Target W}.

Lemma testbit_u8 (v i : Z) :
  0 <= i < 8 -> Z.testbit (u8 v) i = Z.testbit v i.
Proof.
  intros Hi. unfold u8. rewrite Z.land_spec.
  replace 0xFF with (Z.ones 8) by reflexivity.
  rewrite Z.ones_spec_low by lia. apply andb_true_r.
Qed.

Ltac bits :=
  cbn -[Z.testbit Z.land Z.lor Z.lnot u8];
  rewrite ?testbit_u8 by lia;
  rewrite ?Z.land_spec, ?Z.lor_spec, ?Z.lnot_spec by lia;
  rewrite ?testbit_u8 by lia;
  cbn;
  rewrite ?andb_false_r, ?andb_true_r, ?orb_true_r, ?orb_false_r;
  auto.

(** C2, as amended: [set_all_pins_to_inputs] leaves every non-reserved pin
    an input with its pull resistor enabled and forces the level of every
    port 2 pin to 1; [set_pin_to_input] leaves its pin an input with the
    pull resistor enabled and the level forced to 0. *)
Theorem input_configuration (s : machine W) :
  Forall (fun pin =>
            dir_bit (io (set_all_pins_to_inputs s)) pin = false
            /\ ren_bit (io (set_all_pins_to_inputs s)) pin = true)
         non_reserved_pins
  /\ Forall (fun pin => out_bit (io (set_all_pins_to_inputs s)) pin = true)
            port2_pins
  /\ Forall (fun pin =>
               dir_bit (io (set_pin_to_input pin s)) pin = false
               /\ ren_bit (io (set_pin_to_input pin s)) pin = true
               /\ out_bit (io (set_pin_to_input pin s)) pin = false)
            non_reserved_pins.
Proof.
  split; [|split].
  - repeat constructor; bits.
  - repeat constructor; bits.
  - repeat constructor; bits.
Qed.

End PinLayer.

(** C2, as stated, fails: after [set_pin_to_input(3)] the level of pin 3 is
    0 although it was 1 before. *)
Lemma set_pin_to_input_forces_low :
  out_bit (io all_high) 3 = true
  /\ out_bit (io (set_pin_to_input 3 all_high)) 3 = false.
Proof. split; reflexivity. Qed.

(** ** The Signal Sampler *)

(** C8, as amended: fed the levels (0,0,1,1,0,1) of any pin, the sampler
    counts 3 toggles and ends with the six samples in the top six bits of
    the captured word, the first at bit 26 and the last at bit 31
    (0b101100 when read from bit 31 down); the low 26 bits are 0. *)
Theorem sampler_six_samples :
  Forall (fun mask =>
            let '(prev, count, acc) :=
              sampler_run
                (bytes_of mask [false; false; true; true; false; true]) in
            prev = mask /\ count = 3 /\ acc = 0xB0000000
            /\ Z.shiftr acc 26 = 44 (* 0b101100 *)
            /\ Z.land acc 0x3FFFFFF = 0)
         pin_masks.
Proof. repeat constructor. Qed.

(** C8, as stated, fails: the low 6 bits of the captured word are 0, not
    0b011010. *)
Lemma sampler_low_six_bits :
  let '(_, count, acc) :=
    sampler_run (bytes_of BIT0 [false; false; true; true; false; true]) in
  count = 3 /\ Z.land acc 0x3F = 0 /\ Z.land acc 0x3F <> 26 (* 0b011010 *).
Proof. cbv. repeat split; discriminate. Qed.
(** ** Loops and logs *)

Lemma for_each_cons {S : Type} (j : Z) (l : list Z) (body : Z -> S -> S)
    (s : S) :
  for_each (j :: l) body s = for_each l body (body j s).
Proof. reflexivity. Qed.

(** A reflexive and transitive relation that every run of the body respects
    is respected by the loop. *)
Lemma for_each_preorder {S : Type} (R : S -> S -> Prop)
    (l : list Z) (body : Z -> S -> S) :
  (forall s, R s s) ->
  (forall a b c, R a b -> R b c -> R a c) ->
  (forall j s, In j l -> R s (body j s)) ->
  forall s, R s (for_each l body s).
Proof.
  intros Hrefl Htrans. induction l as [|j l IH]; intros Hbody s.
  - apply Hrefl.
  - rewrite for_each_cons. apply Htrans with (body j s).
    + apply Hbody. now left.
    + apply IH. intros k t Hk. apply Hbody. now right.
Qed.

(** Two loops over the same counter values whose bodies keep a relation
    keep it. *)
Lemma for_each_related {S T : Type} (R : S -> T -> Prop) (l : list Z)
    (f : Z -> S -> S) (g : Z -> T -> T) :
  (forall j a b, In j l -> R a b -> R (f j a) (g j b)) ->
  forall a b, R a b -> R (for_each l f a) (for_each l g b).
Proof.
  induction l as [|j l IH]; intros Hbody a b Hab.
  - exact Hab.
  - rewrite !for_each_cons. apply IH.
    + intros k x y Hk. apply Hbody. now right.
    + apply Hbody; [now left | exact Hab].
Qed.

Lemma continues_refl (l : list event) : continues l l [].
Proof. reflexivity. Qed.

Lemma continues_trans (l1 l2 l3 : list event) (n1 n2 : list event) :
  continues l1 l2 n1 -> continues l2 l3 n2 -> continues l1 l3 (n1 ++ n2).
Proof.
  unfold continues. intros -> ->. now rewrite rev_app_distr, app_assoc.
Qed.

Lemma continues_one (l : list event) (e : event) : continues l (e :: l) [e].
Proof. reflexivity. Qed.

Lemma continues_inv (l l' : list event) (n1 n2 : list event) :
  continues l l' n1 -> continues l l' n2 -> n1 = n2.
Proof.
  unfold continues. intros -> H. apply app_inv_tail in H.
  rewrite <- (rev_involutive n1), <- (rev_involutive n2). now f_equal.
Qed.

Lemma appends_refl (p : event -> bool) (l : list event) : appends p l l.
Proof. exists []. split; [apply continues_refl | reflexivity]. Qed.

Lemma appends_trans (p : event -> bool) (l1 l2 l3 : list event) :
  appends p l1 l2 -> appends p l2 l3 -> appends p l1 l3.
Proof.
  intros (n1 & H1 & P1) (n2 & H2 & P2). exists (n1 ++ n2). split.
  - eapply continues_trans; eassumption.
  - rewrite forallb_app, P1, P2. reflexivity.
Qed.

Lemma appends_one (p : event -> bool) (l : list event) (e : event) :
  p e = true -> appends p l (e :: l).
Proof.
  intros H. exists [e]. split; [apply continues_one|].
  cbn. now rewrite H.
Qed.

Lemma appends_weaken (p q : event -> bool) (l l' : list event) :
  (forall e, p e = true -> q e = true) -> appends p l l' -> appends q l l'.
Proof.
  intros Hpq (n & H & P). exists n. split; [exact H|].
  rewrite forallb_forall in *. auto.
Qed.

Lemma appends_for_each {S : Type} (p : event -> bool) (lg : S -> list event)
    (l : list Z) (body : Z -> S -> S) :
  (forall j s, In j l -> appends p (lg s) (lg (body j s))) ->
  forall s, appends p (lg s) (lg (for_each l body s)).
Proof.
  intros H.
  apply (for_each_preorder (fun a b => appends p (lg a) (lg b))).
  - intros. apply appends_refl.
  - intros a b c. apply appends_trans.
  - exact H.
Qed.

(** From here on a loop is only opened through the lemmas above. *)
Opaque for_each.

Section Logs.

Context {W : Type} {target : Target W}.

Implicit Types s : machine W.

Lemma history_continues s s' (new : list event) :
  continues (log s) (log s') new -> history s' = history s ++ new.
Proof.
  unfold continues, history. intros ->.
  now rewrite <- !rev_alt, rev_app_distr, rev_involutive.
Qed.

(** *** What each operation of the pin layer logs *)

Lemma log_set_all_pins_to_inputs s :
  log (set_all_pins_to_inputs s) = CfgAllInputs :: log s.
Proof. reflexivity. Qed.

Lemma log_set_pin_to_input pin s :
  log (set_pin_to_input pin s) = CfgInput pin :: log s.
Proof.
  unfold set_pin_to_input. cbv zeta.
  repeat (destruct (_ =? _); [reflexivity|]). reflexivity.
Qed.

Lemma log_set_pin_to_output pin s :
  log (set_pin_to_output pin s) = CfgOutput pin :: log s.
Proof.
  unfold set_pin_to_output. cbv zeta.
  repeat (destruct (_ =? _); [reflexivity|]). reflexivity.
Qed.

Lemma log_set_pin pin s : log (set_pin pin s) = SetPin pin :: log s.
Proof.
  unfold set_pin. cbv zeta.
  repeat (destruct (_ =? _); [reflexivity|]). reflexivity.
Qed.

Lemma log_clr_pin pin s : log (clr_pin pin s) = ClrPin pin :: log s.
Proof.
  unfold clr_pin. cbv zeta.
  repeat (destruct (_ =? _); [reflexivity|]). reflexivity.
Qed.

Lemma log_observe s : log (observe s) = log s.
Proof.
  unfold observe.
  destruct (sampler_step _ _) as [[prev count] acc]. reflexivity.
Qed.

Lemma log_sample pin s :
  log (sample pin s) = ReadPin pin (pin_byte pin (world s)) :: log s.
Proof. unfold sample, read_pin. now rewrite log_observe. Qed.

(** *** Operations that log plain events only *)

Lemma plain_step p (l : list event) (e : event) :
  accepts_plain p -> plain e = true -> appends p l (e :: l).
Proof. intros Hp H. apply appends_one. now apply Hp. Qed.

Lemma plain_same p s s' : log s' = log s -> appends p (log s) (log s').
Proof. intros ->. apply appends_refl. Qed.

Lemma plain_emit p e s :
  accepts_plain p -> plain e = true -> appends p (log s) (log (emit e s)).
Proof. apply plain_step. Qed.

Lemma plain_set_pin p pin s :
  accepts_plain p -> appends p (log s) (log (set_pin pin s)).
Proof. intros Hp. rewrite log_set_pin. now apply plain_step. Qed.

Lemma plain_clr_pin p pin s :
  accepts_plain p -> appends p (log s) (log (clr_pin pin s)).
Proof. intros Hp. rewrite log_clr_pin. now apply plain_step. Qed.

Lemma plain_set_pin_to_output p pin s :
  accepts_plain p -> appends p (log s) (log (set_pin_to_output pin s)).
Proof. intros Hp. rewrite log_set_pin_to_output. now apply plain_step. Qed.

Lemma plain_set_pin_to_input p pin s :
  accepts_plain p -> appends p (log s) (log (set_pin_to_input pin s)).
Proof. intros Hp. rewrite log_set_pin_to_input. now apply plain_step. Qed.

Lemma plain_set_all_pins_to_inputs p s :
  accepts_plain p -> appends p (log s) (log (set_all_pins_to_inputs s)).
Proof.
  intros Hp. rewrite log_set_all_pins_to_inputs. now apply plain_step.
Qed.

Lemma plain_sample p pin s :
  accepts_plain p -> appends p (log s) (log (sample pin s)).
Proof. intros Hp. rewrite log_sample. now apply plain_step. Qed.

Lemma plain_print_dec p n s :
  accepts_plain p -> appends p (log s) (log (print_dec n s)).
Proof. intros Hp. now apply plain_step. Qed.

Lemma plain_print_hex p n s :
  accepts_plain p -> appends p (log s) (log (print_hex n s)).
Proof. intros Hp. now apply plain_step. Qed.

Lemma plain_print p text s :
  accepts_plain p -> existsb (String.eqb text) marks = false ->
  appends p (log s) (log (print text s)).
Proof. intros Hp H. apply plain_step; [exact Hp|]. cbn [plain]. now rewrite H. Qed.

Lemma same_set_byte_val p v s : appends p (log s) (log (set_byte_val v s)).
Proof. apply plain_same. reflexivity. Qed.

Lemma same_set_byte_prev p v s : appends p (log s) (log (set_byte_prev v s)).
Proof. apply plain_same. reflexivity. Qed.

Lemma same_set_toggle_count p v s : appends p (log s) (log (set_toggle_count v s)).
Proof. apply plain_same. reflexivity. Qed.

Lemma same_set_tc p v s : appends p (log s) (log (set_tc v s)).
Proof. apply plain_same. reflexivity. Qed.

Lemma same_set_idval p v s : appends p (log s) (log (set_idval v s)).
Proof. apply plain_same. reflexivity. Qed.

Lemma same_set_cnt1 p v s : appends p (log s) (log (set_cnt1 v s)).
Proof. apply plain_same. reflexivity. Qed.

Lemma same_set_vflag p v s : appends p (log s) (log (set_vflag v s)).
Proof. apply plain_same. reflexivity. Qed.

Create HintDb logs.

Hint Extern 1 (accepts_plain _) => assumption : logs.
Hint Extern 1 (appends _ _ (log (set_pin _ _))) =>
  solve [apply plain_set_pin; auto with logs] : logs.
Hint Extern 1 (appends _ _ (log (clr_pin _ _))) =>
  solve [apply plain_clr_pin; auto with logs] : logs.
Hint Extern 1 (appends _ _ (log (set_pin_to_output _ _))) =>
  solve [apply plain_set_pin_to_output; auto with logs] : logs.
Hint Extern 1 (appends _ _ (log (set_pin_to_input _ _))) =>
  solve [apply plain_set_pin_to_input; auto with logs] : logs.
Hint Extern 1 (appends _ _ (log (set_all_pins_to_inputs _))) =>
  solve [apply plain_set_all_pins_to_inputs; auto with logs] : logs.
Hint Extern 1 (appends _ _ (log (sample _ _))) =>
  solve [apply plain_sample; auto with logs] : logs.
Hint Extern 1 (appends _ _ (log (print_dec _ _))) =>
  solve [apply plain_print_dec; auto with logs] : logs.
Hint Extern 1 (appends _ _ (log (print_hex _ _))) =>
  solve [apply plain_print_hex; auto with logs] : logs.
Hint Extern 1 (appends _ _ (log (print _ _))) =>
  solve [apply plain_print; [auto with logs | reflexivity]] : logs.
Hint Extern 1 (appends _ _ (log (emit _ _))) =>
  solve [apply plain_emit; [auto with logs | reflexivity]] : logs.
Hint Extern 1 (appends _ _ (log (set_byte_val _ _))) =>
  solve [apply same_set_byte_val] : logs.
Hint Extern 1 (appends _ _ (log (set_byte_prev _ _))) =>
  solve [apply same_set_byte_prev] : logs.
Hint Extern 1 (appends _ _ (log (set_toggle_count _ _))) =>
  solve [apply same_set_toggle_count] : logs.
Hint Extern 1 (appends _ _ (log (set_tc _ _))) =>
  solve [apply same_set_tc] : logs.
Hint Extern 1 (appends _ _ (log (set_idval _ _))) =>
  solve [apply same_set_idval] : logs.
Hint Extern 1 (appends _ _ (log (set_cnt1 _ _))) =>
  solve [apply same_set_cnt1] : logs.
Hint Extern 1 (appends _ _ (log (set_vflag _ _))) =>
  solve [apply same_set_vflag] : logs.

(** Follow a chain of operations back to the state it starts from. *)
Ltac chain :=
  lazymatch goal with
  | |- appends _ (log ?s) (log ?s) => apply appends_refl
  | |- appends _ _ (log (snd (_, ?t))) => change (snd (_, t)) with t; chain
  | |- appends _ _ (log (snd (if ?c then _ else _))) => destruct c; chain
  | |- appends ?q (log ?s) (log (snd (?f (_, ?t)))) =>
      apply (appends_trans q (log s) (log t));
      [ chain | solve [auto with logs] ]
  | |- appends _ (log ?s) (log (if ?c then _ else _)) => destruct c; chain
  | |- appends ?q (log ?s) (log (for_each ?l ?body ?t)) =>
      apply (appends_trans q (log s) (log t));
      [ chain
      | apply (appends_for_each q (@log _)); intros; cbv beta; chain ]
  | |- appends ?q (log ?s) (log (?f ?t)) =>
      apply (appends_trans q (log s) (log t));
      [ chain | solve [auto with logs] ]
  end.

Ltac open_body := cbv beta iota zeta delta [read_pin].

Lemma plain_pulse p tck s :
  accepts_plain p -> appends p (log s) (log (pulse tck s)).
Proof. intros Hp. unfold pulse. open_body. chain. Qed.
Hint Extern 1 (appends _ _ (log (pulse _ _))) =>
  solve [apply plain_pulse; auto with logs] : logs.

Lemma plain_print_tck_tms_tdo p tck tms tdo s :
  accepts_plain p -> appends p (log s) (log (print_tck_tms_tdo tck tms tdo s)).
Proof. intros Hp. unfold print_tck_tms_tdo. open_body. chain. Qed.
Hint Extern 1 (appends _ _ (log (print_tck_tms_tdo _ _ _ _))) =>
  solve [apply plain_print_tck_tms_tdo; auto with logs] : logs.

Lemma plain_print_tck_tms_tdo_tdi p tck tms tdo tdi s :
  accepts_plain p -> appends p (log s) (log (print_tck_tms_tdo_tdi tck tms tdo tdi s)).
Proof. intros Hp. unfold print_tck_tms_tdo_tdi. open_body. chain. Qed.
Hint Extern 1 (appends _ _ (log (print_tck_tms_tdo_tdi _ _ _ _ _))) =>
  solve [apply plain_print_tck_tms_tdo_tdi; auto with logs] : logs.

Lemma plain_id_shift_out p tck tms tdo s :
  accepts_plain p -> appends p (log s) (log (id_shift_out tck tms tdo s)).
Proof. intros Hp. unfold id_shift_out. open_body. chain. Qed.
Hint Extern 1 (appends _ _ (log (id_shift_out _ _ _ _))) =>
  solve [apply plain_id_shift_out; auto with logs] : logs.

Lemma plain_id_flush p tck tdi s :
  accepts_plain p -> appends p (log s) (log (id_flush tck tdi s)).
Proof. intros Hp. unfold id_flush. open_body. chain. Qed.
Hint Extern 1 (appends _ _ (log (id_flush _ _ _))) =>
  solve [apply plain_id_flush; auto with logs] : logs.

Lemma plain_id_inject p tck tdo tdi s :
  accepts_plain p -> appends p (log s) (log (id_inject tck tdo tdi s)).
Proof. intros Hp. unfold id_inject. open_body. chain. Qed.
Hint Extern 1 (appends _ _ (log (id_inject _ _ _ _))) =>
  solve [apply plain_id_inject; auto with logs] : logs.

Lemma plain_bypass_reset p tck tms tdi s :
  accepts_plain p -> appends p (log s) (log (bypass_reset tck tms tdi s)).
Proof. intros Hp. unfold bypass_reset. open_body. chain. Qed.
Hint Extern 1 (appends _ _ (log (bypass_reset _ _ _ _))) =>
  solve [apply plain_bypass_reset; auto with logs] : logs.

Lemma plain_bypass_flush p tck s :
  accepts_plain p -> appends p (log s) (log (bypass_flush tck s)).
Proof. intros Hp. unfold bypass_flush. open_body. chain. Qed.
Hint Extern 1 (appends _ _ (log (bypass_flush _ _))) =>
  solve [apply plain_bypass_flush; auto with logs] : logs.

Lemma plain_bypass_measure p tck tms tdo tdi s :
  accepts_plain p -> appends p (log s) (log (bypass_measure tck tms tdo tdi s)).
Proof. intros Hp. unfold bypass_measure. open_body. chain. Qed.
Hint Extern 1 (appends _ _ (log (bypass_measure _ _ _ _ _))) =>
  solve [apply plain_bypass_measure; auto with logs] : logs.

Lemma plain_send_fixed_swd_pattern p swclk swdio val num s :
  accepts_plain p -> appends p (log s) (log (send_fixed_swd_pattern swclk swdio val num s)).
Proof. intros Hp. unfold send_fixed_swd_pattern. open_body. chain. Qed.
Hint Extern 1 (appends _ _ (log (send_fixed_swd_pattern _ _ _ _ _))) =>
  solve [apply plain_send_fixed_swd_pattern; auto with logs] : logs.

Lemma plain_swd_connect p swclk swdio s :
  accepts_plain p -> appends p (log s) (log (swd_connect swclk swdio s)).
Proof. intros Hp. unfold swd_connect. open_body. chain. Qed.
Hint Extern 1 (appends _ _ (log (swd_connect _ _ _))) =>
  solve [apply plain_swd_connect; auto with logs] : logs.

Lemma plain_swd_read p swclk swdio s :
  accepts_plain p -> appends p (log s) (log (swd_read swclk swdio s)).
Proof. intros Hp. unfold swd_read. open_body. chain. Qed.
Hint Extern 1 (appends _ _ (log (swd_read _ _ _))) =>
  solve [apply plain_swd_read; auto with logs] : logs.

(** *** The three finders log plain events, trials and their own mark *)

Lemma appends_emit p e s : p e = true -> appends p (log s) (log (emit e s)).
Proof. apply appends_one. Qed.

Hint Extern 2 (appends _ _ (log (emit _ _))) =>
  solve [apply appends_emit; first [eassumption | reflexivity]] : logs.
Hint Extern 2 (appends _ _ (log (print _ _))) =>
  solve [apply appends_emit; first [eassumption | reflexivity]] : logs.

Lemma appends_id_report p tck tms tdo tdi s :
  accepts_plain p -> p (PrintStr id_mark) = true ->
  appends p (log s) (log (id_report tck tms tdo tdi s)).
Proof. intros Hp Hm. unfold id_report. open_body. chain. Qed.

Lemma appends_bypass_report p tck tms tdo tdi s :
  accepts_plain p -> p (PrintStr bypass_mark) = true ->
  appends p (log s) (log (bypass_report tck tms tdo tdi s)).
Proof. intros Hp Hm. unfold bypass_report. open_body. chain. Qed.

Lemma appends_swd_report p swclk swdio s :
  accepts_plain p -> p (PrintStr swd_mark) = true ->
  appends p (log s) (log (swd_report swclk swdio s)).
Proof. intros Hp Hm. unfold swd_report. open_body. chain. Qed.

Hint Extern 1 (appends _ _ (log (id_report _ _ _ _ _))) =>
  solve [apply appends_id_report; auto with logs] : logs.
Hint Extern 1 (appends _ _ (log (bypass_report _ _ _ _ _))) =>
  solve [apply appends_bypass_report; auto with logs] : logs.
Hint Extern 1 (appends _ _ (log (swd_report _ _ _))) =>
  solve [apply appends_swd_report; auto with logs] : logs.
Hint Extern 1 (_ (PrintStr _) = true) => assumption : logs.

Lemma appends_id_tdi_probe p tck tms tdo tdi s :
  accepts_plain p -> p (Trial [tck; tms; tdo; tdi]) = true ->
  appends p (log s) (log (id_tdi_probe tck tms tdo tdi s)).
Proof. intros Hp Ht. unfold id_tdi_probe. open_body. chain. Qed.

Lemma appends_id_tdi_trial p tck tms tdo tdi r s :
  accepts_plain p -> p (PrintStr id_mark) = true ->
  p (Trial [tck; tms; tdo; tdi]) = true ->
  appends p (log s) (log (snd (id_tdi_trial tck tms tdo tdi (r, s)))).
Proof.
  intros Hp Hm Ht. unfold id_tdi_trial. cbv zeta.
  destruct (_ && _); cbn [snd].
  - apply appends_trans with (log (id_tdi_probe tck tms tdo tdi s));
      [now apply appends_id_tdi_probe | now apply appends_id_report].
  - now apply appends_id_tdi_probe.
Qed.

Lemma appends_id_tdi_search p tck tms tdo r s :
  accepts_plain p -> p (PrintStr id_mark) = true ->
  (forall tdi, In tdi (upto (Z.to_nat PINS)) ->
     (tdi =? tck) || (tdi =? tms) || (tdi =? tdo) || (tdi =? 1) || (tdi =? 2)
     = false ->
     p (Trial [tck; tms; tdo; tdi]) = true) ->
  appends p (log s) (log (snd (id_tdi_search tck tms tdo (r, s)))).
Proof.
  intros Hp Hm Ht. unfold id_tdi_search.
  apply (appends_for_each p (fun rs => log (snd rs)) _ _) with (s := (r, s)).
  intros tdi [r' s'] Hin.
  destruct ((tdi =? tck) || (tdi =? tms) || (tdi =? tdo)
            || (tdi =? 1) || (tdi =? 2)) eqn:E; [apply appends_refl|].
  apply appends_id_tdi_trial; auto.
Qed.

Lemma appends_id_prepare p tck tms tdo s :
  accepts_plain p -> p (Trial [tck; tms; tdo]) = true ->
  appends p (log s) (log (id_prepare tck tms tdo s)).
Proof. intros Hp Ht. unfold id_prepare. open_body. chain. Qed.

Lemma appends_id_capture p tck tms tdo s :
  accepts_plain p -> p (Trial [tck; tms; tdo]) = true ->
  appends p (log s) (log (id_capture tck tms tdo s)).
Proof.
  intros Hp Ht. unfold id_capture.
  apply appends_trans with (log (id_prepare tck tms tdo s));
    [now apply appends_id_prepare | now apply plain_id_shift_out].
Qed.

Lemma appends_id_trial p tck tms tdo r s :
  accepts_plain p -> p (PrintStr id_mark) = true ->
  p (Trial [tck; tms; tdo]) = true ->
  (forall tdi, In tdi (upto (Z.to_nat PINS)) ->
     (tdi =? tck) || (tdi =? tms) || (tdi =? tdo) || (tdi =? 1) || (tdi =? 2)
     = false ->
     p (Trial [tck; tms; tdo; tdi]) = true) ->
  appends p (log s) (log (snd (id_trial tck tms tdo (r, s)))).
Proof.
  intros Hp Hm Ht3 Ht4. unfold id_trial. cbv zeta.
  destruct (7 <? _).
  - apply appends_trans with (log (id_capture tck tms tdo s)).
    + now apply appends_id_capture.
    + now apply appends_id_tdi_search.
  - now apply appends_id_capture.
Qed.

Lemma appends_bypass_probe p tck tms tdo tdi s :
  accepts_plain p -> p (Trial [tck; tms; tdo; tdi]) = true ->
  appends p (log s) (log (bypass_probe tck tms tdo tdi s)).
Proof. intros Hp Ht. unfold bypass_probe. open_body. chain. Qed.

Lemma appends_bypass_trial_with p ones tck tms tdo tdi r s :
  accepts_plain p -> p (PrintStr bypass_mark) = true ->
  p (Trial [tck; tms; tdo; tdi]) = true ->
  appends p (log s)
    (log (snd (bypass_trial_with ones tck tms tdo tdi (r, s)))).
Proof.
  intros Hp Hm Ht. unfold bypass_trial_with, bypass_verdict. cbv zeta.
  destruct (_ && _); cbn [snd].
  - apply appends_trans with (log (bypass_probe tck tms tdo tdi s));
      [now apply appends_bypass_probe|].
    apply appends_trans with
      (log (set_cnt1 (ones (idval (bypass_probe tck tms tdo tdi s)))
              (bypass_probe tck tms tdo tdi s))).
    + apply same_set_cnt1.
    + now apply appends_bypass_report.
  - apply appends_trans with (log (bypass_probe tck tms tdo tdi s));
      [now apply appends_bypass_probe | apply same_set_cnt1].
Qed.

Lemma appends_swd_probe p swclk swdio s :
  accepts_plain p -> p (Trial [swclk; swdio]) = true ->
  appends p (log s) (log (swd_probe swclk swdio s)).
Proof. intros Hp Ht. unfold swd_probe. open_body. chain. Qed.

Lemma appends_swd_trial p swclk swdio r s :
  accepts_plain p -> p (PrintStr swd_mark) = true ->
  p (Trial [swclk; swdio]) = true ->
  appends p (log s) (log (snd (swd_trial swclk swdio (r, s)))).
Proof.
  intros Hp Hm Ht. unfold swd_trial. cbv zeta.
  destruct (7 <? _); cbn [snd].
  - apply appends_trans with (log (swd_probe swclk swdio s));
      [now apply appends_swd_probe|].
    now apply appends_swd_report.
  - now apply appends_swd_probe.
Qed.

(** What follows the [Trial] marker of a permutation is plain. *)
Lemma rest_id_tdi_probe p tck tms tdo tdi s :
  accepts_plain p ->
  appends p (log (emit (Trial [tck; tms; tdo; tdi]) s))
    (log (id_tdi_probe tck tms tdo tdi s)).
Proof. intros Hp. unfold id_tdi_probe. open_body. chain. Qed.

Lemma rest_id_prepare p tck tms tdo s :
  accepts_plain p ->
  appends p (log (emit (Trial [tck; tms; tdo]) s))
    (log (id_prepare tck tms tdo s)).
Proof. intros Hp. unfold id_prepare. open_body. chain. Qed.

Lemma rest_bypass_probe p tck tms tdo tdi s :
  accepts_plain p ->
  appends p (log (emit (Trial [tck; tms; tdo; tdi]) s))
    (log (bypass_probe tck tms tdo tdi s)).
Proof. intros Hp. unfold bypass_probe. open_body. chain. Qed.

Lemma rest_swd_probe p swclk swdio s :
  accepts_plain p ->
  appends p (log (emit (Trial [swclk; swdio]) s))
    (log (swd_probe swclk swdio s)).
Proof. intros Hp. unfold swd_probe. open_body. chain. Qed.

End Logs.

(** *** The role assignments that pass the [continue] tests *)

Lemma passes3_valid tck tms tdo :
  In tck (upto 16) -> In tms (upto 16) -> In tdo (upto 16) ->
  passes3 tck tms tdo = true -> valid_roles [tck; tms; tdo] = true.
Proof.
  intros H1 H2 H3.
  assert (C : forallb (fun a => forallb (fun b => forallb (fun c =>
            implb (passes3 a b c) (valid_roles [a; b; c]))
            (upto 16)) (upto 16)) (upto 16) = true) by (vm_compute; reflexivity).
  rewrite forallb_forall in C. specialize (C _ H1).
  rewrite forallb_forall in C. specialize (C _ H2).
  rewrite forallb_forall in C. specialize (C _ H3).
  intros Hp. now rewrite Hp in C.
Qed.

Lemma passes4_valid tck tms tdo tdi :
  In tck (upto 16) -> In tms (upto 16) -> In tdo (upto 16) ->
  In tdi (upto 16) ->
  passes4 tck tms tdo tdi = true -> valid_roles [tck; tms; tdo; tdi] = true.
Proof.
  intros H1 H2 H3 H4.
  assert (C : forallb (fun a => forallb (fun b => forallb (fun c =>
            forallb (fun d =>
              implb (passes4 a b c d) (valid_roles [a; b; c; d]))
            (upto 16)) (upto 16)) (upto 16)) (upto 16) = true)
    by (vm_compute; reflexivity).
  rewrite forallb_forall in C. specialize (C _ H1).
  rewrite forallb_forall in C. specialize (C _ H2).
  rewrite forallb_forall in C. specialize (C _ H3).
  rewrite forallb_forall in C. specialize (C _ H4).
  intros Hp. now rewrite Hp in C.
Qed.

Lemma passes2_valid swclk swdio :
  In swclk (upto 16) -> In swdio (upto 16) ->
  passes2 swclk swdio = true -> valid_roles [swclk; swdio] = true.
Proof.
  intros H1 H2.
  assert (C : forallb (fun a => forallb (fun b =>
            implb (passes2 a b) (valid_roles [a; b]))
            (upto 16)) (upto 16) = true) by (vm_compute; reflexivity).
  rewrite forallb_forall in C. specialize (C _ H1).
  rewrite forallb_forall in C. specialize (C _ H2).
  intros Hp. now rewrite Hp in C.
Qed.

Section Finders.

Context {W : Type} {target : Target W}.

Implicit Types s : machine W.

Lemma appends_jtag_finder_id_method p s :
  accepts_plain p -> p (PrintStr id_mark) = true ->
  (forall roles, valid_roles roles = true -> p (Trial roles) = true) ->
  appends p (log s) (log (snd (jtag_finder_id_method s))).
Proof.
  intros Hp Hm Hv. unfold jtag_finder_id_method.
  apply (appends_for_each p (fun rs => log (snd rs)) _ _) with (s := (0, s)).
  intros tck rs1 H1. apply (appends_for_each p (fun rs => log (snd rs))).
  intros tms rs2 H2. destruct (tck =? tms) eqn:E1; [apply appends_refl|].
  apply (appends_for_each p (fun rs => log (snd rs))).
  intros tdo [r s3] H3.
  destruct ((tck =? tdo) || (tms =? tdo)) eqn:E2; [apply appends_refl|].
  destruct ((tck =? 1) || (tms =? 1) || (tdo =? 1)) eqn:E3;
    [apply appends_refl|].
  destruct ((tck =? 2) || (tms =? 2) || (tdo =? 2)) eqn:E4;
    [apply appends_refl|].
  assert (P3 : passes3 tck tms tdo = true)
    by (unfold passes3; rewrite E1, E2, E3, E4; reflexivity).
  apply appends_id_trial; auto.
  - apply Hv, passes3_valid; assumption.
  - intros tdi H4 E5. apply Hv, passes4_valid; try assumption.
    unfold passes4. rewrite P3, E5. reflexivity.
Qed.

Lemma appends_jtag_finder_bypass_method_with p ones s :
  accepts_plain p -> p (PrintStr bypass_mark) = true ->
  (forall roles, valid_roles roles = true -> p (Trial roles) = true) ->
  appends p (log s) (log (snd (jtag_finder_bypass_method_with ones s))).
Proof.
  intros Hp Hm Hv. unfold jtag_finder_bypass_method_with.
  apply (appends_for_each p (fun rs => log (snd rs)) _ _) with (s := (0, s)).
  intros tck rs1 H1. apply (appends_for_each p (fun rs => log (snd rs))).
  intros tms rs2 H2. destruct (tck =? tms) eqn:E1; [apply appends_refl|].
  apply (appends_for_each p (fun rs => log (snd rs))).
  intros tdo rs3 H3.
  destruct ((tck =? tdo) || (tms =? tdo)) eqn:E2; [apply appends_refl|].
  destruct ((tck =? 1) || (tms =? 1) || (tdo =? 1)) eqn:E3;
    [apply appends_refl|].
  destruct ((tck =? 2) || (tms =? 2) || (tdo =? 2)) eqn:E4;
    [apply appends_refl|].
  apply (appends_for_each p (fun rs => log (snd rs))).
  intros tdi [r s4] H4.
  destruct ((tdi =? tck) || (tdi =? tms) || (tdi =? tdo)
            || (tdi =? 1) || (tdi =? 2)) eqn:E5; [apply appends_refl|].
  apply appends_bypass_trial_with; auto.
  apply Hv, passes4_valid; try assumption.
  unfold passes4, passes3. rewrite E1, E2, E3, E4, E5. reflexivity.
Qed.

Lemma appends_swd_finder p s :
  accepts_plain p -> p (PrintStr swd_mark) = true ->
  (forall roles, valid_roles roles = true -> p (Trial roles) = true) ->
  appends p (log s) (log (snd (swd_finder s))).
Proof.
  intros Hp Hm Hv. unfold swd_finder.
  apply (appends_for_each p (fun rs => log (snd rs)) _ _) with (s := (0, s)).
  intros swclk rs1 H1. apply (appends_for_each p (fun rs => log (snd rs))).
  intros swdio [r s2] H2.
  destruct ((swclk =? swdio) || (swclk =? 1) || (swdio =? 1)
            || (swclk =? 2) || (swdio =? 2)) eqn:E; [apply appends_refl|].
  apply appends_swd_trial; auto.
  apply Hv, passes2_valid; try assumption.
  unfold passes2. rewrite E. reflexivity.
Qed.

Lemma accepts_plain_roles_ok : accepts_plain roles_ok.
Proof. intros [ | | | | | | | | | ]; cbn; congruence. Qed.

Lemma roles_ok_trials (evs : list event) :
  forallb roles_ok evs = true ->
  Forall (fun roles => valid_roles roles = true) (trials_of evs).
Proof.
  induction evs as [|e evs IH]; cbn [forallb trials_of]; [constructor|].
  intros H. apply andb_true_iff in H as [He Hevs].
  destruct e; auto.
Qed.

Lemma valid_trials s s' :
  appends roles_ok (log s) (log s') ->
  exists new,
    history s' = history s ++ new
    /\ Forall (fun roles => valid_roles roles = true) (trials_of new).
Proof.
  intros (new & Hc & Hp). exists new. split.
  - now apply history_continues.
  - now apply roles_ok_trials.
Qed.

(** C3: whatever the target and the verbose flag, every role assignment
    that a finder puts to the test has pairwise distinct pins, none of
    which is one of the two reserved uart pins. *)
Theorem tested_roles_are_valid s :
  (exists new,
     history (snd (jtag_finder_id_method s)) = history s ++ new
     /\ Forall (fun roles => valid_roles roles = true) (trials_of new))
  /\ (exists new,
        history (snd (jtag_finder_bypass_method s)) = history s ++ new
        /\ Forall (fun roles => valid_roles roles = true) (trials_of new))
  /\ (exists new,
        history (snd (swd_finder s)) = history s ++ new
        /\ Forall (fun roles => valid_roles roles = true) (trials_of new)).
Proof.
  split; [|split]; apply valid_trials.
  - apply appends_jtag_finder_id_method;
      auto using accepts_plain_roles_ok.
  - apply appends_jtag_finder_bypass_method_with;
      auto using accepts_plain_roles_ok.
  - apply appends_swd_finder; auto using accepts_plain_roles_ok.
Qed.

(** *** Return values and acceptance reports *)

Lemma printed_app m (a b : list event) :
  printed m (a ++ b) = printed m a || printed m b.
Proof. apply existsb_app. Qed.

Lemma no_print_printed m (new : list event) :
  forallb (no_print m) new = true -> printed m new = false.
Proof.
  induction new as [|e new IH]; cbn; [reflexivity|].
  intros H. apply andb_true_iff in H as [He Hn].
  unfold no_print in He. apply negb_true_iff in He. rewrite He. now apply IH.
Qed.

Lemma accepts_plain_no_print m : In m marks -> accepts_plain (no_print m).
Proof.
  intros Hin e He. destruct e; try reflexivity.
  unfold no_print. cbn in *. apply negb_true_iff in He.
  apply negb_true_iff. destruct (String.eqb_spec text m) as [->|]; [|reflexivity].
  assert (Hex : existsb (String.eqb m) marks = true).
  { apply existsb_exists. exists m. split; [exact Hin | apply String.eqb_refl]. }
  cbn in Hex. congruence.
Qed.

Lemma flags_refl m r (l : list event) : flags m r l r l.
Proof. exists []. split; [apply continues_refl | reflexivity]. Qed.

Lemma flags_trans m r1 l1 r2 l2 r3 l3 :
  flags m r1 l1 r2 l2 -> flags m r2 l2 r3 l3 -> flags m r1 l1 r3 l3.
Proof.
  intros (n1 & H1 & R1) (n2 & H2 & R2). exists (n1 ++ n2). split.
  - eapply continues_trans; eassumption.
  - rewrite printed_app, R2, R1.
    destruct (printed m n1), (printed m n2); reflexivity.
Qed.

Lemma flags_quiet m r (l l' : list event) :
  appends (no_print m) l l' -> flags m r l r l'.
Proof.
  intros (new & Hc & Hq). exists new. split; [exact Hc|].
  now rewrite no_print_printed.
Qed.

Lemma flags_for_each m (l : list Z)
    (body : Z -> Z * machine W -> Z * machine W) :
  (forall j r s, In j l ->
     flags m r (log s) (fst (body j (r, s))) (log (snd (body j (r, s))))) ->
  forall r s,
    flags m r (log s)
      (fst (for_each l body (r, s))) (log (snd (for_each l body (r, s)))).
Proof.
  intros H r s.
  apply (for_each_preorder
           (fun a b => flags m (fst a) (log (snd a)) (fst b) (log (snd b)))
           l body) with (s := (r, s)).
  - intros. apply flags_refl.
  - intros a b c. apply flags_trans.
  - intros j [r' s'] Hin. now apply H.
Qed.

(** A report prints its mark. *)
Lemma id_report_printed tck tms tdo tdi s :
  exists new,
    continues (log s) (log (id_report tck tms tdo tdi s)) new
    /\ printed id_mark new = true.
Proof.
  destruct (plain_print_tck_tms_tdo_tdi plain tck tms tdo tdi s
              (fun e H => H)) as (n1 & H1 & _).
  exists (n1 ++ [PrintStr id_mark; PrintHex (idval (print id_mark
            (print_tck_tms_tdo_tdi tck tms tdo tdi s))); PrintStr "\r\n"]).
  split.
  - eapply continues_trans; [exact H1|]. reflexivity.
  - rewrite printed_app. cbn. apply orb_true_r.
Qed.

Lemma bypass_report_printed tck tms tdo tdi s :
  exists new,
    continues (log s) (log (bypass_report tck tms tdo tdi s)) new
    /\ printed bypass_mark new = true.
Proof.
  destruct (plain_print_tck_tms_tdo_tdi plain tck tms tdo tdi s
              (fun e H => H)) as (n1 & H1 & _).
  exists (n1 ++ [PrintStr bypass_mark; PrintHex (idval (print bypass_mark
            (print_tck_tms_tdo_tdi tck tms tdo tdi s))); PrintStr "\r\n";
            SetPin tms]).
  split.
  - eapply continues_trans; [exact H1|]. unfold bypass_report. cbv zeta.
    rewrite log_set_pin. reflexivity.
  - rewrite printed_app. cbn. apply orb_true_r.
Qed.

Lemma swd_report_printed swclk swdio s :
  exists new,
    continues (log s) (log (swd_report swclk swdio s)) new
    /\ printed swd_mark new = true.
Proof.
  exists [PrintStr "  "; PrintStr "  swclk="; PrintDec swclk;
          PrintStr "  swdio="; PrintDec swdio; PrintStr swd_mark;
          PrintHex (idval s); PrintStr "\r\n"].
  split; reflexivity.
Qed.

(** The verdict of a trial: the events of the probe carry no mark, the
    report carries one. *)
Lemma verdict_printed m (accepted : bool) (l l1 l2 : list event) :
  appends (no_print m) l l1 ->
  (exists n, continues l1 l2 n /\ printed m n = true) ->
  exists new,
    continues l (if accepted then l2 else l1) new
    /\ printed m new = accepted.
Proof.
  intros (n1 & H1 & Q1) (n2 & H2 & P2). destruct accepted.
  - exists (n1 ++ n2). split; [eapply continues_trans; eassumption|].
    rewrite printed_app, P2. apply orb_true_r.
  - exists n1. split; [exact H1 | now apply no_print_printed].
Qed.

Lemma id_mark_in_marks : In id_mark marks.
Proof. cbn. auto. Qed.
Lemma bypass_mark_in_marks : In bypass_mark marks.
Proof. cbn. auto. Qed.
Lemma swd_mark_in_marks : In swd_mark marks.
Proof. cbn. auto 6. Qed.

Lemma id_tdi_trial_verdict tck tms tdo tdi r s :
  let s1 := id_tdi_probe tck tms tdo tdi s in
  let accepted := (29 <? tc s1) && (tc s1 <? 35) in
  exists new,
    continues (log s) (log (snd (id_tdi_trial tck tms tdo tdi (r, s)))) new
    /\ printed id_mark new = accepted
    /\ fst (id_tdi_trial tck tms tdo tdi (r, s)) = (if accepted then 1 else r).
Proof.
  intros s1 accepted.
  destruct (verdict_printed id_mark accepted (log s) (log s1)
              (log (id_report tck tms tdo tdi s1))) as (new & Hc & Hp).
  - apply appends_id_tdi_probe;
      [apply accepts_plain_no_print, id_mark_in_marks | reflexivity].
  - apply id_report_printed.
  - exists new. unfold id_tdi_trial. cbv zeta. fold s1. fold accepted.
    destruct accepted; cbn [fst snd]; auto.
Qed.

Lemma bypass_verdict_printed tck tms tdo tdi r s :
  exists new,
    continues (log s) (log (snd (bypass_verdict tck tms tdo tdi (r, s)))) new
    /\ printed bypass_mark new
       = (13 <? toggle_count s) && (toggle_count s <? 19)
    /\ fst (bypass_verdict tck tms tdo tdi (r, s))
       = (if (13 <? toggle_count s) && (toggle_count s <? 19) then 1 else r).
Proof.
  unfold bypass_verdict.
  destruct ((13 <? toggle_count s) && (toggle_count s <? 19)); cbn [fst snd].
  - destruct (bypass_report_printed tck tms tdo tdi s) as (n & Hc & Hp).
    exists n. auto.
  - exists []. split; [apply continues_refl | split; reflexivity].
Qed.

Lemma toggle_count_set_cnt1 v s :
  toggle_count (set_cnt1 v s) = toggle_count s.
Proof. reflexivity. Qed.

Lemma bypass_trial_verdict ones tck tms tdo tdi r s :
  let s1 := bypass_probe tck tms tdo tdi s in
  let accepted := (13 <? toggle_count s1) && (toggle_count s1 <? 19) in
  exists new,
    continues (log s)
      (log (snd (bypass_trial_with ones tck tms tdo tdi (r, s)))) new
    /\ printed bypass_mark new = accepted
    /\ fst (bypass_trial_with ones tck tms tdo tdi (r, s))
       = (if accepted then 1 else r).
Proof.
  cbv zeta. unfold bypass_trial_with.
  generalize (bypass_probe tck tms tdo tdi s),
    (appends_bypass_probe (no_print bypass_mark) tck tms tdo tdi s
       (accepts_plain_no_print _ bypass_mark_in_marks) eq_refl).
  intros s1 (n1 & H1 & Q1).
  destruct (bypass_verdict_printed tck tms tdo tdi r
              (set_cnt1 (ones (idval s1)) s1)) as (n2 & H2 & P2 & R2).
  rewrite toggle_count_set_cnt1 in P2, R2.
  exists (n1 ++ n2). split; [|split].
  - eapply continues_trans; [exact H1 | exact H2].
  - rewrite printed_app, P2, (no_print_printed _ _ Q1). reflexivity.
  - exact R2.
Qed.

Lemma swd_trial_verdict swclk swdio r s :
  let s1 := swd_probe swclk swdio s in
  let accepted := 7 <? toggle_count s1 in
  exists new,
    continues (log s) (log (snd (swd_trial swclk swdio (r, s)))) new
    /\ printed swd_mark new = accepted
    /\ fst (swd_trial swclk swdio (r, s)) = (if accepted then 1 else r).
Proof.
  intros s1 accepted.
  destruct (verdict_printed swd_mark accepted (log s) (log s1)
              (log (swd_report swclk swdio s1))) as (new & Hc & Hp).
  - apply appends_swd_probe;
      [apply accepts_plain_no_print, swd_mark_in_marks | reflexivity].
  - apply swd_report_printed.
  - exists new. unfold swd_trial. cbv zeta. fold s1. fold accepted.
    destruct accepted; cbn [fst snd]; auto.
Qed.

Lemma flags_of_verdict m (accepted : bool) r r' (l l' : list event) :
  (exists new, continues l l' new /\ printed m new = accepted
               /\ r' = (if accepted then 1 else r)) ->
  flags m r l r' l'.
Proof.
  intros (new & Hc & Hp & Hr). exists new. split; [exact Hc|].
  now rewrite Hp.
Qed.

Lemma flags_skip m r s :
  flags m r (log s) (fst (r, s)) (log (snd (r, s))).
Proof. apply flags_refl. Qed.

Ltac skip_or_go c := destruct c; [apply flags_skip|].

Lemma flags_id_tdi_search tck tms tdo r s :
  flags id_mark r (log s)
    (fst (id_tdi_search tck tms tdo (r, s)))
    (log (snd (id_tdi_search tck tms tdo (r, s)))).
Proof.
  unfold id_tdi_search. apply flags_for_each. intros tdi r' s' Hin.
  skip_or_go ((tdi =? tck) || (tdi =? tms) || (tdi =? tdo)
              || (tdi =? 1) || (tdi =? 2)).
  eapply flags_of_verdict. apply id_tdi_trial_verdict.
Qed.

Lemma flags_id_trial tck tms tdo r s :
  flags id_mark r (log s)
    (fst (id_trial tck tms tdo (r, s)))
    (log (snd (id_trial tck tms tdo (r, s)))).
Proof.
  assert (Hq : flags id_mark r (log s) r (log (id_capture tck tms tdo s))).
  { apply flags_quiet. apply appends_id_capture;
      [apply accepts_plain_no_print, id_mark_in_marks | reflexivity]. }
  unfold id_trial. cbv zeta. destruct (7 <? _).
  - apply flags_trans with r (log (id_capture tck tms tdo s)); [exact Hq|].
    apply flags_id_tdi_search.
  - apply flags_trans with r (log (id_capture tck tms tdo s)); [exact Hq|].
    apply flags_skip.
Qed.

Lemma flags_jtag_finder_id_method s :
  flags id_mark 0 (log s)
    (fst (jtag_finder_id_method s)) (log (snd (jtag_finder_id_method s))).
Proof.
  unfold jtag_finder_id_method.
  apply flags_for_each. intros tck r1 s1 H1.
  apply flags_for_each. intros tms r2 s2 H2.
  skip_or_go (tck =? tms).
  apply flags_for_each. intros tdo r3 s3 H3.
  skip_or_go ((tck =? tdo) || (tms =? tdo)).
  skip_or_go ((tck =? 1) || (tms =? 1) || (tdo =? 1)).
  skip_or_go ((tck =? 2) || (tms =? 2) || (tdo =? 2)).
  apply flags_id_trial.
Qed.

Lemma flags_jtag_finder_bypass_method_with ones s :
  flags bypass_mark 0 (log s)
    (fst (jtag_finder_bypass_method_with ones s))
    (log (snd (jtag_finder_bypass_method_with ones s))).
Proof.
  unfold jtag_finder_bypass_method_with.
  apply flags_for_each. intros tck r1 s1 H1.
  apply flags_for_each. intros tms r2 s2 H2.
  skip_or_go (tck =? tms).
  apply flags_for_each. intros tdo r3 s3 H3.
  skip_or_go ((tck =? tdo) || (tms =? tdo)).
  skip_or_go ((tck =? 1) || (tms =? 1) || (tdo =? 1)).
  skip_or_go ((tck =? 2) || (tms =? 2) || (tdo =? 2)).
  apply flags_for_each. intros tdi r4 s4 H4.
  skip_or_go ((tdi =? tck) || (tdi =? tms) || (tdi =? tdo)
              || (tdi =? 1) || (tdi =? 2)).
  eapply flags_of_verdict. apply bypass_trial_verdict.
Qed.

Lemma flags_swd_finder s :
  flags swd_mark 0 (log s) (fst (swd_finder s)) (log (snd (swd_finder s))).
Proof.
  unfold swd_finder.
  apply flags_for_each. intros swclk r1 s1 H1.
  apply flags_for_each. intros swdio r2 s2 H2.
  skip_or_go ((swclk =? swdio) || (swclk =? 1) || (swdio =? 1)
              || (swclk =? 2) || (swdio =? 2)).
  eapply flags_of_verdict. apply swd_trial_verdict.
Qed.

(** *** The stages of [setup] *)

Lemma log_print text s : log (print text s) = PrintStr text :: log s.
Proof. reflexivity. Qed.

Lemma reports_from_log m s s' (new : list event) :
  continues (log s) (log s') new -> reports m s s' (printed m new).
Proof.
  intros H. exists new. split; [now apply history_continues | reflexivity].
Qed.

Lemma neither_printed m nf (new : list event) :
  forallb (neither m nf) new = true ->
  printed m new = false /\ printed nf new = false.
Proof.
  intros H. split; apply no_print_printed;
    rewrite forallb_forall in *; intros e He; specialize (H e He);
    apply andb_true_iff in H; tauto.
Qed.

Lemma accepts_plain_neither m nf :
  In m marks -> In nf marks -> accepts_plain (neither m nf).
Proof.
  intros Hm Hnf e He. unfold neither.
  rewrite (accepts_plain_no_print m Hm e He).
  now rewrite (accepts_plain_no_print nf Hnf e He).
Qed.

(** What a stage logs, for a finder that returns [r] after logging [nF]. *)
Lemma stage_events m nf (start fin : string) (r : Z) (nF : list event) :
  r = (if printed m nF then 1 else 0) ->
  printed nf nF = false ->
  String.eqb start m = false -> String.eqb start nf = false ->
  String.eqb fin m = false -> String.eqb fin nf = false ->
  String.eqb nf m = false ->
  let n := [PrintStr start] ++ nF
           ++ (if r =? 0 then [PrintStr nf] else []) ++ [PrintStr fin] in
  printed m n = printed m nF /\ printed nf n = negb (printed m nF).
Proof.
  intros Hr HnF E1 E2 E3 E4 E5 n. subst n.
  rewrite !printed_app, HnF. subst r.
  destruct (printed m nF); cbn;
    rewrite ?E1, ?E2, ?E3, ?E4, ?E5, ?String.eqb_refl; split; reflexivity.
Qed.

Lemma stage_log (start nf fin : string) s (rs : Z * machine W)
    (nF : list event) :
  continues (log (print start s)) (log (snd rs)) nF ->
  continues (log s)
    (log (print fin (if fst rs =? 0 then print nf (snd rs) else snd rs)))
    ([PrintStr start] ++ nF
     ++ (if fst rs =? 0 then [PrintStr nf] else []) ++ [PrintStr fin]).
Proof.
  intros H. rewrite log_print in *.
  eapply continues_trans; [apply continues_one|].
  eapply continues_trans; [exact H|].
  destruct (fst rs =? 0); rewrite ?log_print; reflexivity.
Qed.

Lemma id_stage_events s :
  exists n,
    continues (log s) (log (id_stage s)) n
    /\ printed id_not_found n = negb (printed id_mark n).
Proof.
  unfold id_stage. cbv zeta.
  generalize
    (flags_jtag_finder_id_method
       (print "  Start of JTAG Finder using JTAG ID method.\r\n" s)),
    (appends_jtag_finder_id_method (no_print id_not_found)
       (print "  Start of JTAG Finder using JTAG ID method.\r\n" s)
       (accepts_plain_no_print id_not_found ltac:(cbn; tauto)) eq_refl
       (fun _ _ => eq_refl)).
  generalize (jtag_finder_id_method
       (print "  Start of JTAG Finder using JTAG ID method.\r\n" s)).
  intros rs (nF & Hc & Hr) (nF' & Hc' & Hq).
  rewrite (continues_inv _ _ _ _ Hc' Hc) in Hq.
  eexists. split; [apply stage_log; exact Hc|].
  destruct (stage_events id_mark id_not_found
              "  Start of JTAG Finder using JTAG ID method.\r\n"
              "  End of JTAG Finder using JTAG ID method.\r\n\n"
              (fst rs) nF Hr (no_print_printed _ _ Hq)
              eq_refl eq_refl eq_refl eq_refl eq_refl) as [E1 E2].
  etransitivity; [exact E2 | f_equal; symmetry; exact E1].
Qed.

Lemma bypass_stage_events s :
  exists n,
    continues (log s) (log (bypass_stage s)) n
    /\ printed bypass_not_found n = negb (printed bypass_mark n).
Proof.
  unfold bypass_stage, jtag_finder_bypass_method. cbv zeta.
  generalize
    (flags_jtag_finder_bypass_method_with count_ones
       (print "  Start of JTAG Finder using Bypass method.\r\n" s)),
    (appends_jtag_finder_bypass_method_with (no_print bypass_not_found)
       count_ones
       (print "  Start of JTAG Finder using Bypass method.\r\n" s)
       (accepts_plain_no_print bypass_not_found ltac:(cbn; tauto)) eq_refl
       (fun _ _ => eq_refl)).
  generalize (jtag_finder_bypass_method_with count_ones
       (print "  Start of JTAG Finder using Bypass method.\r\n" s)).
  intros rs (nF & Hc & Hr) (nF' & Hc' & Hq).
  rewrite (continues_inv _ _ _ _ Hc' Hc) in Hq.
  eexists. split; [apply stage_log; exact Hc|].
  destruct (stage_events bypass_mark bypass_not_found
              "  Start of JTAG Finder using Bypass method.\r\n"
              "  End of JTAG Finder using Bypass method.\r\n\n"
              (fst rs) nF Hr (no_print_printed _ _ Hq)
              eq_refl eq_refl eq_refl eq_refl eq_refl) as [E1 E2].
  etransitivity; [exact E2 | f_equal; symmetry; exact E1].
Qed.

Lemma swd_stage_events s :
  exists n,
    continues (log s) (log (swd_stage s)) n
    /\ printed swd_not_found n = negb (printed swd_mark n).
Proof.
  unfold swd_stage. cbv zeta.
  generalize
    (flags_swd_finder (print "  Start of SWD Finder.\r\n" s)),
    (appends_swd_finder (no_print swd_not_found)
       (print "  Start of SWD Finder.\r\n" s)
       (accepts_plain_no_print swd_not_found ltac:(cbn; tauto)) eq_refl
       (fun _ _ => eq_refl)).
  generalize (swd_finder (print "  Start of SWD Finder.\r\n" s)).
  intros rs (nF & Hc & Hr) (nF' & Hc' & Hq).
  rewrite (continues_inv _ _ _ _ Hc' Hc) in Hq.
  eexists. split; [apply stage_log; exact Hc|].
  destruct (stage_events swd_mark swd_not_found
              "  Start of SWD Finder.\r\n"
              "  End of SWD Finder.\r\n\n"
              (fst rs) nF Hr (no_print_printed _ _ Hq)
              eq_refl eq_refl eq_refl eq_refl eq_refl) as [E1 E2].
  etransitivity; [exact E2 | f_equal; symmetry; exact E1].
Qed.

Lemma appends_stage p (start nf fin : string) s (rs : Z * machine W) :
  accepts_plain p ->
  existsb (String.eqb start) marks = false ->
  existsb (String.eqb fin) marks = false ->
  p (PrintStr nf) = true ->
  appends p (log (print start s)) (log (snd rs)) ->
  appends p (log s)
    (log (print fin (if fst rs =? 0 then print nf (snd rs) else snd rs))).
Proof.
  intros Hp Hs Hf Hnf H.
  apply appends_trans with (log (print start s)); [now apply plain_print|].
  apply appends_trans with (log (snd rs)); [exact H|].
  destruct (fst rs =? 0).
  - apply appends_trans with (log (print nf (snd rs)));
      [now apply appends_emit | now apply plain_print].
  - now apply plain_print.
Qed.

Lemma appends_id_stage p s :
  accepts_plain p -> p (PrintStr id_mark) = true ->
  p (PrintStr id_not_found) = true ->
  (forall roles, valid_roles roles = true -> p (Trial roles) = true) ->
  appends p (log s) (log (id_stage s)).
Proof.
  intros Hp Hm Hnf Hv. unfold id_stage. cbv zeta.
  apply (appends_stage p "  Start of JTAG Finder using JTAG ID method.\r\n");
    auto.
  now apply appends_jtag_finder_id_method.
Qed.

Lemma appends_bypass_stage p s :
  accepts_plain p -> p (PrintStr bypass_mark) = true ->
  p (PrintStr bypass_not_found) = true ->
  (forall roles, valid_roles roles = true -> p (Trial roles) = true) ->
  appends p (log s) (log (bypass_stage s)).
Proof.
  intros Hp Hm Hnf Hv. unfold bypass_stage. cbv zeta.
  apply (appends_stage p "  Start of JTAG Finder using Bypass method.\r\n");
    auto.
  now apply appends_jtag_finder_bypass_method_with.
Qed.

Lemma appends_swd_stage p s :
  accepts_plain p -> p (PrintStr swd_mark) = true ->
  p (PrintStr swd_not_found) = true ->
  (forall roles, valid_roles roles = true -> p (Trial roles) = true) ->
  appends p (log s) (log (swd_stage s)).
Proof.
  intros Hp Hm Hnf Hv. unfold swd_stage. cbv zeta.
  apply (appends_stage p "  Start of SWD Finder.\r\n"); auto.
  now apply appends_swd_finder.
Qed.

(** A stage that pairs its not-found line with its mark, between events
    that carry neither. *)
Lemma sandwich m nf (l0 l1 l2 l3 : list event) :
  appends (neither m nf) l0 l1 ->
  (exists n, continues l1 l2 n /\ printed nf n = negb (printed m n)) ->
  appends (neither m nf) l2 l3 ->
  exists new,
    continues l0 l3 new /\ printed nf new = negb (printed m new).
Proof.
  intros (a & Ha & Qa) (n & Hn & Pn) (c & Hc & Qc).
  apply neither_printed in Qa as [Qa1 Qa2].
  apply neither_printed in Qc as [Qc1 Qc2].
  exists ((a ++ n) ++ c). split.
  - eapply continues_trans; [eapply continues_trans|]; eassumption.
  - rewrite !printed_app, Qa1, Qa2, Qc1, Qc2, Pn.
    now rewrite !orb_false_r.
Qed.

Lemma run_finders_events s :
  exists new,
    continues (log s) (log (run_finders s)) new
    /\ printed id_not_found new = negb (printed id_mark new)
    /\ printed bypass_not_found new = negb (printed bypass_mark new)
    /\ printed swd_not_found new = negb (printed swd_mark new).
Proof.
  unfold run_finders. cbv zeta.
  set (s1 := print "Begin testing...\r\n\n" (print "\r\n\n" s)).
  assert (H01 : forall p, accepts_plain p -> appends p (log s) (log s1)).
  { intros p Hp. subst s1.
    apply appends_trans with (log (print "\r\n\n" s));
      now apply plain_print. }
  clearbody s1.
  assert (Hdone : forall p (t : machine W), accepts_plain p ->
            appends p (log t) (log (print "Done testing.\r\n" t)))
    by (intros; now apply plain_print).
  assert (Mid : In id_mark marks) by (cbn; tauto).
  assert (Mby : In bypass_mark marks) by (cbn; tauto).
  assert (Msw : In swd_mark marks) by (cbn; tauto).
  assert (Nid : In id_not_found marks) by (cbn; tauto).
  assert (Nby : In bypass_not_found marks) by (cbn; tauto).
  assert (Nsw : In swd_not_found marks) by (cbn; tauto).
  assert (Tr : forall m nf roles, valid_roles roles = true ->
                 neither m nf (Trial roles) = true) by reflexivity.
  destruct (sandwich id_mark id_not_found (log s) (log s1)
              (log (id_stage s1))
              (log (print "Done testing.\r\n"
                      (swd_stage (bypass_stage (id_stage s1))))))
    as (n1 & C1 & P1).
  { apply H01. now apply accepts_plain_neither. }
  { apply id_stage_events. }
  { apply appends_trans with (log (bypass_stage (id_stage s1))).
    - apply appends_bypass_stage; auto using accepts_plain_neither.
    - apply appends_trans
        with (log (swd_stage (bypass_stage (id_stage s1)))).
      + apply appends_swd_stage; auto using accepts_plain_neither.
      + apply Hdone. now apply accepts_plain_neither. }
  destruct (sandwich bypass_mark bypass_not_found (log s)
              (log (id_stage s1)) (log (bypass_stage (id_stage s1)))
              (log (print "Done testing.\r\n"
                      (swd_stage (bypass_stage (id_stage s1))))))
    as (n2 & C2 & P2).
  { apply appends_trans with (log s1).
    - apply H01. now apply accepts_plain_neither.
    - apply appends_id_stage; auto using accepts_plain_neither. }
  { apply bypass_stage_events. }
  { apply appends_trans
      with (log (swd_stage (bypass_stage (id_stage s1)))).
    - apply appends_swd_stage; auto using accepts_plain_neither.
    - apply Hdone. now apply accepts_plain_neither. }
  destruct (sandwich swd_mark swd_not_found (log s)
              (log (bypass_stage (id_stage s1)))
              (log (swd_stage (bypass_stage (id_stage s1))))
              (log (print "Done testing.\r\n"
                      (swd_stage (bypass_stage (id_stage s1))))))
    as (n3 & C3 & P3).
  { apply appends_trans with (log s1).
    - apply H01. now apply accepts_plain_neither.
    - apply appends_trans with (log (id_stage s1)).
      + apply appends_id_stage; auto using accepts_plain_neither.
      + apply appends_bypass_stage; auto using accepts_plain_neither. }
  { apply swd_stage_events. }
  { apply Hdone. now apply accepts_plain_neither. }
  rewrite (continues_inv _ _ _ _ C2 C1) in P2.
  rewrite (continues_inv _ _ _ _ C3 C1) in P3.
  exists n1. auto.
Qed.

(** *** The order of the trials *)

Section Yields.

Variable A : Type.
Variable proj : list event -> list A.
Hypothesis proj_nil : proj [] = [].
Hypothesis proj_app : forall a b, proj (a ++ b) = proj a ++ proj b.

Lemma yields_refl (l : list event) : yields proj l l [].
Proof. exists []. split; [apply continues_refl | exact proj_nil]. Qed.

Lemma yields_trans (l1 l2 l3 : list event) (T1 T2 : list A) :
  yields proj l1 l2 T1 -> yields proj l2 l3 T2 ->
  yields proj l1 l3 (T1 ++ T2).
Proof.
  intros (n1 & H1 & P1) (n2 & H2 & P2). exists (n1 ++ n2). split.
  - eapply continues_trans; eassumption.
  - now rewrite proj_app, P1, P2.
Qed.

Lemma yields_quiet p (l l' : list event) :
  (forall new, forallb p new = true -> proj new = []) ->
  appends p l l' -> yields proj l l' [].
Proof. intros Hp (new & Hc & Hq). exists new. auto. Qed.

Lemma yields_for_each {S : Type} (lg : S -> list event) (T : Z -> list A)
    (l : list Z) (body : Z -> S -> S) :
  (forall j (st : S), In j l -> yields proj (lg st) (lg (body j st)) (T j)) ->
  forall st : S,
    yields proj (lg st) (lg (for_each l body st)) (flat_map T l).
Proof.
  induction l as [|j l IH]; intros Hbody st.
  - apply yields_refl.
  - rewrite for_each_cons. cbn [flat_map].
    apply yields_trans with (lg (body j st)).
    + apply Hbody. now left.
    + apply IH. intros k t Hk. apply Hbody. now right.
Qed.

End Yields.

Lemma trials_of_app (a b : list event) :
  trials_of (a ++ b) = trials_of a ++ trials_of b.
Proof.
  induction a as [|e a IH]; [reflexivity|].
  destruct e; cbn; now rewrite ?IH.
Qed.

Lemma triples_of_app (a b : list event) :
  triples_of (a ++ b) = triples_of a ++ triples_of b.
Proof. unfold triples_of. now rewrite trials_of_app, filter_app. Qed.

Lemma no_trial_trials (new : list event) :
  forallb (fun e => negb (is_trial e)) new = true -> trials_of new = [].
Proof.
  induction new as [|e new IH]; [reflexivity|]. cbn [forallb].
  intros H. apply andb_true_iff in H as [He Hn].
  destruct e; cbn in *; auto; discriminate.
Qed.

Lemma not_triple_triples (new : list event) :
  forallb not_triple new = true -> triples_of new = [].
Proof.
  unfold triples_of.
  induction new as [|e new IH]; [reflexivity|]. cbn [forallb].
  intros H. apply andb_true_iff in H as [He Hn].
  destruct e; cbn [trials_of]; auto.
  cbn [filter]. cbn in He. apply negb_true_iff in He. rewrite He. auto.
Qed.

Lemma accepts_plain_no_trial : accepts_plain (fun e => negb (is_trial e)).
Proof. intros [ | | | | | | | | | ]; cbn; congruence. Qed.

Lemma accepts_plain_not_triple : accepts_plain not_triple.
Proof. intros [ | | | | | | | | | ]; cbn; congruence. Qed.

Lemma yields_id_tdi_trial tck tms tdo tdi r s :
  yields trials_of (log s)
    (log (snd (id_tdi_trial tck tms tdo tdi (r, s))))
    [[tck; tms; tdo; tdi]].
Proof.
  assert (H : appends (fun e => negb (is_trial e))
                (log (emit (Trial [tck; tms; tdo; tdi]) s))
                (log (snd (id_tdi_trial tck tms tdo tdi (r, s))))).
  { unfold id_tdi_trial. cbv zeta.
    destruct (_ && _); cbn [snd].
    - apply appends_trans with (log (id_tdi_probe tck tms tdo tdi s)).
      + apply rest_id_tdi_probe, accepts_plain_no_trial.
      + apply appends_id_report; [apply accepts_plain_no_trial|reflexivity].
    - apply rest_id_tdi_probe, accepts_plain_no_trial. }
  destruct H as (rest & Hc & Hq).
  exists ([Trial [tck; tms; tdo; tdi]] ++ rest). split.
  - eapply continues_trans; [apply continues_one | exact Hc].
  - rewrite trials_of_app, (no_trial_trials _ Hq). reflexivity.
Qed.

Lemma tdi_skip_existsb tck tms tdo tdi :
  (tdi =? tck) || (tdi =? tms) || (tdi =? tdo) || (tdi =? 1) || (tdi =? 2)
  = existsb (Z.eqb tdi) [tck; tms; tdo; 1; 2].
Proof.
  cbn. destruct (tdi =? tck), (tdi =? tms), (tdi =? tdo), (tdi =? 1),
    (tdi =? 2); reflexivity.
Qed.

Lemma flat_map_filter_map {X Y : Type} (keep : X -> bool) (f : X -> Y)
    (l : list X) :
  flat_map (fun x => if keep x then [f x] else []) l = map f (filter keep l).
Proof.
  induction l as [|x l IH]; [reflexivity|]. cbn.
  destruct (keep x); cbn; now rewrite IH.
Qed.

Lemma yields_id_tdi_search tck tms tdo r s :
  yields trials_of (log s)
    (log (snd (id_tdi_search tck tms tdo (r, s))))
    (map (fun tdi => [tck; tms; tdo; tdi])
       (filter (fun tdi => negb (existsb (Z.eqb tdi) [tck; tms; tdo; 1; 2]))
          (upto 16))).
Proof.
  rewrite <- flat_map_filter_map. unfold id_tdi_search.
  apply (yields_for_each _ trials_of eq_refl trials_of_app
           (fun rs => log (snd rs)) _ _ _) with (st := (r, s)).
  intros tdi [r' s'] Hin. rewrite tdi_skip_existsb.
  destruct (existsb (Z.eqb tdi) [tck; tms; tdo; 1; 2]); cbn [negb].
  - apply (yields_refl _ trials_of eq_refl).
  - apply yields_id_tdi_trial.
Qed.

Lemma yields_id_trial tck tms tdo r s :
  yields triples_of (log s) (log (snd (id_trial tck tms tdo (r, s))))
    [[tck; tms; tdo]].
Proof.
  assert (H : appends not_triple (log (emit (Trial [tck; tms; tdo]) s))
                (log (snd (id_trial tck tms tdo (r, s))))).
  { assert (Hcap : appends not_triple (log (emit (Trial [tck; tms; tdo]) s))
                     (log (id_capture tck tms tdo s))).
    { unfold id_capture.
      apply appends_trans with (log (id_prepare tck tms tdo s)).
      - apply rest_id_prepare, accepts_plain_not_triple.
      - apply plain_id_shift_out, accepts_plain_not_triple. }
    unfold id_trial. cbv zeta. destruct (7 <? _).
    - apply appends_trans with (log (id_capture tck tms tdo s));
        [exact Hcap|].
      apply appends_id_tdi_search;
        [apply accepts_plain_not_triple | reflexivity | reflexivity].
    - exact Hcap. }
  destruct H as (rest & Hc & Hq).
  exists ([Trial [tck; tms; tdo]] ++ rest). split.
  - eapply continues_trans; [apply continues_one | exact Hc].
  - rewrite triples_of_app, (not_triple_triples _ Hq). reflexivity.
Qed.

Lemma valid_triples_loops :
  valid_triples
  = flat_map (fun tck =>
      flat_map (fun tms =>
        if tck =? tms then []
        else
          flat_map (fun tdo =>
            if (tck =? tdo) || (tms =? tdo) then []
            else if (tck =? 1) || (tms =? 1) || (tdo =? 1) then []
            else if (tck =? 2) || (tms =? 2) || (tdo =? 2) then []
            else [[tck; tms; tdo]])
            (upto (Z.to_nat PINS)))
        (upto (Z.to_nat PINS)))
      (upto (Z.to_nat PINS)).
Proof. vm_compute. reflexivity. Qed.

Lemma yields_jtag_finder_id_method s :
  yields triples_of (log s) (log (snd (jtag_finder_id_method s)))
    valid_triples.
Proof.
  rewrite valid_triples_loops. unfold jtag_finder_id_method.
  apply (yields_for_each _ triples_of eq_refl triples_of_app
           (fun rs => log (snd rs)) _ _ _) with (st := (0, s)).
  intros tck rs1 H1.
  apply (yields_for_each _ triples_of eq_refl triples_of_app
           (fun rs => log (snd rs))).
  intros tms rs2 H2.
  destruct (tck =? tms); [apply (yields_refl _ triples_of eq_refl)|].
  apply (yields_for_each _ triples_of eq_refl triples_of_app
           (fun rs => log (snd rs))).
  intros tdo [r3 s3] H3.
  destruct ((tck =? tdo) || (tms =? tdo));
    [apply (yields_refl _ triples_of eq_refl)|].
  destruct ((tck =? 1) || (tms =? 1) || (tdo =? 1));
    [apply (yields_refl _ triples_of eq_refl)|].
  destruct ((tck =? 2) || (tms =? 2) || (tdo =? 2));
    [apply (yields_refl _ triples_of eq_refl)|].
  apply yields_id_trial.
Qed.

(** C4, as amended: for every triple, accepted or not, the search for tdi
    tries every pin that is none of tck, tms, tdo and the two uart pins, in
    ascending order, whatever the verdicts are; and the three outer loops
    try every valid triple once, in ascending order. *)
Theorem tdi_search_is_exhaustive s :
  (forall tck tms tdo r,
     exists new,
       history (snd (id_tdi_search tck tms tdo (r, s))) = history s ++ new
       /\ trials_of new
          = map (fun tdi => [tck; tms; tdo; tdi])
              (filter
                 (fun tdi => negb (existsb (Z.eqb tdi) [tck; tms; tdo; 1; 2]))
                 (upto 16)))
  /\ (exists new,
        history (snd (jtag_finder_id_method s)) = history s ++ new
        /\ triples_of new = valid_triples)
  /\ List.length valid_triples = 2184%nat.
Proof.
  split; [|split].
  - intros tck tms tdo r.
    destruct (yields_id_tdi_search tck tms tdo r s) as (new & Hc & Hp).
    exists new. split; [now apply history_continues | exact Hp].
  - destruct (yields_jtag_finder_id_method s) as (new & Hc & Hp).
    exists new. split; [now apply history_continues | exact Hp].
  - vm_compute. reflexivity.
Qed.

(** *** The 40 clocks of the id method *)

Lemma u8_mod (v : Z) : u8 v = v mod 256.
Proof. unfold u8. change 0xFF with (Z.ones 8). now rewrite Z.land_ones. Qed.

Lemma toggles_bound (bytes : list Z) (prev : Z) :
  0 <= toggles prev bytes <= Z.of_nat (List.length bytes).
Proof.
  revert prev. induction bytes as [|b bytes IH]; intros prev.
  - cbn. lia.
  - cbn [toggles List.length]. specialize (IH b).
    destruct (b =? prev); lia.
Qed.

(** The counter of the sampler is the number of toggles, modulo 256. *)
Lemma sampler_count (bytes : list Z) (prev count acc : Z) :
  0 <= count < 256 ->
  snd (fst (fold_left sampler_step bytes (prev, count, acc)))
  = (count + toggles prev bytes) mod 256.
Proof.
  revert prev count acc.
  induction bytes as [|b bytes IH]; intros prev count acc Hc.
  - cbn. rewrite Z.add_0_r. symmetry. now apply Z.mod_small.
  - cbn [fold_left toggles]. unfold sampler_step at 2.
    destruct (b =? prev).
    + rewrite IH by exact Hc. f_equal; lia.
    + rewrite IH by (rewrite u8_mod; apply Z.mod_pos_bound; lia).
      rewrite u8_mod, Zplus_mod_idemp_l. f_equal; lia.
Qed.

Lemma sampler_of_observe s :
  sampler_of (observe s) = sampler_step (sampler_of s) (byte_val s).
Proof.
  unfold observe, sampler_of.
  destruct (sampler_step _ _) as [[prev count] acc]. reflexivity.
Qed.

Lemma sampler_of_sample pin s :
  sampler_of (sample pin s)
  = sampler_step (sampler_of s) (pin_byte pin (world s)).
Proof. unfold sample, read_pin. now rewrite sampler_of_observe. Qed.

Lemma sampler_of_set_pin pin s : sampler_of (set_pin pin s) = sampler_of s.
Proof.
  unfold set_pin. cbv zeta.
  repeat (destruct (_ =? _); [reflexivity|]). reflexivity.
Qed.

Lemma sampler_of_clr_pin pin s : sampler_of (clr_pin pin s) = sampler_of s.
Proof.
  unfold clr_pin. cbv zeta.
  repeat (destruct (_ =? _); [reflexivity|]). reflexivity.
Qed.

(** A loop that reads a pin after fixed pin operations: its log and its
    sampler are determined by the bytes read. *)
Lemma sampled_loop (body pre : Z -> machine W -> machine W)
    (ops : Z -> list event) (reads_at : Z -> bool) (pin : Z) (l : list Z) :
  (forall j s, body j s = if reads_at j then sample pin (pre j s)
                          else pre j s) ->
  (forall j s, log (pre j s) = rev (ops j) ++ log s
               /\ sampler_of (pre j s) = sampler_of s) ->
  forall s,
    exists bytes,
      List.length bytes = List.length (filter reads_at l)
      /\ log (for_each l body s)
         = rev (loop_events ops reads_at pin l bytes) ++ log s
      /\ sampler_of (for_each l body s)
         = fold_left sampler_step bytes (sampler_of s).
Proof.
  intros Hbody Hpre. induction l as [|j l IH]; intros s.
  - exists []. repeat split.
  - rewrite for_each_cons, Hbody. cbn [filter loop_events].
    destruct (Hpre j s) as [Hlog Hsam]. destruct (reads_at j).
    + destruct (IH (sample pin (pre j s))) as (bytes & Hlen & Hl & Hs).
      exists (pin_byte pin (world (pre j s)) :: bytes). split; [|split].
      * cbn [List.length]. now rewrite Hlen.
      * rewrite Hl, log_sample, Hlog, rev_app_distr. cbn [rev app].
        now rewrite <- !app_assoc.
      * rewrite Hs, sampler_of_sample, Hsam. reflexivity.
    + destruct (IH (pre j s)) as (bytes & Hlen & Hl & Hs).
      exists bytes. split; [|split].
      * exact Hlen.
      * rewrite Hl, Hlog, rev_app_distr. now rewrite app_assoc.
      * now rewrite Hs, Hsam.
Qed.

Lemma rev_cons_app {X : Type} (x : X) (l k : list X) :
  rev (x :: l) ++ k = rev l ++ x :: k.
Proof. cbn. now rewrite <- app_assoc. Qed.

Lemma id_shift_out_events tck tms tdo s :
  exists bytes,
    List.length bytes = 32%nat
    /\ log (id_shift_out tck tms tdo s)
       = rev (id_shift_events tck tms tdo bytes) ++ log s
    /\ sampler_of (id_shift_out tck tms tdo s)
       = fold_left sampler_step bytes (sampler_of s).
Proof.
  unfold id_shift_out. cbv zeta.
  destruct (sampled_loop
              (fun j s =>
                 if 7 <? j
                 then
                   sample tdo
                     (if j =? 4
                      then clr_pin tms (clr_pin tck (set_pin tck s))
                      else
                        if j =? 5
                        then set_pin tms (clr_pin tck (set_pin tck s))
                        else
                          if j =? 6
                          then clr_pin tms (clr_pin tck (set_pin tck s))
                          else clr_pin tck (set_pin tck s))
                 else
                   if j =? 4
                   then clr_pin tms (clr_pin tck (set_pin tck s))
                   else
                     if j =? 5
                     then set_pin tms (clr_pin tck (set_pin tck s))
                     else
                       if j =? 6
                       then clr_pin tms (clr_pin tck (set_pin tck s))
                       else clr_pin tck (set_pin tck s))
              (fun j s =>
                 if j =? 4 then clr_pin tms (clr_pin tck (set_pin tck s))
                 else if j =? 5 then set_pin tms (clr_pin tck (set_pin tck s))
                 else if j =? 6 then clr_pin tms (clr_pin tck (set_pin tck s))
                 else clr_pin tck (set_pin tck s))
              (id_shift_ops tck tms) (fun j => 7 <? j) tdo (upto 40))
    with (s := set_pin tms s) as (bytes & Hlen & Hl & Hs).
  { reflexivity. }
  { intros j t. unfold id_shift_ops.
    destruct (j =? 4); [|destruct (j =? 5); [|destruct (j =? 6)]];
      repeat first [ rewrite log_set_pin | rewrite log_clr_pin
                   | rewrite sampler_of_set_pin | rewrite sampler_of_clr_pin ];
      split; reflexivity. }
  exists bytes. split; [exact Hlen|]. split.
  - rewrite Hl, log_set_pin. unfold id_shift_events.
    now rewrite rev_cons_app.
  - rewrite Hs, sampler_of_set_pin. reflexivity.
Qed.

Lemma waveform_blank clk dat c d (evs : list event) :
  waveform clk dat c d (map blank evs) = waveform clk dat c d evs.
Proof.
  revert c d. induction evs as [|e evs IH]; intros c d; [reflexivity|].
  destruct e; cbn [map blank waveform]; rewrite ?IH; reflexivity.
Qed.

Lemma read_points_blank clk pin c n (evs : list event) :
  read_points clk pin c n (map blank evs) = read_points clk pin c n evs.
Proof.
  revert c n. induction evs as [|e evs IH]; intros c n; [reflexivity|].
  destruct e; cbn [map blank read_points]; rewrite ?IH; reflexivity.
Qed.

Lemma blank_loop_events ops reads_at pin (l : list Z) (bytes : list Z) :
  (forall j, map blank (ops j) = ops j) ->
  map blank (loop_events ops reads_at pin l bytes)
  = loop_events ops reads_at pin l (repeat 0 (List.length bytes)).
Proof.
  intros Hops. revert bytes.
  induction l as [|j l IH]; intros bytes; [reflexivity|].
  cbn [loop_events]. rewrite map_app, Hops. f_equal.
  destruct (reads_at j); [|apply IH].
  destruct bytes as [|b bytes]; cbn [List.length repeat map blank].
  - apply (IH []).
  - f_equal. apply IH.
Qed.

Lemma blank_id_shift_events tck tms tdo (bytes : list Z) :
  List.length bytes = 32%nat ->
  map blank (id_shift_events tck tms tdo bytes)
  = id_shift_events tck tms tdo (repeat 0 32).
Proof.
  intros Hlen. unfold id_shift_events. rewrite map_cons.
  change (blank (SetPin tms)) with (SetPin tms). f_equal.
  rewrite blank_loop_events, Hlen; [reflexivity|].
  intros j. unfold id_shift_ops.
  destruct (j =? 4), (j =? 5), (j =? 6); reflexivity.
Qed.

Lemma in_count_from (n : nat) (j p : Z) :
  j <= p < j + Z.of_nat n -> In p (count_from n j).
Proof.
  revert j. induction n as [|n IH]; intros j H; [lia|].
  cbn [count_from]. destruct (Z.eq_dec j p) as [->|Hne]; [now left|].
  right. apply IH. lia.
Qed.

Lemma in_upto (n : nat) (p : Z) : 0 <= p < Z.of_nat n -> In p (upto n).
Proof. intros H. apply in_count_from. lia. Qed.

Lemma valid_roles_in (roles : list Z) (p : Z) :
  valid_roles roles = true -> In p roles -> In p (upto 16).
Proof.
  unfold valid_roles. intros H Hin. apply andb_true_iff in H as [_ H].
  rewrite forallb_forall in H. specialize (H p Hin).
  apply andb_true_iff in H as [H _]. apply andb_true_iff in H as [H1 H2].
  apply in_upto. unfold PINS in H2. lia.
Qed.

Lemma id_shift_shape tck tms tdo :
  valid_roles [tck; tms; tdo] = true ->
  waveform tck tms false false (id_shift_events tck tms tdo (repeat 0 32))
  = tms_sequence
  /\ read_points tck tdo false 0 (id_shift_events tck tms tdo (repeat 0 32))
     = map (fun j => j + 1) (skipn 8 (upto 40)).
Proof.
  intros Hv.
  assert (C : forallb (fun a => forallb (fun b => forallb (fun c =>
            implb (valid_roles [a; b; c])
              ((if list_eq_dec Bool.bool_dec
                     (waveform a b false false
                        (id_shift_events a b c (repeat 0 32)))
                     tms_sequence then true else false)
               && (if list_eq_dec Z.eq_dec
                        (read_points a c false 0
                           (id_shift_events a b c (repeat 0 32)))
                        (map (fun j => j + 1) (skipn 8 (upto 40)))
                   then true else false)))
            (upto 16)) (upto 16)) (upto 16) = true)
    by (vm_compute; reflexivity).
  rewrite forallb_forall in C.
  specialize (C tck (valid_roles_in _ _ Hv (or_introl eq_refl))).
  rewrite forallb_forall in C.
  specialize (C tms (valid_roles_in _ _ Hv (or_intror (or_introl eq_refl)))).
  rewrite forallb_forall in C.
  specialize (C tdo (valid_roles_in _ _ Hv
                       (or_intror (or_intror (or_introl eq_refl))))).
  rewrite Hv in C. cbn [implb] in C. apply andb_true_iff in C as [C1 C2].
  destruct (list_eq_dec Bool.bool_dec _ _) as [E1|]; [|discriminate].
  destruct (list_eq_dec Z.eq_dec _ _) as [E2|]; [|discriminate].
  split; assumption.
Qed.

Lemma sampler_of_id_prepare tck tms tdo s :
  sampler_of (id_prepare tck tms tdo s) = (0, 0, 0).
Proof. reflexivity. Qed.

(** C7: for every candidate triple the id method drives tms high, gives
    exactly 40 clock pulses during which tms carries 1111101 followed by
    zeros, reads tdo after each of the last 32 pulses (index 8 to 39), feeds
    the 32 bytes to the sampler, and enters the search for tdi exactly when
    they toggle more than 7 times. *)
Theorem id_shift_sequence tck tms tdo r s :
  valid_roles [tck; tms; tdo] = true ->
  let s0 := id_prepare tck tms tdo s in
  let s1 := id_capture tck tms tdo s in
  exists bytes,
    List.length bytes = 32%nat
    /\ history s1 = history s0 ++ id_shift_events tck tms tdo bytes
    /\ waveform tck tms false false (id_shift_events tck tms tdo bytes)
       = tms_sequence
    /\ read_points tck tdo false 0 (id_shift_events tck tms tdo bytes)
       = map (fun j => j + 1) (skipn 8 (upto 40))
    /\ sampler_of s1 = sampler_run bytes
    /\ toggle_count s1 = toggles 0x00 bytes
    /\ id_trial tck tms tdo (r, s)
       = (if 7 <? toggles 0x00 bytes
          then id_tdi_search tck tms tdo (r, s1)
          else (r, s1)).
Proof.
  intros Hv. cbv zeta. unfold id_capture.
  destruct (id_shift_out_events tck tms tdo (id_prepare tck tms tdo s))
    as (bytes & Hlen & Hl & Hs).
  rewrite sampler_of_id_prepare in Hs.
  assert (Ht : toggle_count
                 (id_shift_out tck tms tdo (id_prepare tck tms tdo s))
               = toggles 0 bytes).
  { change (toggle_count
              (id_shift_out tck tms tdo (id_prepare tck tms tdo s)))
      with (snd (fst (sampler_of
              (id_shift_out tck tms tdo (id_prepare tck tms tdo s))))).
    rewrite Hs, sampler_count by lia. apply Z.mod_small.
    pose proof (toggles_bound bytes 0). lia. }
  destruct (id_shift_shape tck tms tdo Hv) as [Hw Hr].
  exists bytes. repeat split.
  - exact Hlen.
  - now apply history_continues.
  - now rewrite <- waveform_blank, blank_id_shift_events.
  - now rewrite <- read_points_blank, blank_id_shift_events.
  - exact Hs.
  - exact Ht.
  - unfold id_trial, id_capture. cbv zeta. now rewrite Ht.
Qed.

(** *** The count of ones *)

Local Abbreviation blind := (cnt1_blind W).

Lemma blind_emit e : blind (emit e).
Proof. intros c s. reflexivity. Qed.

Lemma blind_print text : blind (print text).
Proof. intros c s. reflexivity. Qed.

Lemma blind_print_dec n : blind (print_dec n).
Proof. intros c s. reflexivity. Qed.

Lemma blind_print_hex n : blind (print_hex n).
Proof. intros c s. reflexivity. Qed.

Lemma blind_set_pin pin : blind (set_pin pin).
Proof.
  intros c s. unfold set_pin. cbv zeta.
  repeat (destruct (_ =? _); [reflexivity|]). reflexivity.
Qed.

Lemma blind_clr_pin pin : blind (clr_pin pin).
Proof.
  intros c s. unfold clr_pin. cbv zeta.
  repeat (destruct (_ =? _); [reflexivity|]). reflexivity.
Qed.

Lemma blind_set_pin_to_output pin : blind (set_pin_to_output pin).
Proof.
  intros c s. unfold set_pin_to_output. cbv zeta.
  repeat (destruct (_ =? _); [reflexivity|]). reflexivity.
Qed.

Lemma blind_set_all_pins_to_inputs : blind set_all_pins_to_inputs.
Proof. intros c s. reflexivity. Qed.

Lemma blind_set_byte_prev v : blind (set_byte_prev v).
Proof. intros c s. reflexivity. Qed.

Lemma blind_set_toggle_count v : blind (set_toggle_count v).
Proof. intros c s. reflexivity. Qed.

Lemma blind_set_idval v : blind (set_idval v).
Proof. intros c s. reflexivity. Qed.

Lemma blind_sample pin : blind (sample pin).
Proof.
  intros c s. destruct s. unfold sample, read_pin, observe.
  cbn -[sampler_step pin_byte].
  destruct (sampler_step _ _) as [[prev count] acc]. reflexivity.
Qed.

Lemma blind_pulse tck : blind (pulse tck).
Proof.
  intros c s. unfold pulse. now rewrite blind_set_pin, blind_clr_pin.
Qed.

Lemma blind_for_each (l : list Z) (body : Z -> machine W -> machine W) :
  (forall j, blind (body j)) -> blind (for_each l body).
Proof.
  intros H c. induction l as [|j l IH]; intros s; [reflexivity|].
  rewrite !for_each_cons, H. apply IH.
Qed.

Lemma vflag_set_cnt1 c s : vflag (set_cnt1 c s) = vflag s.
Proof. reflexivity. Qed.

Lemma idval_set_cnt1 c s : idval (set_cnt1 c s) = idval s.
Proof. reflexivity. Qed.

Lemma if_set_cnt1 (b : bool) c (x y : machine W) :
  (if b then set_cnt1 c x else set_cnt1 c y)
  = set_cnt1 c (if b then x else y).
Proof. now destruct b. Qed.

Lemma blind_print_tck_tms_tdo_tdi tck tms tdo tdi :
  blind (print_tck_tms_tdo_tdi tck tms tdo tdi).
Proof. intros c s. reflexivity. Qed.

Lemma blind_bypass_reset tck tms tdi : blind (bypass_reset tck tms tdi).
Proof.
  intros c s. unfold bypass_reset. cbv zeta.
  rewrite blind_set_pin, blind_clr_pin. apply blind_for_each.
  intros j c' t.
  destruct (j =? 5); [|destruct (j =? 6); [|destruct (j =? 7)]];
    rewrite ?blind_set_pin, ?blind_clr_pin; apply blind_pulse.
Qed.

Lemma blind_bypass_flush tck : blind (bypass_flush tck).
Proof.
  intros c s. unfold bypass_flush. apply blind_for_each.
  intros j. apply blind_pulse.
Qed.

Lemma blind_bypass_measure tck tms tdo tdi :
  blind (bypass_measure tck tms tdo tdi).
Proof.
  intros c s. unfold bypass_measure. cbv zeta.
  rewrite blind_clr_pin. apply blind_for_each.
  intros j c' t.
  destruct (j mod 4 =? 0); rewrite ?blind_set_pin, ?blind_clr_pin;
    rewrite blind_pulse; apply blind_sample.
Qed.

Lemma blind_bypass_probe tck tms tdo tdi :
  blind (bypass_probe tck tms tdo tdi).
Proof.
  intros c s. unfold bypass_probe. cbv zeta.
  rewrite !blind_emit, !vflag_set_cnt1.
  rewrite blind_print_tck_tms_tdo_tdi, blind_print, if_set_cnt1.
  rewrite blind_set_all_pins_to_inputs, !blind_set_pin_to_output.
  rewrite blind_set_byte_prev, blind_set_toggle_count, blind_set_idval.
  now rewrite blind_bypass_reset, blind_bypass_flush, blind_bypass_measure.
Qed.

Lemma blind_bypass_report tck tms tdo tdi :
  blind (bypass_report tck tms tdo tdi).
Proof.
  intros c s. unfold bypass_report. cbv zeta.
  rewrite !blind_print_tck_tms_tdo_tdi, !blind_print, !idval_set_cnt1.
  now rewrite blind_print_hex, blind_print, blind_set_pin.
Qed.

Lemma erase_set_cnt1 c s : set_cnt1 0 (set_cnt1 c s) = set_cnt1 0 s.
Proof. reflexivity. Qed.

Lemma blind_erase f (a b : machine W) :
  blind f -> set_cnt1 0 a = set_cnt1 0 b ->
  set_cnt1 0 (f a) = set_cnt1 0 (f b).
Proof.
  intros Hf Hab.
  assert (He : forall x, set_cnt1 0 (f x) = f (set_cnt1 0 x))
    by (intros x; now rewrite Hf).
  now rewrite !He, Hab.
Qed.

Lemma blind_cnt1 f c s : blind f -> cnt1 (f (set_cnt1 c s)) = c.
Proof. intros Hf. now rewrite Hf. Qed.

Lemma erase_toggle_count (a b : machine W) :
  set_cnt1 0 a = set_cnt1 0 b -> toggle_count a = toggle_count b.
Proof.
  intros H. change (toggle_count (set_cnt1 0 a) = toggle_count (set_cnt1 0 b)).
  now rewrite H.
Qed.

(** Two trials that store different counts in [cnt1] agree on everything
    else. *)
Lemma bypass_trial_related f g tck tms tdo tdi r (a b : machine W) :
  set_cnt1 0 a = set_cnt1 0 b ->
  fst (bypass_trial_with f tck tms tdo tdi (r, a))
  = fst (bypass_trial_with g tck tms tdo tdi (r, b))
  /\ set_cnt1 0 (snd (bypass_trial_with f tck tms tdo tdi (r, a)))
     = set_cnt1 0 (snd (bypass_trial_with g tck tms tdo tdi (r, b))).
Proof.
  intros Hab. unfold bypass_trial_with, bypass_verdict. cbv zeta.
  pose proof (blind_erase _ a b (blind_bypass_probe tck tms tdo tdi) Hab)
    as Hp.
  revert Hp.
  generalize (bypass_probe tck tms tdo tdi a),
    (bypass_probe tck tms tdo tdi b).
  intros pa pb Hp. rewrite !toggle_count_set_cnt1.
  rewrite (erase_toggle_count pa pb Hp).
  destruct ((13 <? toggle_count pb) && (toggle_count pb <? 19));
    cbn [fst snd]; (split; [reflexivity|]).
  - apply blind_erase; [apply blind_bypass_report|].
    now rewrite !erase_set_cnt1.
  - now rewrite !erase_set_cnt1.
Qed.

Lemma bypass_trial_cnt1 f tck tms tdo tdi r s :
  cnt1 (snd (bypass_trial_with f tck tms tdo tdi (r, s)))
  = f (idval (bypass_probe tck tms tdo tdi s)).
Proof.
  unfold bypass_trial_with, bypass_verdict. cbv zeta.
  generalize (bypass_probe tck tms tdo tdi s). intros p.
  rewrite toggle_count_set_cnt1.
  destruct ((13 <? toggle_count p) && (toggle_count p <? 19)); cbn [snd].
  - apply blind_cnt1, blind_bypass_report.
  - reflexivity.
Qed.

Lemma bypass_finder_related f g s :
  fst (jtag_finder_bypass_method_with f s)
  = fst (jtag_finder_bypass_method_with g s)
  /\ set_cnt1 0 (snd (jtag_finder_bypass_method_with f s))
     = set_cnt1 0 (snd (jtag_finder_bypass_method_with g s)).
Proof.
  unfold jtag_finder_bypass_method_with.
  set (R := fun x y : Z * machine W =>
              fst x = fst y /\ set_cnt1 0 (snd x) = set_cnt1 0 (snd y)).
  change (R (for_each (upto (Z.to_nat PINS))
               (fun tck rs => for_each (upto (Z.to_nat PINS))
                  (fun tms rs => if tck =? tms then rs else
                     for_each (upto (Z.to_nat PINS))
                       (fun tdo rs =>
                          if (tck =? tdo) || (tms =? tdo) then rs
                          else if (tck =? 1) || (tms =? 1) || (tdo =? 1)
                          then rs
                          else if (tck =? 2) || (tms =? 2) || (tdo =? 2)
                          then rs
                          else for_each (upto (Z.to_nat PINS))
                            (fun tdi rs =>
                               if (tdi =? tck) || (tdi =? tms) || (tdi =? tdo)
                                  || (tdi =? 1) || (tdi =? 2)
                               then rs
                               else bypass_trial_with f tck tms tdo tdi rs)
                            rs) rs) rs) (0, s))
            (for_each (upto (Z.to_nat PINS))
               (fun tck rs => for_each (upto (Z.to_nat PINS))
                  (fun tms rs => if tck =? tms then rs else
                     for_each (upto (Z.to_nat PINS))
                       (fun tdo rs =>
                          if (tck =? tdo) || (tms =? tdo) then rs
                          else if (tck =? 1) || (tms =? 1) || (tdo =? 1)
                          then rs
                          else if (tck =? 2) || (tms =? 2) || (tdo =? 2)
                          then rs
                          else for_each (upto (Z.to_nat PINS))
                            (fun tdi rs =>
                               if (tdi =? tck) || (tdi =? tms) || (tdi =? tdo)
                                  || (tdi =? 1) || (tdi =? 2)
                               then rs
                               else bypass_trial_with g tck tms tdo tdi rs)
                            rs) rs) rs) (0, s))).
  apply for_each_related; [|split; reflexivity].
  intros tck a1 b1 _ H1. apply for_each_related; [|exact H1].
  intros tms a2 b2 _ H2. destruct (tck =? tms); [exact H2|].
  apply for_each_related; [|exact H2].
  intros tdo a3 b3 _ H3.
  destruct ((tck =? tdo) || (tms =? tdo)); [exact H3|].
  destruct ((tck =? 1) || (tms =? 1) || (tdo =? 1)); [exact H3|].
  destruct ((tck =? 2) || (tms =? 2) || (tdo =? 2)); [exact H3|].
  apply for_each_related; [|exact H3].
  intros tdi [ra sa] [rb sb] _ [Hr He].
  destruct ((tdi =? tck) || (tdi =? tms) || (tdi =? tdo)
            || (tdi =? 1) || (tdi =? 2)); [split; assumption|].
  cbn [fst snd] in Hr, He. subst rb.
  apply bypass_trial_related. exact He.
Qed.

(** C10: every trial of the bypass method stores the count of ones of the
    captured word in [cnt1], and accepts, returns and reports by the toggle
    count alone; a finder that stores any other value instead returns the
    same flag and ends in the same machine, [cnt1] apart. *)
Theorem bypass_ignores_count_of_ones (ones : Z -> Z) s :
  (forall tck tms tdo tdi r,
     let s1 := bypass_probe tck tms tdo tdi s in
     let accepted := (13 <? toggle_count s1) && (toggle_count s1 <? 19) in
     cnt1 (snd (bypass_trial tck tms tdo tdi (r, s))) = count_ones (idval s1)
     /\ fst (bypass_trial tck tms tdo tdi (r, s)) = (if accepted then 1 else r)
     /\ reports bypass_mark s (snd (bypass_trial tck tms tdo tdi (r, s)))
          accepted)
  /\ fst (jtag_finder_bypass_method_with ones s)
     = fst (jtag_finder_bypass_method s)
  /\ set_cnt1 0 (snd (jtag_finder_bypass_method_with ones s))
     = set_cnt1 0 (snd (jtag_finder_bypass_method s)).
Proof.
  unfold bypass_trial, jtag_finder_bypass_method. split.
  - intros tck tms tdo tdi r. cbv zeta.
    destruct (bypass_trial_verdict count_ones tck tms tdo tdi r s)
      as (n & Hc & Hp & Hr).
    split; [apply bypass_trial_cnt1|]. split; [exact Hr|].
    exists n. split; [now apply history_continues | exact Hp].
  - apply bypass_finder_related.
Qed.

End Finders.

(** ** Runs against simulated targets *)

Lemma bools_eqb_eq (a b : list bool) : bools_eqb a b = true -> a = b.
Proof.
  revert b. induction a as [|x a IH]; intros [|y b] H; try discriminate.
  - reflexivity.
  - cbn in H. apply andb_true_iff in H as [Hxy Hab].
    apply Bool.eqb_prop in Hxy. subst y. f_equal. now apply IH.
Qed.

Lemma swd_specified_length (switch request : Z) :
  Z.of_nat (List.length (swd_specified switch request)) = 148.
Proof.
  unfold swd_specified, msb_first16.
  rewrite !length_app, !repeat_length, !length_map. reflexivity.
Qed.

(** C1: what the code does.  On the pair (swclk, swdio) = (0, 3) the six
    calls of the connect sequence clock out 8 zeros, 50 ones, 31207 zeros,
    8 zeros, 50 ones and 165 zeros: the two 16-bit patterns never reach
    swdio, because they are passed to [send_fixed_swd_pattern] as pulse
    counts.  [send_16bit_swd_pattern], which the finder never calls, would
    send the pattern most significant bit first. *)
Theorem swd_connect_clocks_out_zeros :
  let sent := waveform 0 3 false false
                (history (swd_connect 0 3 (power_on tt))) in
  sent = repeat false 8 ++ repeat true 50 ++ repeat false 31207
         ++ repeat false 8 ++ repeat true 50 ++ repeat false 165
  /\ Z.of_nat (List.length sent) = 31488
  /\ (forall switch request, sent <> swd_specified switch request)
  /\ waveform 0 3 false false
       (history (send_16bit_swd_pattern 0 3 0x79e7 (power_on tt)))
     = msb_first16 0x79e7.
Proof.
  cbv zeta.
  assert (E : waveform 0 3 false false
                (history (swd_connect 0 3 (power_on tt)))
              = repeat false 8 ++ repeat true 50 ++ repeat false 31207
                ++ repeat false 8 ++ repeat true 50 ++ repeat false 165)
    by (apply bools_eqb_eq; vm_compute; reflexivity).
  assert (L : Z.of_nat (List.length (waveform 0 3 false false
                (history (swd_connect 0 3 (power_on tt))))) = 31488)
    by (vm_compute; reflexivity).
  revert E L.
  generalize (waveform 0 3 false false
                (history (swd_connect 0 3 (power_on tt)))).
  intros sent E L. split; [exact E|]. split; [exact L|]. split.
  - intros switch request H. rewrite H, swd_specified_length in L.
    discriminate.
  - vm_compute. reflexivity.
Qed.

(** C4, as stated, fails: on a target whose TDI is reachable from pins 5
    and 6, the search for tdi of the triple (0, 3, 4) accepts pin 5 and then
    goes on to try pins 6 to 15, accepting pin 6 as well. *)
Lemma tdi_search_continues_after_accept :
  tdi_trials_and_reports
    (history (snd (id_trial 0 3 4 (0, power_on two_tdi_target))))
  = [Trial [0; 3; 4; 5]; PrintStr id_mark;
     Trial [0; 3; 4; 6]; PrintStr id_mark;
     Trial [0; 3; 4; 7]; Trial [0; 3; 4; 8]; Trial [0; 3; 4; 9];
     Trial [0; 3; 4; 10]; Trial [0; 3; 4; 11]; Trial [0; 3; 4; 12];
     Trial [0; 3; 4; 13]; Trial [0; 3; 4; 14]; Trial [0; 3; 4; 15]].
Proof. vm_compute. reflexivity. Qed.

(** C6: what the code does.  On a target that shifts 288 more toggling
    bits out of tdo during the second 512 clocks, the 8-bit counter [tc]
    wraps to 32 and pin 5, which is wired to nothing, is accepted as tdi. *)
Theorem tdi_accepted_after_288_toggles :
  let s1 := id_capture 0 3 4 (power_on long_chain_target) in
  let s2 := id_tdi_probe 0 3 4 5 s1 in
  (7 <? toggle_count s1) = true
  /\ List.length (reads_of (history s2)) = (32 + 512)%nat
  /\ toggles 0x00 (skipn 32 (reads_of (history s2))) = 288
  /\ tc s2 = 32
  /\ fst (id_tdi_trial 0 3 4 5 (0, s1)) = 1.
Proof. cbv zeta. repeat split; vm_compute; reflexivity. Qed.

Lemma bypass_probe_pass_through tck tms tdo tdi :
  valid_roles [tck; tms; tdo; tdi] = true ->
  toggle_count (bypass_probe tck tms tdo tdi
                  (power_on (bypass_target tck tdo tdi))) = 16
  /\ map level_of
       (reads_of (history (bypass_probe tck tms tdo tdi
                             (power_on (bypass_target tck tdo tdi)))))
     = false :: map (fun j => j mod 4 =? 0) (upto 32).
Proof.
  intros Hv.
  assert (C : forallb (fun a => forallb (fun b => forallb (fun c =>
            forallb (fun d =>
              if valid_roles [a; b; c; d]
              then
                let s1 := bypass_probe a b c d
                            (power_on (bypass_target a c d)) in
                (toggle_count s1 =? 16)
                && bools_eqb (map level_of (reads_of (history s1)))
                     (false :: map (fun j => j mod 4 =? 0) (upto 32))
              else true)
            (upto 16)) (upto 16)) (upto 16)) (upto 16) = true)
    by (vm_cast_no_check (eq_refl true)).
  rewrite forallb_forall in C.
  specialize (C tck (valid_roles_in _ _ Hv (or_introl eq_refl))).
  rewrite forallb_forall in C.
  specialize (C tms (valid_roles_in _ _ Hv (or_intror (or_introl eq_refl)))).
  rewrite forallb_forall in C.
  specialize (C tdo (valid_roles_in _ _ Hv
                       (or_intror (or_intror (or_introl eq_refl))))).
  rewrite forallb_forall in C.
  specialize (C tdi (valid_roles_in _ _ Hv
                       (or_intror (or_intror (or_intror (or_introl eq_refl)))))).
  rewrite Hv in C. cbv zeta in C.
  apply andb_true_iff in C as [C1 C2].
  split; [now apply Z.eqb_eq | now apply bools_eqb_eq].
Qed.

(** C5: against a target in bypass, whose tdo shows after every clock the
    level tdi had at the clock before, the 33 clocks of the measurement read
    the injected pattern one clock late, count exactly 16 toggles, which is
    inside the band, and the quadruple is accepted. *)
Theorem bypass_accepts_pass_through tck tms tdo tdi :
  valid_roles [tck; tms; tdo; tdi] = true ->
  let s0 := power_on (bypass_target tck tdo tdi) in
  let s1 := bypass_probe tck tms tdo tdi s0 in
  map level_of (reads_of (history s1))
  = false :: map (fun j => j mod 4 =? 0) (upto 32)
  /\ toggle_count s1 = 16
  /\ (13 <? toggle_count s1) && (toggle_count s1 <? 19) = true
  /\ fst (bypass_trial tck tms tdo tdi (0, s0)) = 1
  /\ reports bypass_mark s0 (snd (bypass_trial tck tms tdo tdi (0, s0))) true.
Proof.
  intros Hv. cbv zeta.
  destruct (bypass_probe_pass_through tck tms tdo tdi Hv) as [Ht Hr].
  destruct (bypass_trial_verdict count_ones tck tms tdo tdi 0
              (power_on (bypass_target tck tdo tdi))) as (n & Hc & Hp & Hf).
  rewrite Ht in Hp, Hf. unfold bypass_trial. rewrite Ht.
  repeat split; try assumption.
  exists n. split; [now apply history_continues | exact Hp].
Qed.

Lemma bypass_accepts_pass_through_witness :
  valid_roles [0; 3; 4; 5] = true
  /\ (let s0 := power_on (bypass_target 0 4 5) in
      let s1 := bypass_probe 0 3 4 5 s0 in
      map level_of (reads_of (history s1))
      = false :: map (fun j => j mod 4 =? 0) (upto 32)
      /\ toggle_count s1 = 16
      /\ (13 <? toggle_count s1) && (toggle_count s1 <? 19) = true
      /\ fst (bypass_trial 0 3 4 5 (0, s0)) = 1
      /\ reports bypass_mark s0 (snd (bypass_trial 0 3 4 5 (0, s0))) true).
Proof.
  split; [reflexivity | apply (bypass_accepts_pass_through 0 3 4 5); reflexivity].
Defined.

Lemma id_shift_sequence_witness :
  valid_roles [0; 3; 4] = true
  /\ (let s0 := id_prepare 0 3 4 (power_on tt) in
      let s1 := id_capture 0 3 4 (power_on tt) in
      exists bytes,
        List.length bytes = 32%nat
        /\ history s1 = history s0 ++ id_shift_events 0 3 4 bytes
        /\ waveform 0 3 false false (id_shift_events 0 3 4 bytes)
           = tms_sequence
        /\ read_points 0 4 false 0 (id_shift_events 0 3 4 bytes)
           = map (fun j => j + 1) (skipn 8 (upto 40))
        /\ sampler_of s1 = sampler_run bytes
        /\ toggle_count s1 = toggles 0x00 bytes
        /\ id_trial 0 3 4 (0, power_on tt)
           = (if 7 <? toggles 0x00 bytes
              then id_tdi_search 0 3 4 (0, s1)
              else (0, s1))).
Proof.
  split; [reflexivity | apply (id_shift_sequence 0 3 4 0 (power_on tt)); reflexivity].
Defined.

(** ** The count of ones, bit by bit *)

Lemma count_from_range (n : nat) (j p : Z) :
  In p (count_from n j) -> j <= p < j + Z.of_nat n.
Proof.
  revert j. induction n as [|n IH]; intros j H; [destruct H|].
  cbn [count_from] in H. destruct H as [<-|H]; [lia|].
  apply IH in H. lia.
Qed.

Lemma map_count_from_succ {X : Type} (g : Z -> X) (n : nat) (j : Z) :
  map g (count_from n (j + 1)) = map (fun i => g (i + 1)) (count_from n j).
Proof.
  revert j. induction n as [|n IH]; intros j; [reflexivity|].
  cbn [count_from map]. now rewrite IH.
Qed.

Lemma ones_below_succ (n : nat) (val : Z) :
  ones_below (S n) val
  = Z.b2z (Z.testbit val 0) + ones_below n (Z.shiftr val 1).
Proof.
  unfold ones_below, upto. cbn [count_from map fold_right]. f_equal.
  rewrite (map_count_from_succ _ n 0). f_equal.
  apply map_ext_in. intros i Hi. apply count_from_range in Hi.
  rewrite Z.shiftr_spec by lia. reflexivity.
Qed.

Lemma ones_below_bound (n : nat) (val : Z) :
  0 <= ones_below n val <= Z.of_nat n.
Proof.
  revert val. induction n as [|n IH]; intros val.
  - cbn. lia.
  - rewrite ones_below_succ. specialize (IH (Z.shiftr val 1)).
    destruct (Z.testbit val 0); cbn [Z.b2z]; lia.
Qed.

Lemma lsb_test (val : Z) :
  (Z.land val 0x1 =? 0) = negb (Z.testbit val 0).
Proof.
  change 0x1 with (Z.ones 1). rewrite Z.land_ones by lia.
  change (2 ^ 1) with 2. rewrite <- Z.bit0_mod.
  now destruct (Z.testbit val 0).
Qed.

Lemma count_ones_loop (n : nat) (j cnt val : Z) :
  for_each (count_from n j)
    (fun _ (st : Z * Z) =>
       let (cnt, val) := st in
       ((if Z.land val 0x1 =? 0 then cnt else cnt + 1), Z.shiftr val 1))
    (cnt, val)
  = (cnt + ones_below n val, Z.shiftr val (Z.of_nat n)).
Proof.
  revert j cnt val. induction n as [|n IH]; intros j cnt val.
  - transitivity (cnt, val); [reflexivity|].
    unfold ones_below, upto. cbn [count_from map fold_right Z.of_nat].
    now rewrite Z.add_0_r, Z.shiftr_0_r.
  - cbn [count_from]. rewrite for_each_cons, IH, ones_below_succ, lsb_test.
    f_equal.
    + destruct (Z.testbit val 0); cbn [negb Z.b2z]; lia.
    + rewrite Z.shiftr_shiftr by lia. f_equal. lia.
Qed.

(** [count_ones] returns the number of set bits among the low 32 bits of its
    argument, a number between 0 and 32; the bits above bit 31 do not
    count. *)
Theorem count_ones_counts_low_32_bits (val : Z) :
  count_ones val = ones_below 32 val
  /\ 0 <= count_ones val <= 32
  /\ count_ones (u32 val) = count_ones val.
Proof.
  assert (E : forall v, count_ones v = ones_below 32 v).
  { intros v. unfold count_ones, upto. rewrite count_ones_loop.
    cbn [fst]. rewrite Z.add_0_l. unfold ones_below. f_equal.
    apply map_ext_in. intros i Hi. apply count_from_range in Hi.
    f_equal. unfold u32. rewrite Z.land_spec.
    change 0xFFFFFFFF with (Z.ones 32).
    rewrite Z.ones_spec_low by lia. apply andb_true_r. }
  split; [apply E|]. split.
  - rewrite E. apply (ones_below_bound 32).
  - rewrite !E. unfold ones_below. f_equal.
    apply map_ext_in. intros i Hi. apply count_from_range in Hi.
    f_equal. unfold u32. rewrite Z.land_spec.
    change 0xFFFFFFFF with (Z.ones 32).
    rewrite Z.ones_spec_low by lia. apply andb_true_r.
Qed.

(** ** The Signal Sampler holds the last 32 samples *)

Lemma sampler_step_acc (prev count acc byte : Z) :
  0 <= acc < 2 ^ 32 ->
  let acc' := snd (sampler_step (prev, count, acc) byte) in
  0 <= acc' < 2 ^ 32
  /\ forall i, 0 <= i < 32 ->
       Z.testbit acc' i
       = if i =? 31 then level_of byte else Z.testbit acc (i + 1).
Proof.
  intros Ha. cbv zeta. unfold sampler_step, level_of. cbn [snd].
  assert (Hs : 0 <= Z.shiftr acc 1 < 2 ^ 31).
  { rewrite Z.shiftr_div_pow2 by lia. change (2 ^ 1) with 2.
    change (2 ^ 32) with (2 * 2 ^ 31) in Ha. split.
    - apply Z.div_pos; lia.
    - apply Z.div_lt_upper_bound; lia. }
  assert (H31 : Z.testbit (Z.shiftr acc 1) 31 = false).
  { destruct (Z.eq_dec (Z.shiftr acc 1) 0) as [->|Hne];
      [apply Z.testbit_0_l|].
    apply Z.bits_above_log2; [lia|].
    apply Z.log2_lt_pow2; lia. }
  destruct (byte =? 0); cbn [negb].
  - change (u32 (Z.lnot 0x80000000)) with (Z.ones 31).
    rewrite Z.land_ones by lia. rewrite Z.mod_small by lia. split.
    + change (2 ^ 32) with (2 * 2 ^ 31). lia.
    + intros i Hi. destruct (i =? 31) eqn:E.
      * apply Z.eqb_eq in E. subst i. exact H31.
      * rewrite Z.shiftr_spec by lia. reflexivity.
  - change 0x80000000 with (2 ^ 31). split.
    + assert (L : Z.land (Z.shiftr acc 1) (2 ^ 31) = 0).
      { apply Z.bits_inj'. intros n Hn.
        rewrite Z.land_spec, Z.bits_0, Z.pow2_bits_eqb by lia.
        destruct (Z.eqb_spec 31 n) as [<-|Hne];
          [now rewrite H31 | apply andb_false_r]. }
      rewrite <- (Z.lxor_lor _ _ L), <- (Z.add_nocarry_lxor _ _ L).
      change (2 ^ 32) with (2 ^ 31 + 2 ^ 31). lia.
    + intros i Hi. rewrite Z.lor_spec, Z.pow2_bits_eqb by lia.
      rewrite Z.shiftr_spec by lia. rewrite (Z.eqb_sym 31 i).
      destruct (i =? 31) eqn:E.
      * apply orb_true_r.
      * apply orb_false_r.
Qed.

Lemma sampler_run_snoc (bytes : list Z) (b : Z) :
  sampler_run (bytes ++ [b]) = sampler_step (sampler_run bytes) b.
Proof. unfold sampler_run. now rewrite fold_left_app. Qed.

Lemma sampler_word (bytes : list Z) :
  0 <= snd (sampler_run bytes) < 2 ^ 32
  /\ forall i, 0 <= i < 32 ->
       Z.testbit (snd (sampler_run bytes)) i = captured_bit bytes i.
Proof.
  induction bytes as [|b bytes [Hr Hb]] using rev_ind.
  - split; [cbn; lia|]. intros i Hi. unfold captured_bit.
    cbn [sampler_run fold_left snd List.length Z.of_nat].
    rewrite Z.testbit_0_l. symmetry. apply andb_false_iff. left.
    apply Z.leb_gt. lia.
  - rewrite sampler_run_snoc.
    destruct (sampler_run bytes) as [[prev count] acc]. cbn [snd] in Hr, Hb.
    destruct (sampler_step_acc prev count acc b Hr) as [Hr' Hb'].
    split; [exact Hr'|]. intros i Hi. rewrite (Hb' i Hi).
    unfold captured_bit. rewrite length_app. cbn [List.length].
    rewrite Nat2Z.inj_add. cbn [Z.of_nat Pos.of_succ_nat].
    destruct (Z.eqb_spec i 31) as [->|Hne].
    + replace (Z.of_nat (List.length bytes) + 1 - 32 + 31)
        with (Z.of_nat (List.length bytes)) by lia.
      rewrite Nat2Z.id, nth_middle.
      destruct (Z.leb_spec 0 (Z.of_nat (List.length bytes))); [reflexivity|lia].
    + rewrite Hb by lia. unfold captured_bit.
      replace (Z.of_nat (List.length bytes) + 1 - 32 + i)
        with (Z.of_nat (List.length bytes) - 32 + (i + 1)) by lia.
      destruct (Z.leb_spec 0 (Z.of_nat (List.length bytes) - 32 + (i + 1)))
        as [Hk|Hk]; [|reflexivity].
      cbn [andb]. rewrite app_nth1 by lia. reflexivity.
Qed.

Lemma sampler_prev (bytes : list Z) :
  fst (fst (sampler_run bytes)) = last bytes 0.
Proof.
  induction bytes as [|b bytes _] using rev_ind; [reflexivity|].
  rewrite sampler_run_snoc, last_last.
  destruct (sampler_run bytes) as [[prev count] acc]. reflexivity.
Qed.

(** The Signal Sampler, started from its cleared variables and fed any
    sequence of bytes, ends with the last byte as previous sample, with the
    number of level changes modulo 256 as toggle count, and with the last
    32 samples in the captured word: the newest at bit 31, the one before at
    bit 30, and so on; positions not yet reached by a sample are 0 and
    nothing is ever stored above bit 31. *)
Theorem sampler_holds_last_32_samples (bytes : list Z) :
  let '(prev, count, acc) := sampler_run bytes in
  prev = last bytes 0
  /\ count = toggles 0x00 bytes mod 256
  /\ 0 <= acc < 2 ^ 32
  /\ forall i, 0 <= i < 32 -> Z.testbit acc i = captured_bit bytes i.
Proof.
  pose proof (sampler_prev bytes) as Hp.
  pose proof (sampler_count bytes 0 0 0 ltac:(lia)) as Hc.
  pose proof (sampler_word bytes) as [Hr Hb].
  fold (sampler_run bytes) in Hc.
  destruct (sampler_run bytes) as [[prev count] acc].
  cbn [fst snd] in *. rewrite Z.add_0_l in Hc. auto.
Qed.

(** ** What the pin layer does to the registers *)

Ltac bits :=
  cbn -[Z.testbit Z.land Z.lor Z.lnot u8];
  rewrite ?testbit_u8 by lia;
  rewrite ?Z.land_spec, ?Z.lor_spec, ?Z.lnot_spec by lia;
  rewrite ?testbit_u8 by lia;
  cbn;
  rewrite ?andb_false_r, ?andb_true_r, ?orb_true_r, ?orb_false_r;
  auto.


Section PinEffects.

Context {W : Type} {target : Target W}.

Implicit Types s : machine W.

Lemma wired_range (pin : Z) : wired pin = true -> 0 <= pin < 16.
Proof.
  unfold wired, non_reserved_pins. cbn [existsb].
  rewrite !orb_true_iff, !Z.eqb_eq. lia.
Qed.

Ltac by_branch pin :=
  unfold wired, non_reserved_pins; cbn [existsb];
  repeat match goal with
         | |- context [pin =? ?k] =>
             destruct (Z.eqb_spec pin k) as [->|?]; [reflexivity|]
         end;
  reflexivity.

(** The cascades of the pin layer, by port. *)
Lemma set_pin_branch pin s :
  set_pin pin s
  = let s' := emit (SetPin pin) s in
    if wired pin then
      if pin <? 8 then wr_P1OUT (Z.lor (P1OUT (io s')) (mask_of pin)) s'
      else wr_P2OUT (Z.lor (P2OUT (io s')) (mask_of pin)) s'
    else s'.
Proof. unfold set_pin. cbv zeta. by_branch pin. Qed.

Lemma clr_pin_branch pin s :
  clr_pin pin s
  = let s' := emit (ClrPin pin) s in
    if wired pin then
      if pin <? 8
      then wr_P1OUT (Z.land (P1OUT (io s')) (Z.lnot (mask_of pin))) s'
      else wr_P2OUT (Z.land (P2OUT (io s')) (Z.lnot (mask_of pin))) s'
    else s'.
Proof. unfold clr_pin. cbv zeta. by_branch pin. Qed.

Lemma set_pin_to_input_branch pin s :
  set_pin_to_input pin s
  = let s' := emit (CfgInput pin) s in
    if wired pin then
      if pin <? 8 then input_P1 (mask_of pin) s'
      else input_P2 (mask_of pin) s'
    else s'.
Proof. unfold set_pin_to_input. cbv zeta. by_branch pin. Qed.

Lemma set_pin_to_output_branch pin s :
  set_pin_to_output pin s
  = let s' := emit (CfgOutput pin) s in
    if wired pin then
      if pin <? 8 then output_P1 (mask_of pin) s'
      else output_P2 (mask_of pin) s'
    else s'.
Proof. unfold set_pin_to_output. cbv zeta. by_branch pin. Qed.

Lemma pin_byte_branch pin (w : W) :
  pin_byte pin w
  = if wired pin then
      if pin <? 8 then Z.land (u8 (P1IN w)) (mask_of pin)
      else Z.land (u8 (P2IN w)) (mask_of pin)
    else 0.
Proof. unfold pin_byte. by_branch pin. Qed.


Lemma testbit_mask_of (pin i : Z) :
  0 <= pin < 16 -> 0 <= i ->
  Z.testbit (mask_of pin) i
  = if pin <? 8 then i =? pin else i =? pin - 8.
Proof.
  intros Hp Hi. unfold mask_of.
  destruct (Z.ltb_spec pin 8);
    rewrite Z.shiftl_1_l, Z.pow2_bits_eqb by lia; apply Z.eqb_sym.
Qed.

Ltac port_bits Hp :=
  cbn -[Z.testbit Z.land Z.lor Z.lnot u8 mask_of Z.ltb Z.eqb Z.sub];
  repeat match goal with
         | |- context [?a <? ?b] => destruct (Z.ltb_spec a b); try lia
         end;
  rewrite ?testbit_u8 by lia;
  rewrite ?Z.land_spec, ?Z.lor_spec, ?Z.lnot_spec by lia;
  rewrite ?testbit_u8 by lia;
  rewrite ?(testbit_mask_of _ _ Hp) by lia;
  repeat match goal with
         | |- context [?a <? ?b] => destruct (Z.ltb_spec a b); try lia
         end;
  repeat match goal with
         | |- context [?a =? ?b] => destruct (Z.eqb_spec a b); try lia
         end;
  cbn [andb orb negb];
  rewrite ?andb_false_r, ?andb_true_r, ?orb_true_r, ?orb_false_r;
  try reflexivity.

Ltac open_pin f_branch pin :=
  rewrite f_branch; cbv zeta;
  destruct (wired pin) eqn:Hw; [|cbn [andb orb negb]; reflexivity];
  pose proof (wired_range pin Hw) as Hp;
  cbn [andb orb negb];
  unfold dir_bit, ren_bit, out_bit;
  destruct (Z.ltb_spec pin 8).

Lemma out_bit_set_pin pin q s :
  0 <= q < 16 ->
  out_bit (io (set_pin pin s)) q
  = (wired pin && (q =? pin)) || out_bit (io s) q.
Proof. intros Hq. open_pin set_pin_branch pin; port_bits Hp. Qed.

Lemma out_bit_clr_pin pin q s :
  0 <= q < 16 ->
  out_bit (io (clr_pin pin s)) q
  = negb (wired pin && (q =? pin)) && out_bit (io s) q.
Proof. intros Hq. open_pin clr_pin_branch pin; port_bits Hp. Qed.


Lemma frame_set_pin pin s :
  (P1DIR (io (set_pin pin s)), P1REN (io (set_pin pin s)),
   P2DIR (io (set_pin pin s)), P2REN (io (set_pin pin s)))
  = (P1DIR (io s), P1REN (io s), P2DIR (io s), P2REN (io s))
  /\ world (set_pin pin s)
     = if wired pin then react (io (set_pin pin s)) (world s) else world s.
Proof.
  rewrite set_pin_branch. cbv zeta.
  destruct (wired pin), (pin <? 8); split; reflexivity.
Qed.

Lemma frame_clr_pin pin s :
  (P1DIR (io (clr_pin pin s)), P1REN (io (clr_pin pin s)),
   P2DIR (io (clr_pin pin s)), P2REN (io (clr_pin pin s)))
  = (P1DIR (io s), P1REN (io s), P2DIR (io s), P2REN (io s))
  /\ world (clr_pin pin s)
     = if wired pin then react (io (clr_pin pin s)) (world s) else world s.
Proof.
  rewrite clr_pin_branch. cbv zeta.
  destruct (wired pin), (pin <? 8); split; reflexivity.
Qed.

Lemma bits_set_pin_to_input pin q s :
  0 <= q < 16 ->
  dir_bit (io (set_pin_to_input pin s)) q
  = negb (wired pin && (q =? pin)) && dir_bit (io s) q
  /\ ren_bit (io (set_pin_to_input pin s)) q
     = (wired pin && (q =? pin)) || ren_bit (io s) q
  /\ out_bit (io (set_pin_to_input pin s)) q
     = negb (wired pin && (q =? pin)) && out_bit (io s) q.
Proof.
  intros Hq. repeat split; open_pin set_pin_to_input_branch pin; port_bits Hp.
Qed.

Lemma bits_set_pin_to_output pin q s :
  0 <= q < 16 ->
  dir_bit (io (set_pin_to_output pin s)) q
  = (wired pin && (q =? pin)) || dir_bit (io s) q
  /\ ren_bit (io (set_pin_to_output pin s)) q
     = negb (wired pin && (q =? pin)) && ren_bit (io s) q
  /\ out_bit (io (set_pin_to_output pin s)) q
     = negb (wired pin && (q =? pin)) && out_bit (io s) q.
Proof.
  intros Hq. repeat split; open_pin set_pin_to_output_branch pin; port_bits Hp.
Qed.

Lemma bits_set_all_pins_to_inputs q s :
  0 <= q < 16 ->
  dir_bit (io (set_all_pins_to_inputs s)) q
  = reserved q && dir_bit (io s) q
  /\ ren_bit (io (set_all_pins_to_inputs s)) q
     = negb (reserved q) || ren_bit (io s) q
  /\ out_bit (io (set_all_pins_to_inputs s)) q
     = if q <? 8 then negb (reserved q) && out_bit (io s) q else true.
Proof.
  intros Hq.
  assert (C : In q (upto 16)) by (apply in_upto; cbn; lia).
  cbv [upto count_from Z.add Pos.add Pos.succ] in C. cbn [In] in C.
  unfold dir_bit, ren_bit, out_bit, reserved.
  repeat (destruct C as [<-|C]; [repeat split; bits|]).
  destruct C.
Qed.

(** [set_pin] and [clr_pin] write one bit: the output bit of their pin
    becomes 1, respectively 0, when the pin has a branch (ordinals 0 and 3
    to 15), the output bits of all other pins and the direction and
    pull-resistor registers stay as they were, and the target sees one
    store.  For any other ordinal (the uart pins 1 and 2, or a number above
    15) no register is written. *)
Theorem set_pin_and_clr_pin_write_one_bit pin s :
  Forall (fun q =>
            out_bit (io (set_pin pin s)) q
            = (wired pin && (q =? pin)) || out_bit (io s) q
            /\ out_bit (io (clr_pin pin s)) q
               = negb (wired pin && (q =? pin)) && out_bit (io s) q)
         (upto 16)
  /\ (P1DIR (io (set_pin pin s)), P1REN (io (set_pin pin s)),
      P2DIR (io (set_pin pin s)), P2REN (io (set_pin pin s)))
     = (P1DIR (io s), P1REN (io s), P2DIR (io s), P2REN (io s))
  /\ (P1DIR (io (clr_pin pin s)), P1REN (io (clr_pin pin s)),
      P2DIR (io (clr_pin pin s)), P2REN (io (clr_pin pin s)))
     = (P1DIR (io s), P1REN (io s), P2DIR (io s), P2REN (io s))
  /\ world (set_pin pin s)
     = (if wired pin then react (io (set_pin pin s)) (world s) else world s)
  /\ world (clr_pin pin s)
     = (if wired pin then react (io (clr_pin pin s)) (world s) else world s).
Proof.
  destruct (frame_set_pin pin s) as [Fs Ws].
  destruct (frame_clr_pin pin s) as [Fc Wc].
  repeat split; try assumption.
  apply Forall_forall. intros q Hq. apply count_from_range in Hq.
  split; [apply out_bit_set_pin | apply out_bit_clr_pin]; cbn in Hq; lia.
Qed.

(** [set_pin_to_input] and [set_pin_to_output] configure one pin: for a pin
    with a branch, the first leaves it an input with the pull resistor
    enabled and the output bit 0, the second an output with the pull
    resistor disabled and the output bit 0; the three bits of every other
    pin stay as they were, and for an ordinal without a branch nothing
    changes. *)
Theorem pin_direction_changes_one_pin pin s :
  Forall (fun q =>
            let hit := wired pin && (q =? pin) in
            dir_bit (io (set_pin_to_input pin s)) q
            = negb hit && dir_bit (io s) q
            /\ ren_bit (io (set_pin_to_input pin s)) q
               = hit || ren_bit (io s) q
            /\ out_bit (io (set_pin_to_input pin s)) q
               = negb hit && out_bit (io s) q
            /\ dir_bit (io (set_pin_to_output pin s)) q
               = hit || dir_bit (io s) q
            /\ ren_bit (io (set_pin_to_output pin s)) q
               = negb hit && ren_bit (io s) q
            /\ out_bit (io (set_pin_to_output pin s)) q
               = negb hit && out_bit (io s) q)
         (upto 16).
Proof.
  apply Forall_forall. intros q Hq. apply count_from_range in Hq.
  cbv zeta.
  destruct (bits_set_pin_to_input pin q s) as (A & B & C); [cbn in Hq; lia|].
  destruct (bits_set_pin_to_output pin q s) as (D & E & F); [cbn in Hq; lia|].
  repeat split; assumption.
Qed.

(** [set_all_pins_to_inputs], pin by pin: every pin but the two uart pins
    becomes an input with its pull resistor enabled, and the direction and
    pull-resistor bits of the uart pins are kept.  The output bits of port 2
    become 1, but [P1OUT &= 0xF9] leaves the output bits of pins 0 and 3 to 7
    as they were and clears those of the uart pins. *)
Theorem set_all_pins_to_inputs_pin_by_pin s :
  Forall (fun q =>
            dir_bit (io (set_all_pins_to_inputs s)) q
            = reserved q && dir_bit (io s) q
            /\ ren_bit (io (set_all_pins_to_inputs s)) q
               = negb (reserved q) || ren_bit (io s) q
            /\ out_bit (io (set_all_pins_to_inputs s)) q
               = if q <? 8 then negb (reserved q) && out_bit (io s) q
                 else true)
         (upto 16).
Proof.
  apply Forall_forall. intros q Hq. apply count_from_range in Hq.
  apply bits_set_all_pins_to_inputs. cbn in Hq. lia.
Qed.

Lemma land_mask (x k : Z) :
  0 <= k < 8 ->
  Z.land (u8 x) (Z.shiftl 1 k) = if Z.testbit x k then Z.shiftl 1 k else 0.
Proof.
  intros Hk. rewrite Z.shiftl_1_l. apply Z.bits_inj'. intros n Hn.
  rewrite Z.land_spec, Z.pow2_bits_eqb by lia.
  destruct (Z.eqb_spec k n) as [<-|Hne].
  - rewrite testbit_u8 by lia. rewrite andb_true_r.
    destruct (Z.testbit x k) eqn:E.
    + rewrite Z.pow2_bits_eqb by lia. now rewrite Z.eqb_refl.
    + now rewrite Z.bits_0.
  - rewrite andb_false_r. destruct (Z.testbit x k).
    + rewrite Z.pow2_bits_eqb by lia. symmetry. now apply Z.eqb_neq.
    + now rewrite Z.bits_0.
Qed.

Lemma pin_byte_in_bit pin (w : W) :
  pin_byte pin w = if wired pin && in_bit w pin then mask_of pin else 0.
Proof.
  rewrite pin_byte_branch. destruct (wired pin) eqn:Hw; [|reflexivity].
  apply wired_range in Hw. cbn [andb]. unfold in_bit, mask_of.
  destruct (Z.ltb_spec pin 8); apply land_mask; lia.
Qed.

(** [read_pin] returns the mask of the pin when the input bit of the pin is
    set in its port's input register and 0x00 when it is clear; for an
    ordinal without a branch it returns 0x00 whatever the inputs are.  It
    writes no register and the target does not see it. *)
Theorem read_pin_returns_input_bit pin s :
  fst (read_pin pin s)
  = (if wired pin && in_bit (world s) pin then mask_of pin else 0)
  /\ level_of (fst (read_pin pin s)) = wired pin && in_bit (world s) pin
  /\ io (snd (read_pin pin s)) = io s
  /\ world (snd (read_pin pin s)) = world s.
Proof.
  unfold read_pin. cbn [fst snd]. rewrite pin_byte_in_bit.
  repeat split. unfold level_of.
  destruct (wired pin) eqn:Hw; [|reflexivity].
  apply wired_range in Hw. cbn [andb].
  destruct (in_bit (world s) pin); [|reflexivity].
  assert (H : 0 < mask_of pin).
  { unfold mask_of. destruct (Z.ltb_spec pin 8); rewrite Z.shiftl_1_l;
      apply Z.pow_pos_nonneg; lia. }
  destruct (Z.eqb_spec (mask_of pin) 0); [lia | reflexivity].
Qed.

End PinEffects.

(** ** The SWD bit-banging helpers *)

Section SwdHelpers.

Context {W : Type} {target : Target W}.

Implicit Types s : machine W.

Lemma for_each_nil {S : Type} (body : Z -> S -> S) (st : S) :
  for_each [] body st = st.
Proof. reflexivity. Qed.

Lemma land_pow2 (x k : Z) :
  0 <= k -> Z.land x (2 ^ k) = if Z.testbit x k then 2 ^ k else 0.
Proof.
  intros Hk. apply Z.bits_inj'. intros n Hn.
  rewrite Z.land_spec, Z.pow2_bits_eqb by lia.
  destruct (Z.eqb_spec k n) as [<-|Hne].
  - rewrite andb_true_r. destruct (Z.testbit x k) eqn:E.
    + rewrite Z.pow2_bits_eqb by lia. now rewrite Z.eqb_refl.
    + now rewrite Z.bits_0.
  - rewrite andb_false_r. destruct (Z.testbit x k).
    + rewrite Z.pow2_bits_eqb by lia. symmetry. now apply Z.eqb_neq.
    + now rewrite Z.bits_0.
Qed.

Lemma waveform_then (clk dat : Z) (e : event) (evs : list event) :
  e <> SetPin clk ->
  forall c d,
    waveform clk dat c d (evs ++ [e]) = waveform clk dat c d evs.
Proof.
  intros He. induction evs as [|x evs IH]; intros c d.
  - cbn [app]. destruct e; try reflexivity; cbn [waveform].
    + destruct (Z.eqb_spec pin clk) as [->|]; [congruence|].
      now destruct (pin =? dat).
    + now destruct (pin =? clk), (pin =? dat).
  - cbn [app]. destruct x; cbn [waveform]; try apply IH.
    + destruct (pin =? clk); [destruct c; now rewrite IH|].
      destruct (pin =? dat); apply IH.
    + destruct (pin =? clk); [apply IH|]. destruct (pin =? dat); apply IH.
Qed.

(** The clock pulses of [send_fixed_swd_pattern]. *)
Lemma fixed_pulses swclk swdio (n : nat) :
  swclk <> swdio ->
  forall j s,
    exists new,
      log (for_each (count_from n j)
             (fun _ s => set_pin swclk (clr_pin swclk s)) s)
      = rev new ++ log s
      /\ forall c d, waveform swclk swdio c d new = repeat d n.
Proof.
  intros Hne. induction n as [|n IH]; intros j s.
  - exists []. split; reflexivity.
  - cbn [count_from]. rewrite for_each_cons.
    destruct (IH (j + 1) (set_pin swclk (clr_pin swclk s)))
      as (new & Hl & Hw).
    exists (ClrPin swclk :: SetPin swclk :: new). split.
    + rewrite Hl, log_set_pin, log_clr_pin. cbn [rev].
      now rewrite <- !app_assoc.
    + intros c d. cbn [waveform repeat]. rewrite !Z.eqb_refl.
      now rewrite Hw.
Qed.

Lemma out_bit_other_set_pin pin q s :
  0 <= q < 16 -> q <> pin ->
  out_bit (io (set_pin pin s)) q = out_bit (io s) q.
Proof.
  intros Hq Hne. rewrite out_bit_set_pin by exact Hq.
  destruct (Z.eqb_spec q pin); [contradiction|].
  now rewrite andb_false_r.
Qed.

Lemma out_bit_other_clr_pin pin q s :
  0 <= q < 16 -> q <> pin ->
  out_bit (io (clr_pin pin s)) q = out_bit (io s) q.
Proof.
  intros Hq Hne. rewrite out_bit_clr_pin by exact Hq.
  destruct (Z.eqb_spec q pin); [contradiction|].
  now rewrite andb_false_r.
Qed.

Lemma out_bit_same_set_pin pin s :
  wired pin = true -> out_bit (io (set_pin pin s)) pin = true.
Proof.
  intros Hw. rewrite out_bit_set_pin by now apply wired_range.
  now rewrite Hw, Z.eqb_refl.
Qed.

Lemma out_bit_same_clr_pin pin s :
  wired pin = true -> out_bit (io (clr_pin pin s)) pin = false.
Proof.
  intros Hw. rewrite out_bit_clr_pin by now apply wired_range.
  now rewrite Hw, Z.eqb_refl.
Qed.

Lemma valid_pair (a b : Z) :
  valid_roles [a; b] = true -> wired a = true /\ wired b = true /\ a <> b.
Proof.
  unfold valid_roles, wired, non_reserved_pins, reserved, PINS.
  cbn [distinct existsb forallb]. intros H.
  repeat (apply andb_true_iff in H as [H ?]).
  repeat match goal with
         | X : _ && _ = true |- _ => apply andb_true_iff in X as [? ?]
         | X : negb _ = true |- _ => apply negb_true_iff in X
         | X : _ || _ = false |- _ => apply orb_false_iff in X as [? ?]
         end.
  rewrite !orb_true_iff, !Z.eqb_eq. 
  repeat match goal with
         | X : (_ =? _) = false |- _ => apply Z.eqb_neq in X
         end.
  lia.
Qed.

(** [send_fixed_swd_pattern(val, num)] clocks out [num] bits, all at the
    level [val == 1]: swdio is high for [val] 1 and low for every other
    value, swclk rises [num] times (never for [num] 0) and is low at the
    end. *)
Theorem send_fixed_swd_pattern_clocks_one_level swclk swdio val num c d s :
  valid_roles [swclk; swdio] = true ->
  exists new,
    history (send_fixed_swd_pattern swclk swdio val num s) = history s ++ new
    /\ waveform swclk swdio c d new
       = repeat (u8 val =? 1) (Z.to_nat (u16 num))
    /\ out_bit (io (send_fixed_swd_pattern swclk swdio val num s)) swclk
       = false
    /\ out_bit (io (send_fixed_swd_pattern swclk swdio val num s)) swdio
       = (u8 val =? 1).
Proof.
  intros Hv. destruct (valid_pair _ _ Hv) as (Hc & Hd & Hne).
  pose proof (wired_range _ Hc) as Rc. pose proof (wired_range _ Hd) as Rd.
  unfold send_fixed_swd_pattern. cbv zeta. unfold upto.
  set (s1 := if u8 val =? 1 then set_pin swdio s else clr_pin swdio s).
  set (loop := for_each (count_from (Z.to_nat (u16 num)) 0)
                (fun _ t => set_pin swclk (clr_pin swclk t)) s1).
  assert (L1 : log s1
               = (if u8 val =? 1 then SetPin swdio else ClrPin swdio)
                 :: log s).
  { unfold s1. destruct (u8 val =? 1);
      [apply log_set_pin | apply log_clr_pin]. }
  assert (O1 : out_bit (io s1) swdio = (u8 val =? 1)).
  { unfold s1. destruct (u8 val =? 1);
      [now apply out_bit_same_set_pin | now apply out_bit_same_clr_pin]. }
  destruct (fixed_pulses swclk swdio (Z.to_nat (u16 num)) Hne 0 s1)
    as (new & Hl & Hw).
  fold loop in Hl.
  assert (O2 : out_bit (io loop) swdio = out_bit (io s1) swdio).
  { unfold loop.
    apply (for_each_preorder
             (fun a b => out_bit (io b) swdio = out_bit (io a) swdio)).
    - reflexivity.
    - intros x y z H1 H2. now rewrite H2.
    - intros j t _.
      rewrite out_bit_other_set_pin, out_bit_other_clr_pin by auto.
      reflexivity. }
  exists ((if u8 val =? 1 then SetPin swdio else ClrPin swdio)
          :: new ++ [ClrPin swclk]).
  split; [|split; [|split]].
  - apply history_continues. unfold continues.
    rewrite log_clr_pin, Hl, L1. cbn [rev]. rewrite rev_app_distr.
    cbn [rev app]. now rewrite <- !app_assoc.
  - assert (E : forall b : bool, waveform swclk swdio c d
                  ((if b then SetPin swdio else ClrPin swdio)
                   :: new ++ [ClrPin swclk])
                = repeat b (Z.to_nat (u16 num))).
    { intros b.
      assert (F : (swdio =? swclk) = false) by (apply Z.eqb_neq; auto).
      destruct b; cbn [waveform]; rewrite F, Z.eqb_refl;
        rewrite waveform_then by discriminate; apply Hw. }
    apply E.
  - now apply out_bit_same_clr_pin.
  - rewrite out_bit_other_clr_pin by auto. now rewrite O2.
Qed.



Lemma msb_test (pattern : Z) :
  (Z.land pattern 0x8000 =? 0) = negb (Z.testbit pattern 15).
Proof.
  change 0x8000 with (2 ^ 15). rewrite land_pow2 by lia.
  now destruct (Z.testbit pattern 15).
Qed.

Lemma testbit_shifted (pattern m : Z) :
  m < 16 ->
  Z.testbit (u16 (Z.shiftl pattern 1)) m = Z.testbit pattern (m - 1).
Proof.
  intros Hm. destruct (Z.ltb_spec m 0).
  - now rewrite !Z.testbit_neg_r by lia.
  - unfold u16. rewrite Z.land_spec. change 0xFFFF with (Z.ones 16).
    rewrite Z.ones_spec_low by lia. rewrite andb_true_r.
    now rewrite Z.shiftl_spec by lia.
Qed.

(** The 16 rounds of [send_16bit_swd_pattern]. *)
Lemma shifted_bits swclk swdio (n : nat) :
  swclk <> swdio ->
  forall j pattern s,
    exists new,
      log (snd (for_each (count_from n j)
                  (fun _ (ps : Z * machine W) =>
                     let (pattern, s) := ps in
                     let s := clr_pin swclk s in
                     let s := if Z.land pattern 0x8000 =? 0
                              then clr_pin swdio s
                              else set_pin swdio s in
                     let s := set_pin swclk s in
                     (u16 (Z.shiftl pattern 1), s))
                  (pattern, s)))
      = rev new ++ log s
      /\ forall c d,
           waveform swclk swdio c d new
           = map (fun i => Z.testbit pattern (15 - i)) (count_from n 0).
Proof.
  intros Hne.
  match goal with |- context [for_each _ ?b _] => set (body := b) end.
  induction n as [|n IH]; intros j pattern s.
  - exists []. split; reflexivity.
  - cbn [count_from]. rewrite for_each_cons.
    change (body j (pattern, s))
      with (u16 (Z.shiftl pattern 1),
            set_pin swclk
              (if Z.land pattern 0x8000 =? 0
               then clr_pin swdio (clr_pin swclk s)
               else set_pin swdio (clr_pin swclk s))).
    rewrite msb_test.
    match goal with
    | |- context [for_each _ _ (?p, ?t)] =>
        destruct (IH (j + 1) p t) as (new & Hl & Hw)
    end.
    exists (ClrPin swclk
            :: (if Z.testbit pattern 15 then SetPin swdio else ClrPin swdio)
            :: SetPin swclk :: new).
    assert (F : (swdio =? swclk) = false) by (apply Z.eqb_neq; auto).
    split.
    + rewrite Hl, log_set_pin.
      destruct (Z.testbit pattern 15); cbn [negb];
        rewrite ?log_set_pin, ?log_clr_pin; cbn [rev];
        now rewrite <- !app_assoc.
    + intros c d. cbn [map]. rewrite (map_count_from_succ _ n 0).
      change (15 - 0) with 15.
      destruct (Z.testbit pattern 15) eqn:E;
        repeat (cbn [waveform]; rewrite ?F, ?Z.eqb_refl);
        rewrite Hw; f_equal;
        apply map_ext_in; intros i Hi; apply count_from_range in Hi;
        rewrite testbit_shifted by lia; f_equal; lia.
Qed.

(** [send_16bit_swd_pattern(pattern)], which the sketch defines and never
    calls, clocks out the low 16 bits of [pattern], bit 15 first and bit 0
    last, one per rising edge of swclk, and leaves swclk low. *)
Theorem send_16bit_swd_pattern_shifts_msb_first swclk swdio pattern c d s :
  valid_roles [swclk; swdio] = true ->
  exists new,
    history (send_16bit_swd_pattern swclk swdio pattern s) = history s ++ new
    /\ waveform swclk swdio c d new = msb_first16 pattern
    /\ out_bit (io (send_16bit_swd_pattern swclk swdio pattern s)) swclk
       = false.
Proof.
  intros Hv. destruct (valid_pair _ _ Hv) as (Hc & Hd & Hne).
  unfold send_16bit_swd_pattern. cbv zeta. unfold upto.
  destruct (shifted_bits swclk swdio 16 Hne 0 (u16 pattern) s)
    as (new & Hl & Hw).
  cbv zeta in Hl.
  exists (new ++ [ClrPin swclk]). split; [|split].
  - apply history_continues. unfold continues.
    rewrite log_clr_pin, Hl, rev_app_distr. reflexivity.
  - rewrite waveform_then by discriminate. rewrite Hw.
    unfold msb_first16, upto. apply map_ext_in. intros i Hi.
    apply count_from_range in Hi. unfold u16. rewrite Z.land_spec.
    change 0xFFFF with (Z.ones 16).
    rewrite Z.ones_spec_low by lia. apply andb_true_r.
  - now apply out_bit_same_clr_pin.
Qed.

End SwdHelpers.

(** ** The clocks of the bypass method *)

Section BypassSequence.

Context {W : Type} {target : Target W}.

Implicit Types s : machine W.

(** As [sampled_loop], with the origin of the bytes: each is what the pin
    showed in some state of the target. *)
Lemma sampled_loop_bytes (body pre : Z -> machine W -> machine W)
    (ops : Z -> list event) (reads_at : Z -> bool) (pin : Z) (l : list Z) :
  (forall j s, body j s = if reads_at j then sample pin (pre j s)
                          else pre j s) ->
  (forall j s, log (pre j s) = rev (ops j) ++ log s
               /\ sampler_of (pre j s) = sampler_of s) ->
  forall s,
    exists bytes,
      List.length bytes = List.length (filter reads_at l)
      /\ Forall (fun b => exists w, b = pin_byte pin w) bytes
      /\ log (for_each l body s)
         = rev (loop_events ops reads_at pin l bytes) ++ log s
      /\ sampler_of (for_each l body s)
         = fold_left sampler_step bytes (sampler_of s).
Proof.
  intros Hbody Hpre. induction l as [|j l IH]; intros s.
  - exists []. repeat split. constructor.
  - rewrite for_each_cons, Hbody. cbn [filter loop_events].
    destruct (Hpre j s) as [Hlog Hsam]. destruct (reads_at j).
    + destruct (IH (sample pin (pre j s))) as (bytes & Hlen & Hfrom & Hl & Hs).
      exists (pin_byte pin (world (pre j s)) :: bytes).
      split; [|split; [|split]].
      * cbn [List.length]. now rewrite Hlen.
      * constructor; [now exists (world (pre j s)) | exact Hfrom].
      * rewrite Hl, log_sample, Hlog, rev_app_distr. cbn [rev app].
        now rewrite <- !app_assoc.
      * rewrite Hs, sampler_of_sample, Hsam. reflexivity.
    + destruct (IH (pre j s)) as (bytes & Hlen & Hfrom & Hl & Hs).
      exists bytes. split; [|split; [|split]].
      * exact Hlen.
      * exact Hfrom.
      * rewrite Hl, Hlog, rev_app_distr. now rewrite app_assoc.
      * now rewrite Hs, Hsam.
Qed.

Lemma length_nil_inv {X : Type} (l : list X) : List.length l = 0%nat -> l = [].
Proof. now destruct l. Qed.

Lemma loop_events_no_reads ops pin (l : list Z) :
  loop_events ops (fun _ => false) pin l [] = flat_map ops l.
Proof.
  induction l as [|j l IH]; [reflexivity|].
  cbn [loop_events flat_map]. now rewrite IH.
Qed.

(** A loop that only performs fixed pin operations. *)
Lemma blind_loop (body : Z -> machine W -> machine W)
    (ops : Z -> list event) (l : list Z) :
  (forall j s, log (body j s) = rev (ops j) ++ log s
               /\ sampler_of (body j s) = sampler_of s) ->
  forall s,
    log (for_each l body s) = rev (flat_map ops l) ++ log s
    /\ sampler_of (for_each l body s) = sampler_of s.
Proof.
  intros Hbody s.
  destruct (sampled_loop body body ops (fun _ => false) 0 l
              ltac:(reflexivity) Hbody s) as (bytes & Hlen & Hl & Hs).
  assert (E : bytes = []).
  { apply length_nil_inv. rewrite Hlen. clear.
    induction l as [|j l IH]; [reflexivity | exact IH]. }
  subst bytes. rewrite loop_events_no_reads in Hl. now split.
Qed.

Lemma bypass_reset_events tck tms tdi s :
  log (bypass_reset tck tms tdi s)
  = rev ([SetPin tms; ClrPin tdi]
         ++ flat_map (bypass_reset_ops tck tms) (upto 9))
    ++ log s
  /\ sampler_of (bypass_reset tck tms tdi s) = sampler_of s.
Proof.
  unfold bypass_reset. cbv zeta.
  destruct (blind_loop
              (fun j s =>
                 pulse tck
                   (if j =? 5 then clr_pin tms s
                    else if j =? 6 then set_pin tms s
                    else if j =? 7 then clr_pin tms s
                    else s))
              (bypass_reset_ops tck tms) (upto 9))
    with (s := clr_pin tdi (set_pin tms s)) as (Hl & Hs).
  { intros j t. unfold bypass_reset_ops, pulse.
    destruct (j =? 5); [|destruct (j =? 6); [|destruct (j =? 7)]];
      repeat first [ rewrite log_set_pin | rewrite log_clr_pin
                   | rewrite sampler_of_set_pin | rewrite sampler_of_clr_pin ];
      split; reflexivity. }
  split.
  - rewrite Hl, log_clr_pin, log_set_pin, rev_app_distr.
    cbn [rev app]. now rewrite <- !app_assoc.
  - now rewrite Hs, sampler_of_clr_pin, sampler_of_set_pin.
Qed.

Lemma bypass_flush_events tck s :
  log (bypass_flush tck s) = rev (flat_map (pulse_ops tck) (upto 64)) ++ log s
  /\ sampler_of (bypass_flush tck s) = sampler_of s.
Proof.
  unfold bypass_flush.
  apply (blind_loop (fun _ s => pulse tck s) (pulse_ops tck)).
  intros j t. unfold pulse, pulse_ops.
  now rewrite log_clr_pin, log_set_pin, sampler_of_clr_pin,
    sampler_of_set_pin.
Qed.

Lemma bypass_measure_events tck tms tdo tdi s :
  exists bytes,
    List.length bytes = 33%nat
    /\ Forall (fun b => exists w, b = pin_byte tdo w) bytes
    /\ log (bypass_measure tck tms tdo tdi s)
       = rev ([ClrPin tms]
              ++ loop_events (bypass_measure_ops tck tdi) (fun _ => true) tdo
                   (upto 33) bytes)
         ++ log s
    /\ sampler_of (bypass_measure tck tms tdo tdi s)
       = fold_left sampler_step bytes (sampler_of s).
Proof.
  unfold bypass_measure. cbv zeta.
  destruct (sampled_loop_bytes
              (fun j s =>
                 sample tdo
                   (pulse tck
                      (if j mod 4 =? 0 then set_pin tdi s
                       else clr_pin tdi s)))
              (fun j s =>
                 pulse tck
                   (if j mod 4 =? 0 then set_pin tdi s else clr_pin tdi s))
              (bypass_measure_ops tck tdi) (fun _ => true) tdo (upto 33))
    with (s := clr_pin tms s) as (bytes & Hlen & Hfrom & Hl & Hs).
  { reflexivity. }
  { intros j t. unfold bypass_measure_ops, pulse.
    destruct (j mod 4 =? 0);
      repeat first [ rewrite log_set_pin | rewrite log_clr_pin
                   | rewrite sampler_of_set_pin | rewrite sampler_of_clr_pin ];
      split; reflexivity. }
  exists bytes. split; [exact Hlen|]. split; [exact Hfrom|]. split.
  - rewrite Hl, log_clr_pin, rev_app_distr. cbn [rev app].
    now rewrite <- !app_assoc.
  - now rewrite Hs, sampler_of_clr_pin.
Qed.

(** The three phases in one. *)
Lemma bypass_shift_events tck tms tdo tdi s :
  exists bytes,
    List.length bytes = 33%nat
    /\ Forall (fun b => exists w, b = pin_byte tdo w) bytes
    /\ log (bypass_measure tck tms tdo tdi
              (bypass_flush tck (bypass_reset tck tms tdi s)))
       = rev (bypass_events tck tms tdo tdi bytes) ++ log s
    /\ sampler_of (bypass_measure tck tms tdo tdi
                     (bypass_flush tck (bypass_reset tck tms tdi s)))
       = fold_left sampler_step bytes (sampler_of s).
Proof.
  destruct (bypass_reset_events tck tms tdi s) as [L1 S1].
  destruct (bypass_flush_events tck (bypass_reset tck tms tdi s))
    as [L2 S2].
  destruct (bypass_measure_events tck tms tdo tdi
              (bypass_flush tck (bypass_reset tck tms tdi s)))
    as (bytes & Hlen & Hfrom & L3 & S3).
  exists bytes. split; [exact Hlen|]. split; [exact Hfrom|]. split.
  - rewrite L3, L2, L1. unfold bypass_events.
    rewrite !rev_app_distr, <- !app_assoc. reflexivity.
  - now rewrite S3, S2, S1.
Qed.

Lemma valid_quad (a b c d : Z) :
  valid_roles [a; b; c; d] = true ->
  a <> b /\ a <> c /\ a <> d /\ b <> c /\ b <> d /\ c <> d.
Proof.
  unfold valid_roles. cbn [distinct existsb]. intros H.
  apply andb_true_iff in H as [H _].
  repeat match goal with
         | X : _ && _ = true |- _ => apply andb_true_iff in X as [? ?]
         | X : negb _ = true |- _ => apply negb_true_iff in X
         | X : _ || _ = false |- _ => apply orb_false_iff in X as [? ?]
         | X : (_ =? _) = false |- _ => apply Z.eqb_neq in X
         end.
  repeat split; assumption.
Qed.

(** Clock pulses seen from another pin. *)
Lemma waveform_pulses clk dat (n : nat) :
  dat <> clk ->
  forall j d rest,
    waveform clk dat false d (flat_map (pulse_ops clk) (count_from n j) ++ rest)
    = repeat d n ++ waveform clk dat false d rest.
Proof.
  intros Hne. induction n as [|n IH]; intros j d rest; [reflexivity|].
  cbn [count_from flat_map pulse_ops app waveform repeat].
  rewrite !Z.eqb_refl. now rewrite IH.
Qed.

Lemma read_points_pulses clk pin (n : nat) :
  forall j k rest,
    read_points clk pin false k
      (flat_map (pulse_ops clk) (count_from n j) ++ rest)
    = read_points clk pin false (k + Z.of_nat n) rest.
Proof.
  induction n as [|n IH]; intros j k rest.
  - cbn [count_from flat_map app Z.of_nat]. now rewrite Z.add_0_r.
  - cbn [count_from flat_map pulse_ops app read_points].
    rewrite !Z.eqb_refl. rewrite IH. f_equal. lia.
Qed.

Lemma measure_waveforms tck tms tdo tdi (n : nat) :
  valid_roles [tck; tms; tdo; tdi] = true ->
  forall j bytes d k,
    List.length bytes = n ->
    waveform tck tms false d
      (loop_events (bypass_measure_ops tck tdi) (fun _ => true) tdo
         (count_from n j) bytes)
    = repeat d n
    /\ waveform tck tdi false d
         (loop_events (bypass_measure_ops tck tdi) (fun _ => true) tdo
            (count_from n j) bytes)
       = map (fun j => j mod 4 =? 0) (count_from n j)
    /\ read_points tck tdo false k
         (loop_events (bypass_measure_ops tck tdi) (fun _ => true) tdo
            (count_from n j) bytes)
       = count_from n (k + 1)
    /\ reads_of
         (loop_events (bypass_measure_ops tck tdi) (fun _ => true) tdo
            (count_from n j) bytes)
       = bytes.
Proof.
  intros Hv. destruct (valid_quad _ _ _ _ Hv) as (A & B & C & D & E & F).
  assert (E1 : (tdi =? tck) = false) by (apply Z.eqb_neq; auto).
  assert (E2 : (tdi =? tms) = false) by (apply Z.eqb_neq; auto).
  assert (E3 : (tck =? tms) = false) by (apply Z.eqb_neq; auto).
  assert (E4 : (tck =? tdi) = false) by (apply Z.eqb_neq; auto).
  induction n as [|n IH]; intros j bytes d k Hlen.
  - apply length_nil_inv in Hlen. subst bytes. repeat split.
  - destruct bytes as [|b bytes]; [discriminate|].
    injection Hlen as Hlen.
    cbn [count_from loop_events bypass_measure_ops app map repeat].
    destruct (IH (j + 1) bytes d (k + 1) Hlen) as (I1 & _ & I3 & I4).
    destruct (IH (j + 1) bytes (j mod 4 =? 0) (k + 1) Hlen)
      as (_ & I2 & _ & _).
    destruct (j mod 4 =? 0);
      repeat (cbn [waveform read_points reads_of];
              rewrite ?Z.eqb_refl, ?E1, ?E2, ?E3, ?E4);
      rewrite I1, I2, I3, I4; repeat split.
Qed.

(** [waveform] and [read_points], one event at a time. *)
Lemma waveform_rise clk dat d rest :
  waveform clk dat false d (SetPin clk :: rest)
  = d :: waveform clk dat true d rest.
Proof. cbn [waveform]. now rewrite Z.eqb_refl. Qed.

Lemma waveform_fall clk dat c d rest :
  waveform clk dat c d (ClrPin clk :: rest) = waveform clk dat false d rest.
Proof. cbn [waveform]. now rewrite Z.eqb_refl. Qed.

Lemma waveform_set clk dat c d rest :
  dat <> clk ->
  waveform clk dat c d (SetPin dat :: rest) = waveform clk dat c true rest.
Proof.
  intros H. apply Z.eqb_neq in H. cbn [waveform].
  now rewrite H, Z.eqb_refl.
Qed.

Lemma waveform_clr clk dat c d rest :
  dat <> clk ->
  waveform clk dat c d (ClrPin dat :: rest) = waveform clk dat c false rest.
Proof.
  intros H. apply Z.eqb_neq in H. cbn [waveform].
  now rewrite H, Z.eqb_refl.
Qed.

Lemma waveform_set_other clk dat p c d rest :
  p <> clk -> p <> dat ->
  waveform clk dat c d (SetPin p :: rest) = waveform clk dat c d rest.
Proof.
  intros H1 H2. apply Z.eqb_neq in H1, H2. cbn [waveform].
  now rewrite H1, H2.
Qed.

Lemma waveform_clr_other clk dat p c d rest :
  p <> clk -> p <> dat ->
  waveform clk dat c d (ClrPin p :: rest) = waveform clk dat c d rest.
Proof.
  intros H1 H2. apply Z.eqb_neq in H1, H2. cbn [waveform].
  now rewrite H1, H2.
Qed.

Lemma read_points_rise clk pin n rest :
  read_points clk pin false n (SetPin clk :: rest)
  = read_points clk pin true (n + 1) rest.
Proof. cbn [read_points]. now rewrite Z.eqb_refl. Qed.

Lemma read_points_fall clk pin c n rest :
  read_points clk pin c n (ClrPin clk :: rest)
  = read_points clk pin false n rest.
Proof. cbn [read_points]. now rewrite Z.eqb_refl. Qed.

Lemma read_points_set_other clk pin p c n rest :
  p <> clk ->
  read_points clk pin c n (SetPin p :: rest) = read_points clk pin c n rest.
Proof.
  intros H. apply Z.eqb_neq in H. cbn [read_points]. now rewrite H.
Qed.

Lemma read_points_clr_other clk pin p c n rest :
  p <> clk ->
  read_points clk pin c n (ClrPin p :: rest) = read_points clk pin c n rest.
Proof.
  intros H. apply Z.eqb_neq in H. cbn [read_points]. now rewrite H.
Qed.

Lemma read_points_read clk pin b c n rest :
  read_points clk pin c n (ReadPin pin b :: rest)
  = n :: read_points clk pin c n rest.
Proof. cbn [read_points]. now rewrite Z.eqb_refl. Qed.

Ltac trace :=
  repeat first
    [ rewrite waveform_rise | rewrite waveform_fall
    | rewrite waveform_set by auto | rewrite waveform_clr by auto
    | rewrite waveform_set_other by auto
    | rewrite waveform_clr_other by auto
    | rewrite read_points_rise | rewrite read_points_fall
    | rewrite read_points_set_other by auto
    | rewrite read_points_clr_other by auto
    | rewrite read_points_read ].

Lemma reset_waveforms tck tms tdo tdi :
  valid_roles [tck; tms; tdo; tdi] = true ->
  forall d rest,
    waveform tck tms false d
      ([SetPin tms; ClrPin tdi]
       ++ flat_map (bypass_reset_ops tck tms) (upto 9) ++ rest)
    = [true; true; true; true; true; false; true; false; false]
      ++ waveform tck tms false false rest
    /\ waveform tck tdi false d
         ([SetPin tms; ClrPin tdi]
          ++ flat_map (bypass_reset_ops tck tms) (upto 9) ++ rest)
       = repeat false 9 ++ waveform tck tdi false false rest
    /\ read_points tck tdo false 0
         ([SetPin tms; ClrPin tdi]
          ++ flat_map (bypass_reset_ops tck tms) (upto 9) ++ rest)
       = read_points tck tdo false 9 rest.
Proof.
  intros Hv d rest.
  destruct (valid_quad _ _ _ _ Hv) as (A & B & C & D & E & F).
  assert (L : flat_map (bypass_reset_ops tck tms) (upto 9)
              = [SetPin tck; ClrPin tck; SetPin tck; ClrPin tck;
                 SetPin tck; ClrPin tck; SetPin tck; ClrPin tck;
                 SetPin tck; ClrPin tck;
                 ClrPin tms; SetPin tck; ClrPin tck;
                 SetPin tms; SetPin tck; ClrPin tck;
                 ClrPin tms; SetPin tck; ClrPin tck;
                 SetPin tck; ClrPin tck]) by reflexivity.
  rewrite L. clear L. cbn [app].
  split; [|split]; trace; reflexivity.
Qed.

Lemma sampler_of_bypass_prepare (s : machine W) :
  sampler_of (set_idval 0 (set_toggle_count 0 (set_byte_prev 0 s)))
  = (0, 0, 0).
Proof. reflexivity. Qed.

Lemma toggle_count_of_sampler s (bytes : list Z) :
  (Z.of_nat (List.length bytes) < 256) ->
  sampler_of s = sampler_run bytes ->
  toggle_count s = toggles 0 bytes.
Proof.
  intros Hlen Hs.
  change (toggle_count s) with (snd (fst (sampler_of s))).
  rewrite Hs. unfold sampler_run. rewrite sampler_count by lia.
  apply Z.mod_small. pose proof (toggles_bound bytes 0). lia.
Qed.

Lemma reads_of_app (a b : list event) :
  reads_of (a ++ b) = reads_of a ++ reads_of b.
Proof.
  induction a as [|e a IH]; [reflexivity|].
  destruct e; cbn [app reads_of]; rewrite ?IH; reflexivity.
Qed.

Lemma reads_of_pulses clk (l : list Z) :
  reads_of (flat_map (pulse_ops clk) l) = [].
Proof. induction l as [|j l IH]; [reflexivity | exact IH]. Qed.

Lemma map_count_from_add (n : nat) (j k : Z) :
  map (fun i => i + k) (count_from n j) = count_from n (j + k).
Proof.
  revert j. induction n as [|n IH]; intros j; [reflexivity|].
  cbn [count_from map]. rewrite IH. do 2 f_equal. lia.
Qed.


End BypassSequence.

(** ** The clocks of the SWD read *)

Section SwdSequence.

Context {W : Type} {target : Target W}.

Implicit Types s : machine W.

Lemma sampler_of_set_pin_to_input pin s :
  sampler_of (set_pin_to_input pin s) = sampler_of s.
Proof.
  unfold set_pin_to_input. cbv zeta.
  repeat (destruct (_ =? _); [reflexivity|]). reflexivity.
Qed.

Lemma sampler_of_set_pin_to_output pin s :
  sampler_of (set_pin_to_output pin s) = sampler_of s.
Proof.
  unfold set_pin_to_output. cbv zeta.
  repeat (destruct (_ =? _); [reflexivity|]). reflexivity.
Qed.

Lemma sampler_of_send_fixed_swd_pattern swclk swdio val num s :
  sampler_of (send_fixed_swd_pattern swclk swdio val num s) = sampler_of s.
Proof.
  unfold send_fixed_swd_pattern. cbv zeta.
  rewrite sampler_of_clr_pin.
  destruct (blind_loop (fun _ s => set_pin swclk (clr_pin swclk s))
              (swd_read_ops swclk) (upto (Z.to_nat (u16 num))))
    with (s := if u8 val =? 1 then set_pin swdio s else clr_pin swdio s)
    as [_ Hs].
  { intros j t. unfold swd_read_ops.
    now rewrite log_set_pin, log_clr_pin, sampler_of_set_pin,
      sampler_of_clr_pin. }
  rewrite Hs. destruct (u8 val =? 1);
    [apply sampler_of_set_pin | apply sampler_of_clr_pin].
Qed.

Lemma sampler_of_swd_connect swclk swdio s :
  sampler_of (swd_connect swclk swdio s) = sampler_of s.
Proof.
  unfold swd_connect. cbv zeta.
  now rewrite !sampler_of_send_fixed_swd_pattern.
Qed.

Lemma swd_read_log swclk swdio s :
  exists bytes,
    List.length bytes = 32%nat
    /\ Forall (fun b => exists w, b = pin_byte swdio w) bytes
    /\ log (swd_read swclk swdio s)
       = rev (swd_read_events swclk swdio bytes) ++ log s
    /\ sampler_of (swd_read swclk swdio s)
       = fold_left sampler_step bytes (sampler_of s).
Proof.
  unfold swd_read.
  destruct (sampled_loop_bytes
              (fun j s =>
                 if (2 <? j) && (j <? 35)
                 then sample swdio (set_pin swclk (clr_pin swclk s))
                 else set_pin swclk (clr_pin swclk s))
              (fun j s => set_pin swclk (clr_pin swclk s))
              (swd_read_ops swclk) (fun j => (2 <? j) && (j <? 35)) swdio
              (upto 38))
    with (s := s) as (bytes & Hlen & Hfrom & Hl & Hs).
  { reflexivity. }
  { intros j t. unfold swd_read_ops.
    now rewrite log_set_pin, log_clr_pin, sampler_of_set_pin,
      sampler_of_clr_pin. }
  exists bytes. repeat split; assumption.
Qed.

Lemma blank_swd_read_events swclk swdio (bytes : list Z) :
  List.length bytes = 32%nat ->
  map blank (swd_read_events swclk swdio bytes)
  = swd_read_events swclk swdio (repeat 0 32).
Proof.
  intros Hlen. unfold swd_read_events.
  rewrite blank_loop_events, Hlen; reflexivity.
Qed.

Lemma waveform_read clk dat p b c d rest :
  waveform clk dat c d (ReadPin p b :: rest) = waveform clk dat c d rest.
Proof. reflexivity. Qed.

Ltac trace :=
  repeat first
    [ rewrite waveform_rise | rewrite waveform_fall
    | rewrite waveform_read
    | rewrite waveform_set by auto | rewrite waveform_clr by auto
    | rewrite waveform_set_other by auto
    | rewrite waveform_clr_other by auto
    | rewrite read_points_rise | rewrite read_points_fall
    | rewrite read_points_set_other by auto
    | rewrite read_points_clr_other by auto
    | rewrite read_points_read ].

Lemma swd_read_shape swclk swdio d :
  swclk <> swdio ->
  waveform swclk swdio false d (swd_read_events swclk swdio (repeat 0 32))
  = repeat d 38
  /\ read_points swclk swdio false 0
       (swd_read_events swclk swdio (repeat 0 32))
     = map (fun j => j + 1) (count_from 32 3).
Proof.
  intros Hne. assert (Hne' : swdio <> swclk) by congruence.
  let l := eval cbv in (swd_read_events swclk swdio (repeat 0 32)) in
  change (swd_read_events swclk swdio (repeat 0 32)) with l.
  split; trace; reflexivity.
Qed.

Lemma reads_of_loop_events ops reads_at pin (l : list Z) :
  (forall j, reads_of (ops j) = []) ->
  forall bytes,
    List.length bytes = List.length (filter reads_at l) ->
    reads_of (loop_events ops reads_at pin l bytes) = bytes.
Proof.
  intros Hops. induction l as [|j l IH]; intros bytes Hlen.
  - symmetry. now apply length_nil_inv.
  - cbn [loop_events filter] in *. rewrite reads_of_app, Hops. cbn [app].
    destruct (reads_at j).
    + destruct bytes as [|b bytes]; [discriminate|].
      cbn [reads_of]. f_equal. apply IH. now injection Hlen.
    + now apply IH.
Qed.

(** For every candidate pair the SWD finder, after the connect sequence,
    turns swdio into an input and gives 38 clock pulses without writing
    swdio.  It reads swdio while swclk is high after the pulses 3 to 34 (the
    4th to the 35th rising edge) and no other time, feeds the 32 bytes to
    the sampler, and accepts the pair exactly when they toggle more than 7
    times. *)
Theorem swd_read_sequence swclk swdio r s :
  valid_roles [swclk; swdio] = true ->
  let s1 := swd_probe swclk swdio s in
  exists s0 bytes,
    s1 = clr_pin swdio (clr_pin swclk (swd_read swclk swdio s0))
    /\ dir_bit (io s0) swdio = false
    /\ List.length bytes = 32%nat
    /\ history (swd_read swclk swdio s0)
       = history s0 ++ swd_read_events swclk swdio bytes
    /\ waveform swclk swdio false false (swd_read_events swclk swdio bytes)
       = repeat false 38
    /\ read_points swclk swdio false 0 (swd_read_events swclk swdio bytes)
       = map (fun j => j + 1) (count_from 32 3)
    /\ reads_of (swd_read_events swclk swdio bytes) = bytes
    /\ sampler_of s1 = sampler_run bytes
    /\ toggle_count s1 = toggles 0x00 bytes
    /\ fst (swd_trial swclk swdio (r, s))
       = if 7 <? toggles 0x00 bytes then 1 else r.
Proof.
  intros Hv. cbv zeta.
  destruct (valid_pair _ _ Hv) as (Hc & Hd & Hne).
  destruct (swd_trial_verdict swclk swdio r s) as (n & _ & _ & Hf).
  revert Hf. unfold swd_probe. cbv zeta.
  match goal with
  | |- context [swd_read swclk swdio ?t] => set (s0 := t)
  end.
  intros Hf.
  destruct (swd_read_log swclk swdio s0) as (bytes & Hlen & _ & Hl & Hs).
  assert (H0 : sampler_of s0 = (0, 0, 0)).
  { unfold s0.
    rewrite sampler_of_set_pin_to_input, !sampler_of_clr_pin,
      sampler_of_swd_connect.
    reflexivity. }
  rewrite H0 in Hs. fold (sampler_run bytes) in Hs.
  assert (Hs1 : sampler_of
                  (clr_pin swdio (clr_pin swclk (swd_read swclk swdio s0)))
                = sampler_run bytes)
    by now rewrite !sampler_of_clr_pin.
  assert (Ht : toggle_count
                 (clr_pin swdio (clr_pin swclk (swd_read swclk swdio s0)))
               = toggles 0 bytes).
  { apply toggle_count_of_sampler; [rewrite Hlen; cbn; lia | exact Hs1]. }
  destruct (swd_read_shape swclk swdio false Hne) as [Sw Sr].
  exists s0, bytes.
  split; [reflexivity|]. split.
  { unfold s0.
    match goal with
    | |- dir_bit (io (set_pin_to_input _ ?t)) _ = _ =>
        destruct (bits_set_pin_to_input swdio swdio t) as [Hdir _];
        [now apply wired_range|]
    end.
    rewrite Hdir, Hd, Z.eqb_refl. reflexivity. }
  split; [exact Hlen|].
  split; [now apply history_continues|].
  split; [now rewrite <- waveform_blank, blank_swd_read_events|].
  split; [now rewrite <- read_points_blank, blank_swd_read_events|].
  split; [apply reads_of_loop_events; [reflexivity | exact Hlen]|].
  split; [exact Hs1|]. split; [exact Ht|].
  rewrite Hf, Ht. reflexivity.
Qed.

End SwdSequence.

(** ** The clocks of the tdi search *)

Ltac trace :=
  repeat first
    [ rewrite waveform_rise | rewrite waveform_fall
    | rewrite waveform_read
    | rewrite waveform_set by auto | rewrite waveform_clr by auto
    | rewrite waveform_set_other by auto
    | rewrite waveform_clr_other by auto
    | rewrite read_points_rise | rewrite read_points_fall
    | rewrite read_points_set_other by auto
    | rewrite read_points_clr_other by auto
    | rewrite read_points_read ].

Section IdSecondPhase.

Context {W : Type} {target : Target W}.

Implicit Types s : machine W.

Lemma counter_of_set_pin pin s : counter_of (set_pin pin s) = counter_of s.
Proof.
  unfold set_pin. cbv zeta.
  repeat (destruct (_ =? _); [reflexivity|]). reflexivity.
Qed.

Lemma counter_of_clr_pin pin s : counter_of (clr_pin pin s) = counter_of s.
Proof.
  unfold clr_pin. cbv zeta.
  repeat (destruct (_ =? _); [reflexivity|]). reflexivity.
Qed.

Lemma counter_of_set_pin_to_output pin s :
  counter_of (set_pin_to_output pin s) = counter_of s.
Proof.
  unfold set_pin_to_output. cbv zeta.
  repeat (destruct (_ =? _); [reflexivity|]). reflexivity.
Qed.

Lemma idval_set_pin pin s : idval (set_pin pin s) = idval s.
Proof.
  unfold set_pin. cbv zeta.
  repeat (destruct (_ =? _); [reflexivity|]). reflexivity.
Qed.

Lemma idval_clr_pin pin s : idval (clr_pin pin s) = idval s.
Proof.
  unfold clr_pin. cbv zeta.
  repeat (destruct (_ =? _); [reflexivity|]). reflexivity.
Qed.

Lemma idval_set_pin_to_output pin s :
  idval (set_pin_to_output pin s) = idval s.
Proof.
  unfold set_pin_to_output. cbv zeta.
  repeat (destruct (_ =? _); [reflexivity|]). reflexivity.
Qed.

Lemma id_count_step tdo (pre : machine W) :
  let b := pin_byte tdo (world pre) in
  let s' :=
    (let (byte, s) := read_pin tdo pre in
     let s := set_byte_val byte s in
     let s := if byte_val s =? byte_prev s then s
              else set_tc (u8 (tc s + 1)) s in
     set_byte_prev (byte_val s) s) in
  log s' = ReadPin tdo b :: log pre
  /\ counter_of s'
     = (b, if b =? byte_prev pre then tc pre else u8 (tc pre + 1))
  /\ idval s' = idval pre.
Proof.
  cbv zeta. unfold read_pin, counter_of.
  cbn [byte_val set_byte_val byte_prev emit tc].
  destruct (pin_byte tdo (world pre) =? byte_prev pre); repeat split.
Qed.

(** The second 512 clocks: the log, the counter and the captured word. *)
Lemma id_inject_loop tck tdo tdi (l : list Z) :
  forall s,
    exists bytes,
      List.length bytes = List.length l
      /\ Forall (fun b => exists w, b = pin_byte tdo w) bytes
      /\ log (for_each l
                (fun j s =>
                   let s := set_pin tck s in
                   let s := clr_pin tck s in
                   let s := if (j <? 32) && negb (j mod 2 =? 0)
                            then set_pin tdi s else clr_pin tdi s in
                   let (byte, s) := read_pin tdo s in
                   let s := set_byte_val byte s in
                   let s := if byte_val s =? byte_prev s then s
                            else set_tc (u8 (tc s + 1)) s in
                   set_byte_prev (byte_val s) s)
                s)
         = rev (loop_events (id_inject_ops tck tdi) (fun _ => true) tdo l
                  bytes) ++ log s
      /\ (forall acc,
           counter_of
             (for_each l
                (fun j s =>
                   let s := set_pin tck s in
                   let s := clr_pin tck s in
                   let s := if (j <? 32) && negb (j mod 2 =? 0)
                            then set_pin tdi s else clr_pin tdi s in
                   let (byte, s) := read_pin tdo s in
                   let s := set_byte_val byte s in
                   let s := if byte_val s =? byte_prev s then s
                            else set_tc (u8 (tc s + 1)) s in
                   set_byte_prev (byte_val s) s)
                s)
           = fst (fold_left sampler_step bytes (byte_prev s, tc s, acc)))
      /\ idval
           (for_each l
              (fun j s =>
                 let s := set_pin tck s in
                 let s := clr_pin tck s in
                 let s := if (j <? 32) && negb (j mod 2 =? 0)
                          then set_pin tdi s else clr_pin tdi s in
                 let (byte, s) := read_pin tdo s in
                 let s := set_byte_val byte s in
                 let s := if byte_val s =? byte_prev s then s
                          else set_tc (u8 (tc s + 1)) s in
                 set_byte_prev (byte_val s) s)
              s)
         = idval s.
Proof.
  match goal with |- context [for_each _ ?b _] => set (body := b) end.
  induction l as [|j l IH]; intros s.
  - exists []. repeat split. constructor.
  - rewrite for_each_cons.
    set (pre := if (j <? 32) && negb (j mod 2 =? 0)
                then set_pin tdi (clr_pin tck (set_pin tck s))
                else clr_pin tdi (clr_pin tck (set_pin tck s))).
    assert (Lp : log pre = rev (id_inject_ops tck tdi j) ++ log s).
    { unfold pre, id_inject_ops.
      destruct ((j <? 32) && negb (j mod 2 =? 0));
        repeat first [rewrite log_set_pin | rewrite log_clr_pin];
        reflexivity. }
    assert (Cp : counter_of pre = counter_of s).
    { unfold pre. destruct ((j <? 32) && negb (j mod 2 =? 0));
        repeat first [rewrite counter_of_set_pin | rewrite counter_of_clr_pin];
        reflexivity. }
    assert (Ip : idval pre = idval s).
    { unfold pre. destruct ((j <? 32) && negb (j mod 2 =? 0));
        repeat first [rewrite idval_set_pin | rewrite idval_clr_pin];
        reflexivity. }
    set (b := pin_byte tdo (world pre)).
    set (s' := body j s).
    destruct (id_count_step tdo pre) as (Ls & Cs & Is).
    change (let (byte, s) := read_pin tdo pre in
            let s := set_byte_val byte s in
            let s := if byte_val s =? byte_prev s then s
                     else set_tc (u8 (tc s + 1)) s in
            set_byte_prev (byte_val s) s) with s' in Ls, Cs, Is.
    fold b in Ls, Cs.
    assert (Cp1 : byte_prev pre = byte_prev s) by exact (f_equal fst Cp).
    assert (Cp2 : tc pre = tc s) by exact (f_equal snd Cp).
    rewrite Cp1, Cp2 in Cs. rewrite Ip in Is.
    destruct (IH s') as (bytes & Hlen & Hfrom & Hl & Hc & Hi).
    exists (b :: bytes). split; [|split; [|split; [|split]]].
    + cbn [List.length]. now rewrite Hlen.
    + constructor; [now exists (world pre) | exact Hfrom].
    + rewrite Hl, Ls, Lp. cbn [loop_events]. rewrite rev_app_distr.
      cbn [rev]. now rewrite <- !app_assoc.
    + intros acc. cbn [fold_left].
      assert (Cs1 : byte_prev s' = b) by exact (f_equal fst Cs).
      assert (Cs2 : tc s' = if b =? byte_prev s then tc s
                            else u8 (tc s + 1))
        by exact (f_equal snd Cs).
      specialize (Hc (if b =? 0
                      then Z.land (Z.shiftr acc 1) (u32 (Z.lnot 0x80000000))
                      else Z.lor (Z.shiftr acc 1) 0x80000000)).
      rewrite Cs1, Cs2 in Hc. rewrite Hc. reflexivity.
    + now rewrite Hi, Is.
Qed.

Lemma id_inject_events tck tdo tdi s :
  exists bytes,
    List.length bytes = 512%nat
    /\ Forall (fun b => exists w, b = pin_byte tdo w) bytes
    /\ log (id_inject tck tdo tdi s)
       = rev (loop_events (id_inject_ops tck tdi) (fun _ => true) tdo
                (upto 512) bytes) ++ log s
    /\ (forall acc,
         counter_of (id_inject tck tdo tdi s)
         = fst (fold_left sampler_step bytes (byte_prev s, tc s, acc)))
    /\ idval (id_inject tck tdo tdi s) = idval s.
Proof.
  unfold id_inject. exact (id_inject_loop tck tdo tdi (upto 512) s).
Qed.

Lemma tc_counter s : tc s = snd (counter_of s).
Proof. reflexivity. Qed.

Lemma byte_prev_counter s : byte_prev s = fst (counter_of s).
Proof. reflexivity. Qed.

Lemma waveform_cfg_output clk dat p c d rest :
  waveform clk dat c d (CfgOutput p :: rest) = waveform clk dat c d rest.
Proof. reflexivity. Qed.

Lemma read_points_cfg_output clk pin p c n rest :
  read_points clk pin c n (CfgOutput p :: rest)
  = read_points clk pin c n rest.
Proof. reflexivity. Qed.

Lemma inject_waveforms tck tdo tdi (n : nat) :
  tck <> tdi -> tck <> tdo ->
  forall j bytes d k,
    List.length bytes = S n ->
    waveform tck tdi false d
      (loop_events (id_inject_ops tck tdi) (fun _ => true) tdo
         (count_from (S n) j) bytes)
    = d :: map (fun j => (j <? 32) && negb (j mod 2 =? 0)) (count_from n j)
    /\ read_points tck tdo false k
         (loop_events (id_inject_ops tck tdi) (fun _ => true) tdo
            (count_from (S n) j) bytes)
       = count_from (S n) (k + 1).
Proof.
  intros H1 H2. assert (H1' : tdi <> tck) by congruence.
  assert (H2' : tdo <> tck) by congruence.
  induction n as [|n IH]; intros j bytes d k Hlen.
  - destruct bytes as [|b [|b' bytes]]; try discriminate.
    cbn [count_from loop_events id_inject_ops app map].
    destruct ((j <? 32) && negb (j mod 2 =? 0)); split; trace; reflexivity.
  - destruct bytes as [|b bytes]; [discriminate|]. injection Hlen as Hlen.
    change (count_from (S (S n)) j) with (j :: count_from (S n) (j + 1)).
    change (count_from (S n) j) with (j :: count_from n (j + 1)).
    change (count_from (S (S n)) (k + 1))
      with (k + 1 :: count_from (S n) (k + 1 + 1)).
    cbn [loop_events id_inject_ops app map].
    destruct (IH (j + 1) bytes ((j <? 32) && negb (j mod 2 =? 0)) (k + 1)
                Hlen) as [I1 I2].
    destruct ((j <? 32) && negb (j mod 2 =? 0)); split; trace;
      rewrite ?I1, ?I2; reflexivity.
Qed.

Lemma id_flush_events tck tdi s :
  log (id_flush tck tdi s)
  = rev ([CfgOutput tdi] ++ flat_map (pulse_ops tck) (upto 512)) ++ log s
  /\ counter_of (id_flush tck tdi s) = counter_of s
  /\ idval (id_flush tck tdi s) = idval s.
Proof.
  unfold id_flush. cbv zeta. split; [|split].
  - destruct (blind_loop (fun _ s => pulse tck s) (pulse_ops tck)
                (upto 512))
      with (s := set_pin_to_output tdi s) as [Lf _].
    { intros j t. unfold pulse, pulse_ops.
      rewrite log_clr_pin, log_set_pin, sampler_of_clr_pin,
        sampler_of_set_pin. split; reflexivity. }
    rewrite Lf, log_set_pin_to_output, rev_app_distr. cbn [rev app].
    now rewrite <- !app_assoc.
  - rewrite <- (counter_of_set_pin_to_output tdi s).
    apply (for_each_preorder (fun a b => counter_of b = counter_of a)).
    + reflexivity.
    + intros a b c H1 H2. now rewrite H2.
    + intros j t _. unfold pulse.
      now rewrite counter_of_clr_pin, counter_of_set_pin.
  - rewrite <- (idval_set_pin_to_output tdi s).
    apply (for_each_preorder (fun a b => idval b = idval a)).
    + reflexivity.
    + intros a b c H1 H2. now rewrite H2.
    + intros j t _. unfold pulse.
      now rewrite idval_clr_pin, idval_set_pin.
Qed.

(** The search for tdi, for every candidate: tdi becomes an output, 512
    clock pulses flush the scan path with tdi low, and 512 more carry 16
    ones on tdi, at every second clock from the third on, followed by
    zeros.  tdo is read after each of the last 512 pulses; the captured
    word of the first phase is kept.  The counter [tc] ends as the number
    of toggles of the 512 bytes modulo 256, and it is on that number that
    the candidate is accepted: between 30 and 34 toggles, but also between
    286 and 290. *)
Theorem id_tdi_sequence tck tms tdo tdi r s :
  valid_roles [tck; tms; tdo; tdi] = true ->
  let s1 := id_tdi_probe tck tms tdo tdi s in
  exists s0 bytes,
    s1 = id_inject tck tdo tdi (id_flush tck tdi s0)
    /\ List.length bytes = 512%nat
    /\ history s1 = history s0 ++ id_tdi_events tck tdo tdi bytes
    /\ waveform tck tdi false false (id_tdi_events tck tdo tdi bytes)
       = repeat false 513
         ++ map (fun j => (j <? 32) && negb (j mod 2 =? 0)) (upto 511)
    /\ read_points tck tdo false 0 (id_tdi_events tck tdo tdi bytes)
       = map (fun j => j + 513) (upto 512)
    /\ reads_of (id_tdi_events tck tdo tdi bytes) = bytes
    /\ idval s1 = idval s
    /\ tc s1 = toggles 0x00 bytes mod 256
    /\ fst (id_tdi_trial tck tms tdo tdi (r, s))
       = if (29 <? toggles 0x00 bytes mod 256)
            && (toggles 0x00 bytes mod 256 <? 35)
         then 1 else r.
Proof.
  intros Hv. cbv zeta.
  destruct (valid_quad _ _ _ _ Hv) as (A & B & C & D & E & F).
  assert (C' : tdi <> tck) by congruence.
  destruct (id_tdi_trial_verdict tck tms tdo tdi r s) as (n & _ & _ & Hf).
  revert Hf. unfold id_tdi_probe. cbv zeta.
  match goal with
  | |- context [id_flush tck tdi ?t] => set (s0 := t)
  end.
  intros Hf.
  destruct (id_flush_events tck tdi s0) as (Lf & Cf & If).
  destruct (id_inject_events tck tdo tdi (id_flush tck tdi s0))
    as (bytes & Hlen & _ & Hl & Hc & Hi).
  assert (Ht : tc (id_inject tck tdo tdi (id_flush tck tdi s0))
               = toggles 0 bytes mod 256).
  { rewrite tc_counter, (Hc 0), (tc_counter (id_flush tck tdi s0)),
      (byte_prev_counter (id_flush tck tdi s0)), Cf.
    change (counter_of s0) with (0, 0). cbn [fst snd].
    rewrite sampler_count by lia. reflexivity. }
  destruct (inject_waveforms tck tdo tdi 511 C B 0 bytes false 512 Hlen)
    as [Wi Ri].
  fold (upto 512) in Wi, Ri. fold (upto 511) in Wi.
  exists s0, bytes.
  split; [reflexivity|]. split; [exact Hlen|].
  split.
  { apply history_continues. unfold continues, id_tdi_events.
    rewrite Hl, Lf, !rev_app_distr, <- !app_assoc. reflexivity. }
  unfold id_tdi_events.
  split; [|split; [|split; [|split; [|split]]]].
  - cbn [app]. rewrite waveform_cfg_output.
    unfold upto at 1. rewrite waveform_pulses by auto. rewrite Wi.
    change (repeat false 513) with (repeat false 512 ++ [false]).
    now rewrite <- app_assoc.
  - cbn [app]. rewrite read_points_cfg_output.
    unfold upto at 1. rewrite read_points_pulses.
    change (0 + Z.of_nat 512) with 512. rewrite Ri.
    unfold upto. now rewrite map_count_from_add.
  - rewrite !reads_of_app, reads_of_pulses. cbn [reads_of app].
    apply reads_of_loop_events.
    + intros j. unfold id_inject_ops.
      destruct ((j <? 32) && negb (j mod 2 =? 0)); reflexivity.
    + rewrite Hlen. reflexivity.
  - rewrite Hi, If. unfold s0.
    destruct (vflag (emit (Trial [tck; tms; tdo; tdi]) s) =? 0);
      reflexivity.
  - exact Ht.
  - rewrite Hf, Ht. reflexivity.
Qed.

End IdSecondPhase.

(** ** Targets that never answer *)

Section SteadyInputs.

Context {W : Type} {target : Target W}.

Implicit Types s : machine W.

Hypothesis steady : steady_inputs W.

Lemma steady_pin_byte pin (w w' : W) : pin_byte pin w = pin_byte pin w'.
Proof.
  unfold pin_byte. destruct (steady w w') as [E1 E2]. now rewrite E1, E2.
Qed.

Lemma calm_step c (st : sampler) : calm c st -> calm c (sampler_step st c).
Proof.
  destruct st as [[prev count] acc]. unfold calm, sampler_step.
  intros [[-> ->]|[Hc ->]].
  - destruct (Z.eqb_spec c 0) as [->|Hne]; [now left|].
    right. split; [|reflexivity]. cbn. lia.
  - rewrite Z.eqb_refl. right. now split.
Qed.

Lemma stays_calm_refl c (a : machine W) : stays_calm c a a.
Proof. now intros H. Qed.

Lemma stays_calm_trans c (a b d : machine W) :
  stays_calm c a b -> stays_calm c b d -> stays_calm c a d.
Proof. unfold stays_calm. auto. Qed.

Lemma stays_calm_same c (a b : machine W) :
  sampler_of b = sampler_of a -> stays_calm c a b.
Proof. unfold stays_calm. now intros ->. Qed.

Lemma stays_calm_sample pin (w0 : W) s :
  stays_calm (pin_byte pin w0) s (sample pin s).
Proof.
  unfold stays_calm. rewrite sampler_of_sample.
  rewrite (steady_pin_byte pin (world s) w0). apply calm_step.
Qed.

Lemma calm_toggle_count c s : calm c (sampler_of s) -> toggle_count s <= 1.
Proof. unfold calm, sampler_of. intros [[-> _]|[H _]]; lia. Qed.

Lemma calm_start c s :
  sampler_of s = (0, 0, 0) -> calm c (sampler_of s).
Proof. intros ->. now left. Qed.

Lemma calm_fold c (bytes : list Z) (st : sampler) :
  Forall (fun b => b = c) bytes -> calm c st ->
  calm c (fold_left sampler_step bytes st).
Proof.
  intros H. revert st. induction H as [|b bytes -> _ IH]; intros st Hst.
  - exact Hst.
  - cbn [fold_left]. apply IH. now apply calm_step.
Qed.

Lemma steady_bytes pin (w0 : W) (bytes : list Z) :
  Forall (fun b => exists w, b = pin_byte pin w) bytes ->
  Forall (fun b => b = pin_byte pin w0) bytes.
Proof.
  apply Forall_impl. intros b [w ->]. apply steady_pin_byte.
Qed.

Ltac same :=
  apply stays_calm_same;
  repeat first [ rewrite sampler_of_set_pin | rewrite sampler_of_clr_pin
               | rewrite sampler_of_set_pin_to_output
               | rewrite sampler_of_set_pin_to_input ];
  reflexivity.

Lemma calm_id_shift_out tck tms tdo (w0 : W) s :
  stays_calm (pin_byte tdo w0) s (id_shift_out tck tms tdo s).
Proof.
  unfold id_shift_out. cbv zeta.
  apply stays_calm_trans with (set_pin tms s); [same|].
  apply (for_each_preorder (stays_calm (pin_byte tdo w0))).
  - apply stays_calm_refl.
  - apply stays_calm_trans.
  - intros j t _.
    assert (P : stays_calm (pin_byte tdo w0) t
                  (if j =? 4 then clr_pin tms (clr_pin tck (set_pin tck t))
                   else if j =? 5
                        then set_pin tms (clr_pin tck (set_pin tck t))
                        else if j =? 6
                             then clr_pin tms (clr_pin tck (set_pin tck t))
                             else clr_pin tck (set_pin tck t))).
    { destruct (j =? 4); [same|]. destruct (j =? 5); [same|].
      destruct (j =? 6); same. }
    destruct (7 <? j); [|exact P].
    eapply stays_calm_trans; [exact P | apply stays_calm_sample].
Qed.

Lemma id_trial_steady tck tms tdo (rs : Z * machine W) :
  fst (id_trial tck tms tdo rs) = fst rs.
Proof.
  destruct rs as [r s]. unfold id_trial. cbv zeta.
  assert (H : toggle_count (id_capture tck tms tdo s) <= 1).
  { apply (calm_toggle_count (pin_byte tdo (world s))).
    unfold id_capture. apply calm_id_shift_out. now left. }
  destruct (Z.ltb_spec 7 (toggle_count (id_capture tck tms tdo s)));
    [lia | reflexivity].
Qed.

Lemma bypass_trial_steady ones tck tms tdo tdi (rs : Z * machine W) :
  fst (bypass_trial_with ones tck tms tdo tdi rs) = fst rs.
Proof.
  destruct rs as [r s].
  destruct (bypass_trial_verdict ones tck tms tdo tdi r s)
    as (n & _ & _ & Hf).
  rewrite Hf. clear Hf. cbn [fst].
  assert (H : toggle_count (bypass_probe tck tms tdo tdi s) <= 1).
  { unfold bypass_probe. cbv zeta.
    match goal with
    | |- context [bypass_reset tck tms tdi ?t] => set (s0 := t)
    end.
    destruct (bypass_shift_events tck tms tdo tdi s0)
      as (bytes & _ & Hfrom & _ & Hs).
    apply (calm_toggle_count (pin_byte tdo (world s))).
    rewrite Hs. apply calm_fold; [now apply steady_bytes | now left]. }
  destruct (Z.ltb_spec 13 (toggle_count (bypass_probe tck tms tdo tdi s)));
    [lia | reflexivity].
Qed.

Lemma swd_trial_steady swclk swdio (rs : Z * machine W) :
  fst (swd_trial swclk swdio rs) = fst rs.
Proof.
  destruct rs as [r s].
  destruct (swd_trial_verdict swclk swdio r s) as (n & _ & _ & Hf).
  rewrite Hf. clear Hf. cbn [fst].
  assert (H : toggle_count (swd_probe swclk swdio s) <= 1).
  { unfold swd_probe. cbv zeta.
    match goal with
    | |- context [swd_read swclk swdio ?t] => set (s0 := t)
    end.
    destruct (swd_read_log swclk swdio s0) as (bytes & _ & Hfrom & _ & Hs).
    apply (calm_toggle_count (pin_byte swdio (world s))).
    rewrite !sampler_of_clr_pin, Hs.
    apply calm_fold; [now apply steady_bytes|].
    unfold s0.
    rewrite sampler_of_set_pin_to_input, !sampler_of_clr_pin,
      sampler_of_swd_connect.
    now left. }
  destruct (Z.ltb_spec 7 (toggle_count (swd_probe swclk swdio s)));
    [lia | reflexivity].
Qed.

Lemma kept_by_loop (l : list Z) (body : Z -> Z * machine W -> Z * machine W) :
  (forall j rs, fst (body j rs) = fst rs) ->
  forall rs, fst (for_each l body rs) = fst rs.
Proof.
  intros H rs.
  apply (for_each_preorder (fun a b => fst b = fst a)).
  - reflexivity.
  - intros a b c H1 H2. now rewrite H2.
  - intros j t _. apply H.
Qed.

Lemma jtag_finder_id_method_steady s : fst (jtag_finder_id_method s) = 0.
Proof.
  unfold jtag_finder_id_method.
  rewrite kept_by_loop; [reflexivity|]. intros tck rs.
  apply kept_by_loop. intros tms rs'.
  destruct (tck =? tms); [reflexivity|].
  apply kept_by_loop. intros tdo rs''.
  destruct ((tck =? tdo) || (tms =? tdo)); [reflexivity|].
  destruct ((tck =? 1) || (tms =? 1) || (tdo =? 1)); [reflexivity|].
  destruct ((tck =? 2) || (tms =? 2) || (tdo =? 2)); [reflexivity|].
  apply id_trial_steady.
Qed.

Lemma jtag_finder_bypass_method_steady s :
  fst (jtag_finder_bypass_method s) = 0.
Proof.
  unfold jtag_finder_bypass_method, jtag_finder_bypass_method_with.
  rewrite kept_by_loop; [reflexivity|]. intros tck rs.
  apply kept_by_loop. intros tms rs'.
  destruct (tck =? tms); [reflexivity|].
  apply kept_by_loop. intros tdo rs''.
  destruct ((tck =? tdo) || (tms =? tdo)); [reflexivity|].
  destruct ((tck =? 1) || (tms =? 1) || (tdo =? 1)); [reflexivity|].
  destruct ((tck =? 2) || (tms =? 2) || (tdo =? 2)); [reflexivity|].
  apply kept_by_loop. intros tdi rs3.
  destruct ((tdi =? tck) || (tdi =? tms) || (tdi =? tdo) || (tdi =? 1)
            || (tdi =? 2)); [reflexivity|].
  apply bypass_trial_steady.
Qed.

Lemma swd_finder_steady s : fst (swd_finder s) = 0.
Proof.
  unfold swd_finder.
  rewrite kept_by_loop; [reflexivity|]. intros swclk rs.
  apply kept_by_loop. intros swdio rs'.
  destruct ((swclk =? swdio) || (swclk =? 1) || (swdio =? 1)
            || (swclk =? 2) || (swdio =? 2)); [reflexivity|].
  apply swd_trial_steady.
Qed.

End SteadyInputs.

(** Against a target whose input registers never change, whatever is done
    to the pins (nothing connected, lines stuck high or low), no trial of
    any finder is accepted: the three finders return 0 and each stage of
    [setup] prints its not-found line. *)
Theorem steady_inputs_find_nothing {W : Type} {target : Target W}
    (s : machine W) :
  steady_inputs W ->
  fst (jtag_finder_id_method s) = 0
  /\ fst (jtag_finder_bypass_method s) = 0
  /\ fst (swd_finder s) = 0
  /\ id_stage s
     = print "  End of JTAG Finder using JTAG ID method.\r\n\n"
         (print id_not_found
            (snd (jtag_finder_id_method
                    (print "  Start of JTAG Finder using JTAG ID method.\r\n"
                       s))))
  /\ bypass_stage s
     = print "  End of JTAG Finder using Bypass method.\r\n\n"
         (print bypass_not_found
            (snd (jtag_finder_bypass_method
                    (print "  Start of JTAG Finder using Bypass method.\r\n"
                       s))))
  /\ swd_stage s
     = print "  End of SWD Finder.\r\n\n"
         (print swd_not_found
            (snd (swd_finder (print "  Start of SWD Finder.\r\n" s)))).
Proof.
  intros steady.
  split; [now apply jtag_finder_id_method_steady|].
  split; [now apply jtag_finder_bypass_method_steady|].
  split; [now apply swd_finder_steady|].
  unfold id_stage, bypass_stage, swd_stage. cbv zeta.
  rewrite jtag_finder_id_method_steady, jtag_finder_bypass_method_steady,
    swd_finder_steady by exact steady.
  repeat split.
Qed.

(** ** The order of the trials of the bypass and SWD finders *)

Section Exhaustive.

Context {W : Type} {target : Target W}.

Implicit Types s : machine W.

Lemma yields_bypass_trial ones tck tms tdo tdi r s :
  yields trials_of (log s)
    (log (snd (bypass_trial_with ones tck tms tdo tdi (r, s))))
    [[tck; tms; tdo; tdi]].
Proof.
  assert (H : appends (fun e => negb (is_trial e))
                (log (emit (Trial [tck; tms; tdo; tdi]) s))
                (log (snd (bypass_trial_with ones tck tms tdo tdi (r, s))))).
  { unfold bypass_trial_with, bypass_verdict. cbv zeta.
    destruct (_ && _); cbn [snd].
    - apply appends_trans with (log (bypass_probe tck tms tdo tdi s)).
      + apply rest_bypass_probe, accepts_plain_no_trial.
      + apply appends_trans with
          (log (set_cnt1 (ones (idval (bypass_probe tck tms tdo tdi s)))
                  (bypass_probe tck tms tdo tdi s))).
        * apply same_set_cnt1.
        * apply appends_bypass_report;
            [apply accepts_plain_no_trial | reflexivity].
    - apply appends_trans with (log (bypass_probe tck tms tdo tdi s)).
      + apply rest_bypass_probe, accepts_plain_no_trial.
      + apply same_set_cnt1. }
  destruct H as (rest & Hc & Hq).
  exists ([Trial [tck; tms; tdo; tdi]] ++ rest). split.
  - eapply continues_trans; [apply continues_one | exact Hc].
  - rewrite trials_of_app, (no_trial_trials _ Hq). reflexivity.
Qed.

Lemma yields_swd_trial swclk swdio r s :
  yields trials_of (log s) (log (snd (swd_trial swclk swdio (r, s))))
    [[swclk; swdio]].
Proof.
  assert (H : appends (fun e => negb (is_trial e))
                (log (emit (Trial [swclk; swdio]) s))
                (log (snd (swd_trial swclk swdio (r, s))))).
  { unfold swd_trial. cbv zeta. destruct (7 <? _); cbn [snd].
    - apply appends_trans with (log (swd_probe swclk swdio s)).
      + apply rest_swd_probe, accepts_plain_no_trial.
      + apply appends_swd_report;
          [apply accepts_plain_no_trial | reflexivity].
    - apply rest_swd_probe, accepts_plain_no_trial. }
  destruct H as (rest & Hc & Hq).
  exists ([Trial [swclk; swdio]] ++ rest). split.
  - eapply continues_trans; [apply continues_one | exact Hc].
  - rewrite trials_of_app, (no_trial_trials _ Hq). reflexivity.
Qed.

Lemma filter_flat_map_in {X Y : Type} (keep : Y -> bool) (g : X -> list Y)
    (l : list X) :
  filter keep (flat_map g l) = flat_map (fun x => filter keep (g x)) l.
Proof.
  induction l as [|x l IH]; [reflexivity|].
  cbn [flat_map]. now rewrite filter_app, IH.
Qed.

Lemma filter_map_singletons {X Y : Type} (keep : Y -> bool) (h : X -> Y)
    (l : list X) :
  filter keep (map h l)
  = flat_map (fun x => if keep (h x) then [h x] else []) l.
Proof.
  induction l as [|x l IH]; [reflexivity|].
  cbn [map filter flat_map]. rewrite IH. now destruct (keep (h x)).
Qed.

Lemma flat_map_ext_range {Y : Type} (f g : Z -> list Y) (l : list Z) :
  (forall x, In x l -> f x = g x) -> flat_map f l = flat_map g l.
Proof.
  induction l as [|x l IH]; intros H; [reflexivity|].
  cbn [flat_map]. rewrite (H x) by now left.
  rewrite IH; [reflexivity|]. intros y Hy. apply H. now right.
Qed.

Lemma if_flat_map {X Y : Type} (c : bool) (f : X -> list Y) (l : list X) :
  (if c then [] else flat_map f l)
  = flat_map (fun x => if c then [] else f x) l.
Proof.
  destruct c; [|reflexivity]. induction l as [|x l IH]; [reflexivity|].
  exact IH.
Qed.

Lemma valid_not_reserved (roles : list Z) (p : Z) :
  valid_roles roles = true -> In p roles ->
  (p =? 1) = false /\ (p =? 2) = false.
Proof.
  unfold valid_roles. intros H Hin. apply andb_true_iff in H as [_ H].
  rewrite forallb_forall in H. specialize (H p Hin).
  apply andb_true_iff in H as [_ H]. apply negb_true_iff in H.
  unfold reserved in H. now apply orb_false_iff in H.
Qed.

Lemma valid_roles_passes4 tck tms tdo tdi :
  In tck (upto 16) -> In tms (upto 16) -> In tdo (upto 16) ->
  In tdi (upto 16) ->
  valid_roles [tck; tms; tdo; tdi] = passes4 tck tms tdo tdi.
Proof.
  intros H1 H2 H3 H4.
  destruct (passes4 tck tms tdo tdi) eqn:P.
  - now apply passes4_valid.
  - destruct (valid_roles [tck; tms; tdo; tdi]) eqn:V; [|reflexivity].
    destruct (valid_quad _ _ _ _ V) as (A & B & C & D & E & F).
    destruct (valid_not_reserved _ tck V) as [R1 R2]; [cbn; tauto|].
    destruct (valid_not_reserved _ tms V) as [R3 R4]; [cbn; tauto|].
    destruct (valid_not_reserved _ tdo V) as [R5 R6]; [cbn; tauto|].
    destruct (valid_not_reserved _ tdi V) as [R7 R8]; [cbn; tauto|].
    apply Z.eqb_neq in A, B, D.
    assert (C' : (tdi =? tck) = false) by (apply Z.eqb_neq; congruence).
    assert (E' : (tdi =? tms) = false) by (apply Z.eqb_neq; congruence).
    assert (F' : (tdi =? tdo) = false) by (apply Z.eqb_neq; congruence).
    unfold passes4, passes3 in P.
    rewrite A, B, D, C', E', F', R1, R2, R3, R4, R5, R6, R7, R8 in P.
    discriminate.
Qed.

Lemma valid_quadruples_loops :
  valid_quadruples
  = flat_map (fun tck =>
      flat_map (fun tms =>
        if tck =? tms then []
        else
          flat_map (fun tdo =>
            if (tck =? tdo) || (tms =? tdo) then []
            else if (tck =? 1) || (tms =? 1) || (tdo =? 1) then []
            else if (tck =? 2) || (tms =? 2) || (tdo =? 2) then []
            else
              flat_map (fun tdi =>
                if (tdi =? tck) || (tdi =? tms) || (tdi =? tdo)
                   || (tdi =? 1) || (tdi =? 2)
                then []
                else [[tck; tms; tdo; tdi]])
                (upto (Z.to_nat PINS)))
            (upto (Z.to_nat PINS)))
        (upto (Z.to_nat PINS)))
      (upto (Z.to_nat PINS)).
Proof.
  unfold valid_quadruples, all_quadruples.
  change (Z.to_nat PINS) with 16%nat.
  rewrite filter_flat_map_in. apply flat_map_ext_range. intros tck H1.
  rewrite filter_flat_map_in. apply flat_map_ext_range. intros tms H2.
  rewrite filter_flat_map_in, if_flat_map.
  apply flat_map_ext_range. intros tdo H3.
  rewrite filter_map_singletons, !if_flat_map.
  apply flat_map_ext_range. intros tdi H4.
  rewrite (valid_roles_passes4 _ _ _ _ H1 H2 H3 H4).
  unfold passes4, passes3.
  destruct (tck =? tms); [reflexivity|].
  destruct ((tck =? tdo) || (tms =? tdo)); [reflexivity|].
  destruct ((tck =? 1) || (tms =? 1) || (tdo =? 1)); [reflexivity|].
  destruct ((tck =? 2) || (tms =? 2) || (tdo =? 2)); [reflexivity|].
  destruct ((tdi =? tck) || (tdi =? tms) || (tdi =? tdo) || (tdi =? 1)
            || (tdi =? 2)); reflexivity.
Qed.

Lemma valid_pairs_loops :
  valid_pairs
  = flat_map (fun swclk =>
      flat_map (fun swdio =>
        if (swclk =? swdio) || (swclk =? 1) || (swdio =? 1)
           || (swclk =? 2) || (swdio =? 2)
        then []
        else [[swclk; swdio]])
        (upto (Z.to_nat PINS)))
      (upto (Z.to_nat PINS)).
Proof. vm_compute. reflexivity. Qed.

Lemma yields_jtag_finder_bypass_method ones s :
  yields trials_of (log s)
    (log (snd (jtag_finder_bypass_method_with ones s))) valid_quadruples.
Proof.
  rewrite valid_quadruples_loops. unfold jtag_finder_bypass_method_with.
  apply (yields_for_each _ trials_of eq_refl trials_of_app
           (fun rs => log (snd rs)) _ _ _) with (st := (0, s)).
  intros tck rs1 H1.
  apply (yields_for_each _ trials_of eq_refl trials_of_app
           (fun rs => log (snd rs))).
  intros tms rs2 H2.
  destruct (tck =? tms); [apply (yields_refl _ trials_of eq_refl)|].
  apply (yields_for_each _ trials_of eq_refl trials_of_app
           (fun rs => log (snd rs))).
  intros tdo rs3 H3.
  destruct ((tck =? tdo) || (tms =? tdo));
    [apply (yields_refl _ trials_of eq_refl)|].
  destruct ((tck =? 1) || (tms =? 1) || (tdo =? 1));
    [apply (yields_refl _ trials_of eq_refl)|].
  destruct ((tck =? 2) || (tms =? 2) || (tdo =? 2));
    [apply (yields_refl _ trials_of eq_refl)|].
  apply (yields_for_each _ trials_of eq_refl trials_of_app
           (fun rs => log (snd rs))).
  intros tdi [r4 s4] H4.
  destruct ((tdi =? tck) || (tdi =? tms) || (tdi =? tdo) || (tdi =? 1)
            || (tdi =? 2));
    [apply (yields_refl _ trials_of eq_refl)|].
  apply yields_bypass_trial.
Qed.

Lemma yields_swd_finder s :
  yields trials_of (log s) (log (snd (swd_finder s))) valid_pairs.
Proof.
  rewrite valid_pairs_loops. unfold swd_finder.
  apply (yields_for_each _ trials_of eq_refl trials_of_app
           (fun rs => log (snd rs)) _ _ _) with (st := (0, s)).
  intros swclk rs1 H1.
  apply (yields_for_each _ trials_of eq_refl trials_of_app
           (fun rs => log (snd rs))).
  intros swdio [r2 s2] H2.
  destruct ((swclk =? swdio) || (swclk =? 1) || (swdio =? 1)
            || (swclk =? 2) || (swdio =? 2));
    [apply (yields_refl _ trials_of eq_refl)|].
  apply yields_swd_trial.
Qed.

(** The bypass method tries every quadruple of distinct pins other than the
    uart pins exactly once, in ascending order of (tck, tms, tdo, tdi),
    whatever the verdicts are: 24024 trials.  The SWD finder does the same
    with the 182 ordered pairs (swclk, swdio). *)
Theorem bypass_and_swd_searches_are_exhaustive s :
  (exists new,
     history (snd (jtag_finder_bypass_method s)) = history s ++ new
     /\ trials_of new = valid_quadruples)
  /\ Z.of_nat (List.length valid_quadruples) = 24024
  /\ (exists new,
        history (snd (swd_finder s)) = history s ++ new
        /\ trials_of new = valid_pairs)
  /\ Z.of_nat (List.length valid_pairs) = 182.
Proof.
  split; [|split; [|split]].
  - destruct (yields_jtag_finder_bypass_method count_ones s)
      as (new & Hc & Hp).
    exists new. split; [now apply history_continues | exact Hp].
  - vm_compute. reflexivity.
  - destruct (yields_swd_finder s) as (new & Hc & Hp).
    exists new. split; [now apply history_continues | exact Hp].
  - vm_compute. reflexivity.
Qed.

End Exhaustive.

(** ** What every run keeps *)

Section Walk.

Context {W : Type} {target : Target W}.

Implicit Types s : machine W.

Variable R : machine W -> machine W -> Prop.

Hypothesis K : kept_by_steps R.

Local Abbreviation R_refl := (k_refl R K).
Local Abbreviation R_trans := (k_trans R K).
Local Abbreviation R_emit := (k_emit R K).
Local Abbreviation R_byte_val := (k_byte_val R K).
Local Abbreviation R_byte_prev := (k_byte_prev R K).
Local Abbreviation R_toggle_count := (k_toggle_count R K).
Local Abbreviation R_tc := (k_tc R K).
Local Abbreviation R_idval := (k_idval R K).
Local Abbreviation R_cnt1 := (k_cnt1 R K).
Local Abbreviation R_vflag := (k_vflag R K).
Local Abbreviation R_set_pin := (k_set_pin R K).
Local Abbreviation R_clr_pin := (k_clr_pin R K).
Local Abbreviation R_input := (k_input R K).
Local Abbreviation R_output := (k_output R K).
Local Abbreviation R_all_inputs := (k_all_inputs R K).

Create HintDb walk.

Hint Extern 1 (R _ (emit _ _)) => apply R_emit : walk.
Hint Extern 1 (R _ (print _ _)) => apply R_emit : walk.
Hint Extern 1 (R _ (print_dec _ _)) => apply R_emit : walk.
Hint Extern 1 (R _ (print_hex _ _)) => apply R_emit : walk.
Hint Extern 1 (R _ (set_byte_val _ _)) => apply R_byte_val : walk.
Hint Extern 1 (R _ (set_byte_prev _ _)) => apply R_byte_prev : walk.
Hint Extern 1 (R _ (set_toggle_count _ _)) => apply R_toggle_count : walk.
Hint Extern 1 (R _ (set_tc _ _)) => apply R_tc : walk.
Hint Extern 1 (R _ (set_idval _ _)) => apply R_idval : walk.
Hint Extern 1 (R _ (set_cnt1 _ _)) => apply R_cnt1 : walk.
Hint Extern 1 (R _ (set_vflag _ _)) => apply R_vflag : walk.
Hint Extern 1 (R _ (set_pin _ _)) => apply R_set_pin : walk.
Hint Extern 1 (R _ (clr_pin _ _)) => apply R_clr_pin : walk.
Hint Extern 1 (R _ (set_pin_to_input _ _)) => apply R_input : walk.
Hint Extern 1 (R _ (set_pin_to_output _ _)) => apply R_output : walk.
Hint Extern 1 (R _ (set_all_pins_to_inputs _)) => apply R_all_inputs : walk.

(** Follow a chain of operations back to the state it starts from. *)
Ltac walk :=
  lazymatch goal with
  | |- R ?s ?s => apply R_refl
  | |- R ?s (if ?c then _ else _) => destruct c; walk
  | |- R ?s (for_each ?l ?body ?t) =>
      apply (R_trans s t);
      [ walk
      | apply (for_each_preorder R l body R_refl R_trans);
        intros; cbv beta; walk ]
  | |- R ?s (?f ?t) =>
      apply (R_trans s t); [ walk | solve [auto with walk] ]
  end.

Ltac open_body := cbv beta iota zeta delta [read_pin].

Lemma kept_observe s : R s (observe s).
Proof.
  unfold observe. destruct (sampler_step _ _) as [[prev count] acc]. walk.
Qed.
Hint Extern 1 (R _ (observe _)) => apply kept_observe : walk.

Lemma kept_sample pin s : R s (sample pin s).
Proof. unfold sample. open_body. walk. Qed.
Hint Extern 1 (R _ (sample _ _)) => apply kept_sample : walk.

Lemma kept_pulse tck s : R s (pulse tck s).
Proof. unfold pulse. walk. Qed.
Hint Extern 1 (R _ (pulse _ _)) => apply kept_pulse : walk.

Lemma kept_print_tck_tms_tdo tck tms tdo s :
  R s (print_tck_tms_tdo tck tms tdo s).
Proof. unfold print_tck_tms_tdo. open_body. walk. Qed.
Hint Extern 1 (R _ (print_tck_tms_tdo _ _ _ _)) =>
  apply kept_print_tck_tms_tdo : walk.

Lemma kept_print_tck_tms_tdo_tdi tck tms tdo tdi s :
  R s (print_tck_tms_tdo_tdi tck tms tdo tdi s).
Proof. unfold print_tck_tms_tdo_tdi. open_body. walk. Qed.
Hint Extern 1 (R _ (print_tck_tms_tdo_tdi _ _ _ _ _)) =>
  apply kept_print_tck_tms_tdo_tdi : walk.

Lemma kept_send_fixed_swd_pattern swclk swdio val num s :
  R s (send_fixed_swd_pattern swclk swdio val num s).
Proof. unfold send_fixed_swd_pattern. open_body. walk. Qed.
Hint Extern 1 (R _ (send_fixed_swd_pattern _ _ _ _ _)) =>
  apply kept_send_fixed_swd_pattern : walk.

Lemma kept_id_shift_out tck tms tdo s : R s (id_shift_out tck tms tdo s).
Proof. unfold id_shift_out. open_body. walk. Qed.
Hint Extern 1 (R _ (id_shift_out _ _ _ _)) => apply kept_id_shift_out : walk.

Lemma kept_id_flush tck tdi s : R s (id_flush tck tdi s).
Proof. unfold id_flush. open_body. walk. Qed.
Hint Extern 1 (R _ (id_flush _ _ _)) => apply kept_id_flush : walk.

Lemma kept_id_inject tck tdo tdi s : R s (id_inject tck tdo tdi s).
Proof. unfold id_inject. open_body. walk. Qed.
Hint Extern 1 (R _ (id_inject _ _ _ _)) => apply kept_id_inject : walk.

Lemma kept_id_report tck tms tdo tdi s : R s (id_report tck tms tdo tdi s).
Proof. unfold id_report. open_body. walk. Qed.
Hint Extern 1 (R _ (id_report _ _ _ _ _)) => apply kept_id_report : walk.

Lemma kept_id_tdi_probe tck tms tdo tdi s :
  R s (id_tdi_probe tck tms tdo tdi s).
Proof. unfold id_tdi_probe. open_body. walk. Qed.
Hint Extern 1 (R _ (id_tdi_probe _ _ _ _ _)) => apply kept_id_tdi_probe : walk.

Lemma kept_id_prepare tck tms tdo s : R s (id_prepare tck tms tdo s).
Proof. unfold id_prepare. open_body. walk. Qed.
Hint Extern 1 (R _ (id_prepare _ _ _ _)) => apply kept_id_prepare : walk.

Lemma kept_id_capture tck tms tdo s : R s (id_capture tck tms tdo s).
Proof. unfold id_capture. walk. Qed.
Hint Extern 1 (R _ (id_capture _ _ _ _)) => apply kept_id_capture : walk.

Lemma kept_bypass_reset tck tms tdi s : R s (bypass_reset tck tms tdi s).
Proof. unfold bypass_reset. open_body. walk. Qed.
Hint Extern 1 (R _ (bypass_reset _ _ _ _)) => apply kept_bypass_reset : walk.

Lemma kept_bypass_flush tck s : R s (bypass_flush tck s).
Proof. unfold bypass_flush. open_body. walk. Qed.
Hint Extern 1 (R _ (bypass_flush _ _)) => apply kept_bypass_flush : walk.

Lemma kept_bypass_measure tck tms tdo tdi s :
  R s (bypass_measure tck tms tdo tdi s).
Proof. unfold bypass_measure. open_body. walk. Qed.
Hint Extern 1 (R _ (bypass_measure _ _ _ _ _)) =>
  apply kept_bypass_measure : walk.

Lemma kept_bypass_report tck tms tdo tdi s :
  R s (bypass_report tck tms tdo tdi s).
Proof. unfold bypass_report. open_body. walk. Qed.
Hint Extern 1 (R _ (bypass_report _ _ _ _ _)) =>
  apply kept_bypass_report : walk.

Lemma kept_bypass_probe tck tms tdo tdi s :
  R s (bypass_probe tck tms tdo tdi s).
Proof. unfold bypass_probe. open_body. walk. Qed.
Hint Extern 1 (R _ (bypass_probe _ _ _ _ _)) => apply kept_bypass_probe : walk.

Lemma kept_swd_connect swclk swdio s : R s (swd_connect swclk swdio s).
Proof. unfold swd_connect. open_body. walk. Qed.
Hint Extern 1 (R _ (swd_connect _ _ _)) => apply kept_swd_connect : walk.

Lemma kept_swd_read swclk swdio s : R s (swd_read swclk swdio s).
Proof. unfold swd_read. open_body. walk. Qed.
Hint Extern 1 (R _ (swd_read _ _ _)) => apply kept_swd_read : walk.

Lemma kept_swd_report swclk swdio s : R s (swd_report swclk swdio s).
Proof. unfold swd_report. open_body. walk. Qed.
Hint Extern 1 (R _ (swd_report _ _ _)) => apply kept_swd_report : walk.

Lemma kept_swd_probe swclk swdio s : R s (swd_probe swclk swdio s).
Proof. unfold swd_probe. open_body. walk. Qed.
Hint Extern 1 (R _ (swd_probe _ _ _)) => apply kept_swd_probe : walk.

(** The loops that thread [retval]. *)
Local Abbreviation kept := (on_machines R).

Lemma kept_refl a : kept a a.
Proof. apply R_refl. Qed.

Lemma kept_trans a b c : kept a b -> kept b c -> kept a c.
Proof. apply R_trans. Qed.

Lemma kept_id_tdi_trial tck tms tdo tdi rs :
  kept rs (id_tdi_trial tck tms tdo tdi rs).
Proof.
  destruct rs as [r s]. unfold on_machines, id_tdi_trial. cbv zeta.
  destruct (_ && _); cbn [snd].
  - apply R_trans with (id_tdi_probe tck tms tdo tdi s); auto with walk.
  - auto with walk.
Qed.

Lemma kept_id_tdi_search tck tms tdo rs :
  kept rs (id_tdi_search tck tms tdo rs).
Proof.
  unfold id_tdi_search.
  apply (for_each_preorder kept _ _ kept_refl kept_trans).
  intros tdi rs' _.
  destruct ((tdi =? tck) || (tdi =? tms) || (tdi =? tdo) || (tdi =? 1)
            || (tdi =? 2)); [apply kept_refl | apply kept_id_tdi_trial].
Qed.

Lemma kept_id_trial tck tms tdo rs : kept rs (id_trial tck tms tdo rs).
Proof.
  destruct rs as [r s]. unfold id_trial. cbv zeta.
  destruct (7 <? _).
  - apply kept_trans with (r, id_capture tck tms tdo s).
    + apply kept_id_capture.
    + apply kept_id_tdi_search.
  - apply kept_id_capture.
Qed.

Lemma kept_jtag_finder_id_method s : R s (snd (jtag_finder_id_method s)).
Proof.
  unfold jtag_finder_id_method.
  apply (for_each_preorder kept _ _ kept_refl kept_trans) with (s := (0, s)).
  intros tck rs1 _.
  apply (for_each_preorder kept _ _ kept_refl kept_trans).
  intros tms rs2 _. destruct (tck =? tms); [apply kept_refl|].
  apply (for_each_preorder kept _ _ kept_refl kept_trans).
  intros tdo rs3 _.
  destruct ((tck =? tdo) || (tms =? tdo)); [apply kept_refl|].
  destruct ((tck =? 1) || (tms =? 1) || (tdo =? 1)); [apply kept_refl|].
  destruct ((tck =? 2) || (tms =? 2) || (tdo =? 2)); [apply kept_refl|].
  apply kept_id_trial.
Qed.

Lemma kept_bypass_trial_with ones tck tms tdo tdi rs :
  kept rs (bypass_trial_with ones tck tms tdo tdi rs).
Proof.
  destruct rs as [r s]. unfold on_machines, bypass_trial_with, bypass_verdict.
  cbv zeta.
  assert (H : R s (set_cnt1 (ones (idval (bypass_probe tck tms tdo tdi s)))
                     (bypass_probe tck tms tdo tdi s))).
  { apply R_trans with (bypass_probe tck tms tdo tdi s); auto with walk. }
  destruct (_ && _); cbn [snd]; [|exact H].
  eapply R_trans; [exact H | auto with walk].
Qed.

Lemma kept_jtag_finder_bypass_method s :
  R s (snd (jtag_finder_bypass_method s)).
Proof.
  unfold jtag_finder_bypass_method, jtag_finder_bypass_method_with.
  apply (for_each_preorder kept _ _ kept_refl kept_trans) with (s := (0, s)).
  intros tck rs1 _.
  apply (for_each_preorder kept _ _ kept_refl kept_trans).
  intros tms rs2 _. destruct (tck =? tms); [apply kept_refl|].
  apply (for_each_preorder kept _ _ kept_refl kept_trans).
  intros tdo rs3 _.
  destruct ((tck =? tdo) || (tms =? tdo)); [apply kept_refl|].
  destruct ((tck =? 1) || (tms =? 1) || (tdo =? 1)); [apply kept_refl|].
  destruct ((tck =? 2) || (tms =? 2) || (tdo =? 2)); [apply kept_refl|].
  apply (for_each_preorder kept _ _ kept_refl kept_trans).
  intros tdi rs4 _.
  destruct ((tdi =? tck) || (tdi =? tms) || (tdi =? tdo) || (tdi =? 1)
            || (tdi =? 2)); [apply kept_refl|].
  apply kept_bypass_trial_with.
Qed.

Lemma kept_swd_trial swclk swdio rs : kept rs (swd_trial swclk swdio rs).
Proof.
  destruct rs as [r s]. unfold on_machines, swd_trial. cbv zeta.
  destruct (7 <? _); cbn [snd].
  - apply R_trans with (swd_probe swclk swdio s); auto with walk.
  - auto with walk.
Qed.

Lemma kept_swd_finder s : R s (snd (swd_finder s)).
Proof.
  unfold swd_finder.
  apply (for_each_preorder kept _ _ kept_refl kept_trans) with (s := (0, s)).
  intros swclk rs1 _.
  apply (for_each_preorder kept _ _ kept_refl kept_trans).
  intros swdio rs2 _.
  destruct ((swclk =? swdio) || (swclk =? 1) || (swdio =? 1)
            || (swclk =? 2) || (swdio =? 2)); [apply kept_refl|].
  apply kept_swd_trial.
Qed.

Lemma kept_stage (start nf fin : string) (finder : machine W -> Z * machine W)
    s :
  (forall t, R t (snd (finder t))) ->
  R s (print fin
         (if fst (finder (print start s)) =? 0
          then print nf (snd (finder (print start s)))
          else snd (finder (print start s)))).
Proof.
  intros H.
  assert (H1 : R s (snd (finder (print start s)))).
  { apply R_trans with (print start s); [apply R_emit | apply H]. }
  generalize dependent (finder (print start s)). intros rs H1.
  destruct (fst rs =? 0).
  - eapply R_trans; [exact H1|].
    eapply R_trans; apply R_emit.
  - eapply R_trans; [exact H1 | apply R_emit].
Qed.

Lemma kept_run_finders s : R s (run_finders s).
Proof.
  unfold run_finders, id_stage, bypass_stage, swd_stage. cbv zeta.
  eapply R_trans; [|apply R_emit].
  eapply R_trans; [|apply kept_stage, kept_swd_finder].
  eapply R_trans; [|apply kept_stage, kept_jtag_finder_bypass_method].
  eapply R_trans; [|apply kept_stage, kept_jtag_finder_id_method].
  eapply R_trans; apply R_emit.
Qed.

Lemma kept_setup incomingByte s : R s (setup incomingByte s).
Proof.
  unfold setup. cbv zeta.
  eapply R_trans; [|apply kept_run_finders].
  walk.
Qed.

End Walk.

Section Uart.

Context {W : Type} {target : Target W}.

Implicit Types s : machine W.

Lemma no_hit (q pin : Z) :
  reserved q = true -> wired pin && (q =? pin) = false.
Proof.
  intros Hq. destruct (Z.eqb_spec q pin) as [<-|]; [|apply andb_false_r].
  unfold reserved in Hq. apply orb_true_iff in Hq as [H|H];
    apply Z.eqb_eq in H; subst q; reflexivity.
Qed.

Lemma implb_refl (b : bool) : implb b b = true.
Proof. now destruct b. Qed.

Lemma uart_kept_same_io (a b : machine W) : io b = io a -> uart_kept a b.
Proof.
  intros E. unfold uart_kept. rewrite E.
  repeat split; apply implb_refl.
Qed.

Lemma uart_kept_bits (a b : machine W) :
  (forall q, reserved q = true ->
     dir_bit (io b) q = dir_bit (io a) q
     /\ ren_bit (io b) q = ren_bit (io a) q
     /\ implb (out_bit (io b) q) (out_bit (io a) q) = true) ->
  uart_kept a b.
Proof.
  intros H. destruct (H 1 eq_refl) as (D1 & R1 & O1).
  destruct (H 2 eq_refl) as (D2 & R2 & O2).
  unfold uart_kept, uart_config. now rewrite D1, D2, R1, R2.
Qed.

Lemma reserved_range (q : Z) : reserved q = true -> 0 <= q < 16.
Proof.
  unfold reserved. intros H. apply orb_true_iff in H as [H|H];
    apply Z.eqb_eq in H; lia.
Qed.

Lemma uart_kept_by_steps : kept_by_steps (@uart_kept W).
Proof.
  split.
  - intros s. now apply uart_kept_same_io.
  - intros a b c (C1 & O1 & O1') (C2 & O2 & O2'). unfold uart_kept.
    rewrite C2, C1. repeat split.
    + destruct (out_bit (io c) 1), (out_bit (io b) 1), (out_bit (io a) 1);
        cbn in *; congruence.
    + destruct (out_bit (io c) 2), (out_bit (io b) 2), (out_bit (io a) 2);
        cbn in *; congruence.
  - intros e s. now apply uart_kept_same_io.
  - intros v s. now apply uart_kept_same_io.
  - intros v s. now apply uart_kept_same_io.
  - intros v s. now apply uart_kept_same_io.
  - intros v s. now apply uart_kept_same_io.
  - intros v s. now apply uart_kept_same_io.
  - intros v s. now apply uart_kept_same_io.
  - intros v s. now apply uart_kept_same_io.
  - intros pin s. apply uart_kept_bits. intros q Hq.
    pose proof (reserved_range q Hq) as Rq.
    destruct (frame_set_pin pin s) as [F _].
    injection F as F1 F2 F3 F4.
    rewrite out_bit_set_pin, (no_hit q pin Hq) by exact Rq.
    unfold dir_bit, ren_bit. rewrite F1, F2, F3, F4.
    repeat split. apply implb_refl.
  - intros pin s. apply uart_kept_bits. intros q Hq.
    pose proof (reserved_range q Hq) as Rq.
    destruct (frame_clr_pin pin s) as [F _].
    injection F as F1 F2 F3 F4.
    rewrite out_bit_clr_pin, (no_hit q pin Hq) by exact Rq.
    unfold dir_bit, ren_bit. rewrite F1, F2, F3, F4.
    repeat split. apply implb_refl.
  - intros pin s. apply uart_kept_bits. intros q Hq.
    destruct (bits_set_pin_to_input pin q s (reserved_range q Hq))
      as (D & E & F).
    rewrite D, E, F, (no_hit q pin Hq). repeat split. apply implb_refl.
  - intros pin s. apply uart_kept_bits. intros q Hq.
    destruct (bits_set_pin_to_output pin q s (reserved_range q Hq))
      as (D & E & F).
    rewrite D, E, F, (no_hit q pin Hq). repeat split. apply implb_refl.
  - intros s. apply uart_kept_bits. intros q Hq.
    destruct (bits_set_all_pins_to_inputs q s (reserved_range q Hq))
      as (D & E & F).
    rewrite D, E, F, Hq. cbn [andb orb negb].
    repeat split. destruct (Z.ltb_spec q 8); [reflexivity|].
    unfold reserved in Hq. apply orb_true_iff in Hq as [H'|H'];
      apply Z.eqb_eq in H'; lia.
Qed.


End Uart.

(** ** Verbose mode only adds prints *)

Section Verbose.

Context {W : Type} {target : Target W}.

Implicit Types a b s : machine W.

Ltac open_views :=
  let H := fresh "H" in
  intros H; unfold same_activity, quiet_view in *;
  match goal with
  | a : machine W, b : machine W |- _ => destruct a, b
  end;
  cbn [io byte_val byte_prev toggle_count tc idval cnt1 world log] in H;
  injection H as -> -> -> -> -> -> -> -> H.

Lemma pin_activity_cons e (l : list event) :
  pin_activity (e :: l)
  = if console e then pin_activity l else e :: pin_activity l.
Proof. unfold pin_activity. cbn [filter]. now destruct (console e). Qed.

Ltac views H :=
  cbn -[pin_activity]; rewrite ?pin_activity_cons; cbn [console];
  rewrite ?H; reflexivity.

Lemma same_emit e a b :
  same_activity a b -> same_activity (emit e a) (emit e b).
Proof. open_views. cbn -[pin_activity]. now rewrite !pin_activity_cons, H. Qed.

Lemma same_print_l text a b :
  same_activity a b -> same_activity (print text a) b.
Proof. open_views. views H. Qed.

Lemma same_print_r text a b :
  same_activity a b -> same_activity a (print text b).
Proof. open_views. views H. Qed.

Lemma same_print_dec_l n a b :
  same_activity a b -> same_activity (print_dec n a) b.
Proof. open_views. views H. Qed.

Lemma same_print_dec_r n a b :
  same_activity a b -> same_activity a (print_dec n b).
Proof. open_views. views H. Qed.

Lemma same_print_hex_l n a b :
  same_activity a b -> same_activity (print_hex n a) b.
Proof. open_views. views H. Qed.

Lemma same_print_hex_r n a b :
  same_activity a b -> same_activity a (print_hex n b).
Proof. open_views. views H. Qed.

Lemma both_set_byte_val v a b :
  same_activity a b -> same_activity (set_byte_val v a) (set_byte_val v b).
Proof. open_views. views H. Qed.

Lemma both_set_byte_prev v a b :
  same_activity a b -> same_activity (set_byte_prev v a) (set_byte_prev v b).
Proof. open_views. views H. Qed.

Lemma both_set_toggle_count v a b :
  same_activity a b ->
  same_activity (set_toggle_count v a) (set_toggle_count v b).
Proof. open_views. views H. Qed.

Lemma both_set_tc v a b :
  same_activity a b -> same_activity (set_tc v a) (set_tc v b).
Proof. open_views. views H. Qed.

Lemma both_set_idval v a b :
  same_activity a b -> same_activity (set_idval v a) (set_idval v b).
Proof. open_views. views H. Qed.

Lemma both_set_cnt1 v a b :
  same_activity a b -> same_activity (set_cnt1 v a) (set_cnt1 v b).
Proof. open_views. views H. Qed.

Lemma both_set_vflag u v a b :
  same_activity a b -> same_activity (set_vflag u a) (set_vflag v b).
Proof. open_views. views H. Qed.

Lemma same_set_vflag_l v a b :
  same_activity a b -> same_activity (set_vflag v a) b.
Proof. open_views. views H. Qed.

Lemma same_set_vflag_r v a b :
  same_activity a b -> same_activity a (set_vflag v b).
Proof. open_views. views H. Qed.

Ltac by_cascade H :=
  cbv zeta;
  repeat match goal with
         | |- context [?p =? ?k] =>
             destruct (p =? k); [views H|]
         end;
  views H.

Lemma same_set_pin pin a b :
  same_activity a b -> same_activity (set_pin pin a) (set_pin pin b).
Proof. open_views. unfold set_pin. by_cascade H. Qed.

Lemma same_clr_pin pin a b :
  same_activity a b -> same_activity (clr_pin pin a) (clr_pin pin b).
Proof. open_views. unfold clr_pin. by_cascade H. Qed.

Lemma same_set_pin_to_input pin a b :
  same_activity a b ->
  same_activity (set_pin_to_input pin a) (set_pin_to_input pin b).
Proof. open_views. unfold set_pin_to_input. by_cascade H. Qed.

Lemma same_set_pin_to_output pin a b :
  same_activity a b ->
  same_activity (set_pin_to_output pin a) (set_pin_to_output pin b).
Proof. open_views. unfold set_pin_to_output. by_cascade H. Qed.

Lemma same_set_all_pins_to_inputs a b :
  same_activity a b ->
  same_activity (set_all_pins_to_inputs a) (set_all_pins_to_inputs b).
Proof. open_views. views H. Qed.

Lemma same_sample pin a b :
  same_activity a b -> same_activity (sample pin a) (sample pin b).
Proof.
  open_views. unfold sample, read_pin, observe.
  cbn -[pin_activity sampler_step].
  destruct (sampler_step _ _) as [[prev count] acc]. views H.
Qed.

Lemma same_fields a b :
  same_activity a b ->
  toggle_count a = toggle_count b /\ tc a = tc b /\ idval a = idval b.
Proof. open_views. repeat split. Qed.

Lemma same_count_step tdo a b :
  same_activity a b ->
  same_activity
    (let (byte, s) := read_pin tdo a in
     let s := set_byte_val byte s in
     let s := if byte_val s =? byte_prev s then s
              else set_tc (u8 (tc s + 1)) s in
     set_byte_prev (byte_val s) s)
    (let (byte, s) := read_pin tdo b in
     let s := set_byte_val byte s in
     let s := if byte_val s =? byte_prev s then s
              else set_tc (u8 (tc s + 1)) s in
     set_byte_prev (byte_val s) s).
Proof.
  open_views. unfold read_pin. cbn -[pin_activity].
  destruct (_ =? _); views H.
Qed.

Create HintDb same.

Hint Extern 1 (same_activity (emit _ _) (emit _ _)) =>
  apply same_emit : same.
Hint Extern 1 (same_activity (print _ _) _) => apply same_print_l : same.
Hint Extern 1 (same_activity _ (print _ _)) => apply same_print_r : same.
Hint Extern 1 (same_activity (print_dec _ _) _) =>
  apply same_print_dec_l : same.
Hint Extern 1 (same_activity _ (print_dec _ _)) =>
  apply same_print_dec_r : same.
Hint Extern 1 (same_activity (print_hex _ _) _) =>
  apply same_print_hex_l : same.
Hint Extern 1 (same_activity _ (print_hex _ _)) =>
  apply same_print_hex_r : same.
Hint Extern 1 (same_activity (set_byte_val _ _) (set_byte_val _ _)) =>
  apply both_set_byte_val : same.
Hint Extern 1 (same_activity (set_byte_prev _ _) (set_byte_prev _ _)) =>
  apply both_set_byte_prev : same.
Hint Extern 1 (same_activity (set_toggle_count _ _) (set_toggle_count _ _)) =>
  apply both_set_toggle_count : same.
Hint Extern 1 (same_activity (set_tc _ _) (set_tc _ _)) =>
  apply both_set_tc : same.
Hint Extern 1 (same_activity (set_idval _ _) (set_idval _ _)) =>
  apply both_set_idval : same.
Hint Extern 1 (same_activity (set_cnt1 _ _) (set_cnt1 _ _)) =>
  apply both_set_cnt1 : same.
Hint Extern 1 (same_activity (set_vflag _ _) (set_vflag _ _)) =>
  apply both_set_vflag : same.
Hint Extern 1 (same_activity (set_pin _ _) (set_pin _ _)) =>
  apply same_set_pin : same.
Hint Extern 1 (same_activity (clr_pin _ _) (clr_pin _ _)) =>
  apply same_clr_pin : same.
Hint Extern 1 (same_activity (set_pin_to_input _ _)
                 (set_pin_to_input _ _)) =>
  apply same_set_pin_to_input : same.
Hint Extern 1 (same_activity (set_pin_to_output _ _)
                 (set_pin_to_output _ _)) =>
  apply same_set_pin_to_output : same.
Hint Extern 1 (same_activity (set_all_pins_to_inputs _)
                 (set_all_pins_to_inputs _)) =>
  apply same_set_all_pins_to_inputs : same.
Hint Extern 1 (same_activity (sample _ _) (sample _ _)) =>
  apply same_sample : same.
Hint Extern 2 (same_activity (if ?c then _ else _) _) => destruct c : same.
Hint Extern 2 (same_activity _ (if ?c then _ else _)) => destruct c : same.
Hint Extern 1 (same_activity (for_each ?l _ _) (for_each ?l _ _)) =>
  apply (for_each_related same_activity l); [intros; cbv beta|] : same.

Ltac pairs := solve [auto 60 with same].

Lemma same_pulse tck a b :
  same_activity a b -> same_activity (pulse tck a) (pulse tck b).
Proof. intros H. unfold pulse. pairs. Qed.
Hint Extern 1 (same_activity (pulse _ _) (pulse _ _)) =>
  apply same_pulse : same.

Lemma same_print_tck_tms_tdo_l tck tms tdo a b :
  same_activity a b -> same_activity (print_tck_tms_tdo tck tms tdo a) b.
Proof. intros H. unfold print_tck_tms_tdo. cbv zeta. pairs. Qed.

Lemma same_print_tck_tms_tdo_r tck tms tdo a b :
  same_activity a b -> same_activity a (print_tck_tms_tdo tck tms tdo b).
Proof. intros H. unfold print_tck_tms_tdo. cbv zeta. pairs. Qed.
Hint Extern 1 (same_activity (print_tck_tms_tdo _ _ _ _) _) =>
  apply same_print_tck_tms_tdo_l : same.
Hint Extern 1 (same_activity _ (print_tck_tms_tdo _ _ _ _)) =>
  apply same_print_tck_tms_tdo_r : same.

Lemma same_print_tck_tms_tdo_tdi_l tck tms tdo tdi a b :
  same_activity a b ->
  same_activity (print_tck_tms_tdo_tdi tck tms tdo tdi a) b.
Proof. intros H. unfold print_tck_tms_tdo_tdi. cbv zeta. pairs. Qed.

Lemma same_print_tck_tms_tdo_tdi_r tck tms tdo tdi a b :
  same_activity a b ->
  same_activity a (print_tck_tms_tdo_tdi tck tms tdo tdi b).
Proof. intros H. unfold print_tck_tms_tdo_tdi. cbv zeta. pairs. Qed.
Hint Extern 1 (same_activity (print_tck_tms_tdo_tdi _ _ _ _ _) _) =>
  apply same_print_tck_tms_tdo_tdi_l : same.
Hint Extern 1 (same_activity _ (print_tck_tms_tdo_tdi _ _ _ _ _)) =>
  apply same_print_tck_tms_tdo_tdi_r : same.

Lemma same_send_fixed_swd_pattern swclk swdio val num a b :
  same_activity a b ->
  same_activity (send_fixed_swd_pattern swclk swdio val num a)
    (send_fixed_swd_pattern swclk swdio val num b).
Proof. intros H. unfold send_fixed_swd_pattern. cbv zeta. pairs. Qed.
Hint Extern 1 (same_activity (send_fixed_swd_pattern _ _ _ _ _)
                 (send_fixed_swd_pattern _ _ _ _ _)) =>
  apply same_send_fixed_swd_pattern : same.

Lemma same_id_shift_out tck tms tdo a b :
  same_activity a b ->
  same_activity (id_shift_out tck tms tdo a) (id_shift_out tck tms tdo b).
Proof. intros H. unfold id_shift_out. cbv zeta. pairs. Qed.
Hint Extern 1 (same_activity (id_shift_out _ _ _ _) (id_shift_out _ _ _ _)) =>
  apply same_id_shift_out : same.

Lemma same_id_flush tck tdi a b :
  same_activity a b ->
  same_activity (id_flush tck tdi a) (id_flush tck tdi b).
Proof. intros H. unfold id_flush. cbv zeta. pairs. Qed.
Hint Extern 1 (same_activity (id_flush _ _ _) (id_flush _ _ _)) =>
  apply same_id_flush : same.

Lemma same_id_inject tck tdo tdi a b :
  same_activity a b ->
  same_activity (id_inject tck tdo tdi a) (id_inject tck tdo tdi b).
Proof.
  intros H. unfold id_inject.
  apply (for_each_related same_activity); [|exact H].
  intros j x y _ Hxy. cbv beta zeta.
  apply (same_count_step tdo
           (if (j <? 32) && negb (j mod 2 =? 0)
            then set_pin tdi (clr_pin tck (set_pin tck x))
            else clr_pin tdi (clr_pin tck (set_pin tck x)))
           (if (j <? 32) && negb (j mod 2 =? 0)
            then set_pin tdi (clr_pin tck (set_pin tck y))
            else clr_pin tdi (clr_pin tck (set_pin tck y)))).
  destruct ((j <? 32) && negb (j mod 2 =? 0)); pairs.
Qed.
Hint Extern 1 (same_activity (id_inject _ _ _ _) (id_inject _ _ _ _)) =>
  apply same_id_inject : same.

Lemma same_id_report tck tms tdo tdi a b :
  same_activity a b ->
  same_activity (id_report tck tms tdo tdi a) (id_report tck tms tdo tdi b).
Proof. intros H. unfold id_report. cbv zeta. pairs. Qed.

Lemma same_id_tdi_probe tck tms tdo tdi a b :
  same_activity a b ->
  same_activity (id_tdi_probe tck tms tdo tdi a)
    (id_tdi_probe tck tms tdo tdi b).
Proof. intros H. unfold id_tdi_probe. cbv zeta. pairs. Qed.

Lemma same_id_capture tck tms tdo a b :
  same_activity a b ->
  same_activity (id_capture tck tms tdo a) (id_capture tck tms tdo b).
Proof. intros H. unfold id_capture, id_prepare. cbv zeta. pairs. Qed.

Lemma same_bypass_reset tck tms tdi a b :
  same_activity a b ->
  same_activity (bypass_reset tck tms tdi a) (bypass_reset tck tms tdi b).
Proof. intros H. unfold bypass_reset. cbv zeta. pairs. Qed.
Hint Extern 1 (same_activity (bypass_reset _ _ _ _) (bypass_reset _ _ _ _)) =>
  apply same_bypass_reset : same.

Lemma same_bypass_flush tck a b :
  same_activity a b ->
  same_activity (bypass_flush tck a) (bypass_flush tck b).
Proof. intros H. unfold bypass_flush. pairs. Qed.
Hint Extern 1 (same_activity (bypass_flush _ _) (bypass_flush _ _)) =>
  apply same_bypass_flush : same.

Lemma same_bypass_measure tck tms tdo tdi a b :
  same_activity a b ->
  same_activity (bypass_measure tck tms tdo tdi a)
    (bypass_measure tck tms tdo tdi b).
Proof. intros H. unfold bypass_measure. cbv zeta. pairs. Qed.
Hint Extern 1 (same_activity (bypass_measure _ _ _ _ _)
                 (bypass_measure _ _ _ _ _)) =>
  apply same_bypass_measure : same.

Lemma same_bypass_report tck tms tdo tdi a b :
  same_activity a b ->
  same_activity (bypass_report tck tms tdo tdi a)
    (bypass_report tck tms tdo tdi b).
Proof. intros H. unfold bypass_report. cbv zeta. pairs. Qed.

Lemma same_bypass_probe tck tms tdo tdi a b :
  same_activity a b ->
  same_activity (bypass_probe tck tms tdo tdi a)
    (bypass_probe tck tms tdo tdi b).
Proof. intros H. unfold bypass_probe. cbv zeta. pairs. Qed.

Lemma same_swd_connect swclk swdio a b :
  same_activity a b ->
  same_activity (swd_connect swclk swdio a) (swd_connect swclk swdio b).
Proof. intros H. unfold swd_connect. cbv zeta. pairs. Qed.
Hint Extern 1 (same_activity (swd_connect _ _ _) (swd_connect _ _ _)) =>
  apply same_swd_connect : same.

Lemma same_swd_read swclk swdio a b :
  same_activity a b ->
  same_activity (swd_read swclk swdio a) (swd_read swclk swdio b).
Proof. intros H. unfold swd_read. cbv zeta. pairs. Qed.
Hint Extern 1 (same_activity (swd_read _ _ _) (swd_read _ _ _)) =>
  apply same_swd_read : same.

Lemma same_swd_report swclk swdio a b :
  same_activity a b ->
  same_activity (swd_report swclk swdio a) (swd_report swclk swdio b).
Proof. intros H. unfold swd_report. cbv zeta. pairs. Qed.

Lemma same_swd_probe swclk swdio a b :
  same_activity a b ->
  same_activity (swd_probe swclk swdio a) (swd_probe swclk swdio b).
Proof. intros H. unfold swd_probe. cbv zeta. pairs. Qed.

(** The trials and the loops that thread [retval]. *)
Lemma outcome_refl (rs : Z * machine W) : same_outcome rs rs.
Proof. split; reflexivity. Qed.

Lemma outcome_id_tdi_trial tck tms tdo tdi (ra rb : Z * machine W) :
  same_outcome ra rb ->
  same_outcome (id_tdi_trial tck tms tdo tdi ra)
    (id_tdi_trial tck tms tdo tdi rb).
Proof.
  destruct ra as [r a], rb as [r' b]. intros [Hr Hs]. cbn [fst snd] in *.
  subst r'. unfold id_tdi_trial. cbv zeta.
  pose proof (same_id_tdi_probe tck tms tdo tdi a b Hs) as P. revert P.
  generalize (id_tdi_probe tck tms tdo tdi a),
    (id_tdi_probe tck tms tdo tdi b).
  intros a' b' P. destruct (same_fields a' b' P) as (_ & E & _).
  rewrite E. destruct ((29 <? tc b') && (tc b' <? 35)); split; cbn [fst snd];
    auto using same_id_report.
Qed.

Lemma outcome_id_tdi_search tck tms tdo (ra rb : Z * machine W) :
  same_outcome ra rb ->
  same_outcome (id_tdi_search tck tms tdo ra) (id_tdi_search tck tms tdo rb).
Proof.
  unfold id_tdi_search. apply (for_each_related same_outcome).
  intros tdi x y _ H.
  destruct ((tdi =? tck) || (tdi =? tms) || (tdi =? tdo) || (tdi =? 1)
            || (tdi =? 2)); [exact H | now apply outcome_id_tdi_trial].
Qed.

Lemma outcome_id_trial tck tms tdo (ra rb : Z * machine W) :
  same_outcome ra rb ->
  same_outcome (id_trial tck tms tdo ra) (id_trial tck tms tdo rb).
Proof.
  destruct ra as [r a], rb as [r' b]. intros [Hr Hs]. cbn [fst snd] in *.
  subst r'. unfold id_trial. cbv zeta.
  pose proof (same_id_capture tck tms tdo a b Hs) as P. revert P.
  generalize (id_capture tck tms tdo a), (id_capture tck tms tdo b).
  intros a' b' P. destruct (same_fields a' b' P) as (E & _ & _).
  rewrite E. destruct (7 <? toggle_count b').
  - apply outcome_id_tdi_search. now split.
  - now split.
Qed.

Lemma outcome_jtag_finder_id_method a b :
  same_activity a b ->
  same_outcome (jtag_finder_id_method a) (jtag_finder_id_method b).
Proof.
  intros H. unfold jtag_finder_id_method.
  apply (for_each_related same_outcome); [|now split].
  intros tck x1 y1 _ H1. apply (for_each_related same_outcome); [|exact H1].
  intros tms x2 y2 _ H2. destruct (tck =? tms); [exact H2|].
  apply (for_each_related same_outcome); [|exact H2].
  intros tdo x3 y3 _ H3.
  destruct ((tck =? tdo) || (tms =? tdo)); [exact H3|].
  destruct ((tck =? 1) || (tms =? 1) || (tdo =? 1)); [exact H3|].
  destruct ((tck =? 2) || (tms =? 2) || (tdo =? 2)); [exact H3|].
  now apply outcome_id_trial.
Qed.

Lemma outcome_bypass_trial_with ones tck tms tdo tdi
    (ra rb : Z * machine W) :
  same_outcome ra rb ->
  same_outcome (bypass_trial_with ones tck tms tdo tdi ra)
    (bypass_trial_with ones tck tms tdo tdi rb).
Proof.
  destruct ra as [r a], rb as [r' b]. intros [Hr Hs]. cbn [fst snd] in *.
  subst r'. unfold bypass_trial_with, bypass_verdict. cbv zeta.
  pose proof (same_bypass_probe tck tms tdo tdi a b Hs) as P. revert P.
  generalize (bypass_probe tck tms tdo tdi a),
    (bypass_probe tck tms tdo tdi b).
  intros a' b' P. destruct (same_fields a' b' P) as (E & _ & I).
  rewrite !toggle_count_set_cnt1, E, I.
  pose proof (both_set_cnt1 (ones (idval b')) a' b' P) as Q.
  destruct ((13 <? toggle_count b') && (toggle_count b' <? 19)); split;
    cbn [fst snd]; auto using same_bypass_report.
Qed.

Lemma outcome_jtag_finder_bypass_method ones a b :
  same_activity a b ->
  same_outcome (jtag_finder_bypass_method_with ones a)
    (jtag_finder_bypass_method_with ones b).
Proof.
  intros H. unfold jtag_finder_bypass_method_with.
  apply (for_each_related same_outcome); [|now split].
  intros tck x1 y1 _ H1. apply (for_each_related same_outcome); [|exact H1].
  intros tms x2 y2 _ H2. destruct (tck =? tms); [exact H2|].
  apply (for_each_related same_outcome); [|exact H2].
  intros tdo x3 y3 _ H3.
  destruct ((tck =? tdo) || (tms =? tdo)); [exact H3|].
  destruct ((tck =? 1) || (tms =? 1) || (tdo =? 1)); [exact H3|].
  destruct ((tck =? 2) || (tms =? 2) || (tdo =? 2)); [exact H3|].
  apply (for_each_related same_outcome); [|exact H3].
  intros tdi x4 y4 _ H4.
  destruct ((tdi =? tck) || (tdi =? tms) || (tdi =? tdo) || (tdi =? 1)
            || (tdi =? 2)); [exact H4|].
  now apply outcome_bypass_trial_with.
Qed.

Lemma outcome_swd_trial swclk swdio (ra rb : Z * machine W) :
  same_outcome ra rb ->
  same_outcome (swd_trial swclk swdio ra) (swd_trial swclk swdio rb).
Proof.
  destruct ra as [r a], rb as [r' b]. intros [Hr Hs]. cbn [fst snd] in *.
  subst r'. unfold swd_trial. cbv zeta.
  pose proof (same_swd_probe swclk swdio a b Hs) as P. revert P.
  generalize (swd_probe swclk swdio a), (swd_probe swclk swdio b).
  intros a' b' P. destruct (same_fields a' b' P) as (E & _ & _).
  rewrite E. destruct (7 <? toggle_count b'); split; cbn [fst snd];
    auto using same_swd_report.
Qed.

Lemma outcome_swd_finder a b :
  same_activity a b -> same_outcome (swd_finder a) (swd_finder b).
Proof.
  intros H. unfold swd_finder.
  apply (for_each_related same_outcome); [|now split].
  intros swclk x1 y1 _ H1. apply (for_each_related same_outcome); [|exact H1].
  intros swdio x2 y2 _ H2.
  destruct ((swclk =? swdio) || (swclk =? 1) || (swdio =? 1)
            || (swclk =? 2) || (swdio =? 2)); [exact H2|].
  now apply outcome_swd_trial.
Qed.

Lemma same_stage (start nf fin : string)
    (finder : machine W -> Z * machine W) a b :
  (forall x y, same_activity x y -> same_outcome (finder x) (finder y)) ->
  same_activity a b ->
  same_activity
    (print fin
       (if fst (finder (print start a)) =? 0
        then print nf (snd (finder (print start a)))
        else snd (finder (print start a))))
    (print fin
       (if fst (finder (print start b)) =? 0
        then print nf (snd (finder (print start b)))
        else snd (finder (print start b)))).
Proof.
  intros Hf H.
  destruct (Hf (print start a) (print start b)) as [E P];
    [now apply same_print_l, same_print_r|].
  revert E P.
  generalize (finder (print start a)), (finder (print start b)).
  intros [r x] [r' y] E P. cbn [fst snd] in *. subst r'.
  apply same_print_l, same_print_r.
  destruct (r =? 0); [now apply same_print_l, same_print_r | exact P].
Qed.

Lemma same_run_finders a b :
  same_activity a b -> same_activity (run_finders a) (run_finders b).
Proof.
  intros H. unfold run_finders, id_stage, bypass_stage, swd_stage.
  cbv zeta. apply same_print_l, same_print_r.
  apply same_stage; [apply outcome_swd_finder|].
  apply (same_stage _ _ _ jtag_finder_bypass_method);
    [apply outcome_jtag_finder_bypass_method|].
  apply same_stage; [apply outcome_jtag_finder_id_method|].
  now repeat apply same_print_l, same_print_r.
Qed.

End Verbose.

(** Verbose mode changes nothing but the console output.  Run with the
    verbose flag set or clear, each finder returns the same value and ends
    with the same registers, the same variables and the same target state,
    after the same pin operations, reads and trials in the same order; and
    [setup] does so whatever key is pressed. *)
Theorem verbose_mode_only_adds_prints {W : Type} {target : Target W}
    (v key key' : Z) (s : machine W) :
  same_outcome (jtag_finder_id_method (set_vflag v s))
    (jtag_finder_id_method (set_vflag 0 s))
  /\ same_outcome (jtag_finder_bypass_method (set_vflag v s))
       (jtag_finder_bypass_method (set_vflag 0 s))
  /\ same_outcome (swd_finder (set_vflag v s)) (swd_finder (set_vflag 0 s))
  /\ same_activity (setup key s) (setup key' s).
Proof.
  assert (H : same_activity (set_vflag v s) (set_vflag 0 s))
    by now apply both_set_vflag.
  unfold jtag_finder_bypass_method.
  split; [exact (outcome_jtag_finder_id_method _ _ H)|].
  split; [exact (outcome_jtag_finder_bypass_method count_ones _ _ H)|].
  split; [exact (outcome_swd_finder _ _ H)|].
  clear H. unfold setup. cbv zeta. apply same_run_finders.
  repeat match goal with
         | |- same_activity (if ?c then _ else _) _ => destruct c
         | |- same_activity _ (if ?c then _ else _) => destruct c
         | |- same_activity (print _ _) _ => apply same_print_l
         | |- same_activity _ (print _ _) => apply same_print_r
         | |- same_activity (set_vflag _ _) _ => apply same_set_vflag_l
         | |- same_activity _ (set_vflag _ _) => apply same_set_vflag_r
         end;
    reflexivity.
Qed.

(** ** The finders as searches *)

Lemma for_each_ext {S : Type} (l : list Z) (f g : Z -> S -> S) :
  (forall j st, f j st = g j st) ->
  forall st, for_each l f st = for_each l g st.
Proof.
  intros H. induction l as [|j l IH]; intros st; [reflexivity|].
  now rewrite !for_each_cons, H, IH.
Qed.

Lemma run_trials_nil {S : Type} (trial : list Z -> S -> S) (st : S) :
  run_trials trial [] st = st.
Proof. reflexivity. Qed.

Lemma run_trials_cons {S : Type} (trial : list Z -> S -> S)
    (q : list Z) (space : list (list Z)) (st : S) :
  run_trials trial (q :: space) st = run_trials trial space (trial q st).
Proof. reflexivity. Qed.

Lemma run_trials_app {S : Type} (trial : list Z -> S -> S)
    (a b : list (list Z)) (st : S) :
  run_trials trial (a ++ b) st = run_trials trial b (run_trials trial a st).
Proof. unfold run_trials. apply fold_left_app. Qed.

(** A loop whose rounds each run the trials of a part of the space runs the
    trials of the whole space. *)
Lemma for_each_flat_map {S : Type} (trial : list Z -> S -> S)
    (part : Z -> list (list Z)) (l : list Z) (st : S) :
  for_each l (fun j acc => run_trials trial (part j) acc) st
  = run_trials trial (flat_map part l) st.
Proof.
  revert st. induction l as [|j l IH]; intros st; [reflexivity|].
  rewrite for_each_cons, IH. cbn [flat_map]. now rewrite run_trials_app.
Qed.

Lemma if_run_trials {S : Type} (trial : list Z -> S -> S) (c : bool)
    (space : list (list Z)) (st : S) :
  (if c then st else run_trials trial space st)
  = run_trials trial (if c then [] else space) st.
Proof. now destruct c. Qed.

Section Verdicts.

Context {W : Type} {target : Target W}.

Implicit Types s : machine W.

Variable accepts : list Z -> machine W -> bool.
Variable trial : list Z -> Z * machine W -> Z * machine W.

Hypothesis trial_flag :
  forall q r s, fst (trial q (r, s)) = if accepts q s then 1 else r.
Hypothesis trial_state :
  forall q r s, snd (trial q (r, s)) = snd (trial q (0, s)).

Lemma run_trials_state (space : list (list Z)) r s :
  snd (run_trials trial space (r, s)) = snd (run_trials trial space (0, s)).
Proof.
  revert r s. induction space as [|q space IH]; intros r s; [reflexivity|].
  rewrite !run_trials_cons.
  rewrite (surjective_pairing (trial q (r, s))).
  rewrite (surjective_pairing (trial q (0, s))).
  rewrite (trial_state q r s).
  rewrite (IH (fst (trial q (r, s)))), (IH (fst (trial q (0, s)))).
  reflexivity.
Qed.

Lemma run_trials_flag (space : list (list Z)) r s :
  fst (run_trials trial space (r, s))
  = if some_accepted accepts trial space s then 1 else r.
Proof.
  revert r s. induction space as [|q space IH]; intros r s; [reflexivity|].
  rewrite run_trials_cons. cbn [some_accepted].
  rewrite (surjective_pairing (trial q (r, s))).
  rewrite IH, trial_flag, (trial_state q r s).
  destruct (accepts q s); cbn [orb];
    now destruct (some_accepted accepts trial space _).
Qed.

End Verdicts.

Section SearchSpaces.

Context {W : Type} {target : Target W}.

Implicit Types s : machine W.

(** *** The verdict of one trial *)

Lemma id_tdi_trial_flag roles r s :
  fst (id_tdi_trial_of roles (r, s))
  = if id_tdi_accepts roles s then 1 else r.
Proof.
  destruct roles as [|tck [|tms [|tdo [|tdi [|x roles]]]]];
    [reflexivity | reflexivity | reflexivity | reflexivity | | reflexivity].
  cbn [id_tdi_trial_of id_tdi_accepts].
  destruct (id_tdi_trial_verdict tck tms tdo tdi r s) as (n & _ & _ & Hf).
  exact Hf.
Qed.

Lemma id_tdi_trial_state roles r s :
  snd (id_tdi_trial_of roles (r, s)) = snd (id_tdi_trial_of roles (0, s)).
Proof.
  destruct roles as [|tck [|tms [|tdo [|tdi [|x roles]]]]];
    [reflexivity | reflexivity | reflexivity | reflexivity | | reflexivity].
  cbn [id_tdi_trial_of]. unfold id_tdi_trial. cbv zeta.
  destruct ((29 <? tc (id_tdi_probe tck tms tdo tdi s))
            && (tc (id_tdi_probe tck tms tdo tdi s) <? 35));
    cbn [snd]; reflexivity.
Qed.

Lemma bypass_trial_flag roles r s :
  fst (bypass_trial_of roles (r, s))
  = if bypass_accepts roles s then 1 else r.
Proof.
  destruct roles as [|tck [|tms [|tdo [|tdi [|x roles]]]]];
    [reflexivity | reflexivity | reflexivity | reflexivity | | reflexivity].
  cbn [bypass_trial_of bypass_accepts]. unfold bypass_trial.
  destruct (bypass_trial_verdict count_ones tck tms tdo tdi r s)
    as (n & _ & _ & Hf).
  exact Hf.
Qed.

Lemma bypass_trial_state roles r s :
  snd (bypass_trial_of roles (r, s)) = snd (bypass_trial_of roles (0, s)).
Proof.
  destruct roles as [|tck [|tms [|tdo [|tdi [|x roles]]]]];
    [reflexivity | reflexivity | reflexivity | reflexivity | | reflexivity].
  cbn [bypass_trial_of].
  unfold bypass_trial, bypass_trial_with, bypass_verdict. cbv zeta.
  destruct (_ && _); cbn [snd]; reflexivity.
Qed.

Lemma swd_trial_flag roles r s :
  fst (swd_trial_of roles (r, s)) = if swd_accepts roles s then 1 else r.
Proof.
  destruct roles as [|swclk [|swdio [|x roles]]];
    [reflexivity | reflexivity | | reflexivity].
  cbn [swd_trial_of swd_accepts].
  destruct (swd_trial_verdict swclk swdio r s) as (n & _ & _ & Hf).
  exact Hf.
Qed.

Lemma swd_trial_state roles r s :
  snd (swd_trial_of roles (r, s)) = snd (swd_trial_of roles (0, s)).
Proof.
  destruct roles as [|swclk [|swdio [|x roles]]];
    [reflexivity | reflexivity | | reflexivity].
  cbn [swd_trial_of]. unfold swd_trial. cbv zeta.
  destruct (7 <? toggle_count (swd_probe swclk swdio s)); cbn [snd];
    reflexivity.
Qed.

(** *** The loops, as searches *)

Lemma id_tdi_search_space tck tms tdo (rs : Z * machine W) :
  id_tdi_search tck tms tdo rs
  = run_trials id_tdi_trial_of (id_tdi_candidates tck tms tdo) rs.
Proof.
  unfold id_tdi_search, id_tdi_candidates.
  rewrite <- flat_map_filter_map.
  etransitivity; [|apply for_each_flat_map]. cbv beta.
  apply for_each_ext. intros tdi st. rewrite tdi_skip_existsb.
  destruct (existsb (Z.eqb tdi) [tck; tms; tdo; 1; 2]); reflexivity.
Qed.

Lemma id_trial_flag roles r s :
  fst (id_trial_of roles (r, s)) = if id_accepts roles s then 1 else r.
Proof.
  destruct roles as [|tck [|tms [|tdo [|x roles]]]];
    [reflexivity | reflexivity | reflexivity | | reflexivity].
  cbn [id_trial_of id_accepts]. unfold id_trial. cbv zeta.
  generalize (id_capture tck tms tdo s). intros s1.
  destruct (7 <? toggle_count s1); [|reflexivity].
  rewrite id_tdi_search_space. cbn [andb].
  apply run_trials_flag; [apply id_tdi_trial_flag|apply id_tdi_trial_state].
Qed.

Lemma id_trial_state roles r s :
  snd (id_trial_of roles (r, s)) = snd (id_trial_of roles (0, s)).
Proof.
  destruct roles as [|tck [|tms [|tdo [|x roles]]]];
    [reflexivity | reflexivity | reflexivity | | reflexivity].
  cbn [id_trial_of]. unfold id_trial. cbv zeta.
  generalize (id_capture tck tms tdo s). intros s1.
  destruct (7 <? toggle_count s1); [|reflexivity].
  rewrite !id_tdi_search_space.
  apply run_trials_state. apply id_tdi_trial_state.
Qed.

Ltac as_loop := etransitivity; [|apply for_each_flat_map]; cbv beta.

Lemma jtag_finder_id_method_space s :
  jtag_finder_id_method s = run_trials id_trial_of valid_triples (0, s).
Proof.
  rewrite valid_triples_loops. as_loop.
  unfold jtag_finder_id_method. apply for_each_ext. intros tck st1.
  as_loop. apply for_each_ext. intros tms st2.
  destruct (tck =? tms); [reflexivity|].
  as_loop. apply for_each_ext. intros tdo st3.
  destruct ((tck =? tdo) || (tms =? tdo)); [reflexivity|].
  destruct ((tck =? 1) || (tms =? 1) || (tdo =? 1)); [reflexivity|].
  destruct ((tck =? 2) || (tms =? 2) || (tdo =? 2)); reflexivity.
Qed.

Lemma jtag_finder_bypass_method_space s :
  jtag_finder_bypass_method s
  = run_trials bypass_trial_of valid_quadruples (0, s).
Proof.
  rewrite valid_quadruples_loops. as_loop.
  unfold jtag_finder_bypass_method, jtag_finder_bypass_method_with.
  apply for_each_ext. intros tck st1.
  as_loop. apply for_each_ext. intros tms st2.
  destruct (tck =? tms); [reflexivity|].
  as_loop. apply for_each_ext. intros tdo st3.
  destruct ((tck =? tdo) || (tms =? tdo)); [reflexivity|].
  destruct ((tck =? 1) || (tms =? 1) || (tdo =? 1)); [reflexivity|].
  destruct ((tck =? 2) || (tms =? 2) || (tdo =? 2)); [reflexivity|].
  as_loop. apply for_each_ext. intros tdi st4.
  destruct ((tdi =? tck) || (tdi =? tms) || (tdi =? tdo) || (tdi =? 1)
            || (tdi =? 2)); reflexivity.
Qed.

Lemma swd_finder_space s :
  swd_finder s = run_trials swd_trial_of valid_pairs (0, s).
Proof.
  rewrite valid_pairs_loops. as_loop.
  unfold swd_finder. apply for_each_ext. intros swclk st1.
  as_loop. apply for_each_ext. intros swdio st2.
  destruct ((swclk =? swdio) || (swclk =? 1) || (swdio =? 1)
            || (swclk =? 2) || (swdio =? 2)); reflexivity.
Qed.

End SearchSpaces.

Section Answers.

Context {W : Type} {target : Target W}.

Implicit Types s : machine W.

Lemma flag_decides (p b : bool) (r : Z) :
  r = (if p then 1 else 0) -> r = (if b then 1 else 0) -> p = b.
Proof. destruct p, b; intros -> H; try reflexivity; discriminate. Qed.

(** A finder that is a search reports exactly when some trial of its space
    is accepted. *)
Lemma search_reports (m : string) (accepts : list Z -> machine W -> bool)
    (trial : list Z -> Z * machine W -> Z * machine W)
    (space : list (list Z)) (finder : machine W -> Z * machine W) s :
  (forall q r t, fst (trial q (r, t)) = if accepts q t then 1 else r) ->
  (forall q r t, snd (trial q (r, t)) = snd (trial q (0, t))) ->
  finder s = run_trials trial space (0, s) ->
  flags m 0 (log s) (fst (finder s)) (log (snd (finder s))) ->
  fst (finder s) = (if some_accepted accepts trial space s then 1 else 0)
  /\ reports m s (snd (finder s)) (some_accepted accepts trial space s).
Proof.
  intros Hflag Hstate Hspace (n & Hc & Hr).
  assert (Hf : fst (finder s)
               = if some_accepted accepts trial space s then 1 else 0).
  { rewrite Hspace. now apply run_trials_flag. }
  split; [exact Hf|].
  rewrite <- (flag_decides _ _ _ Hr Hf). now apply reports_from_log.
Qed.

(** What a stage of [setup] prints, for a finder that returns 1 exactly
    when [b]. *)
Lemma stage_reports (m nf start fin : string) s (rs : Z * machine W)
    (b : bool) :
  flags m 0 (log (print start s)) (fst rs) (log (snd rs)) ->
  appends (no_print nf) (log (print start s)) (log (snd rs)) ->
  fst rs = (if b then 1 else 0) ->
  String.eqb start m = false -> String.eqb start nf = false ->
  String.eqb fin m = false -> String.eqb fin nf = false ->
  String.eqb nf m = false ->
  reports m s
    (print fin (if fst rs =? 0 then print nf (snd rs) else snd rs)) b
  /\ reports nf s
       (print fin (if fst rs =? 0 then print nf (snd rs) else snd rs))
       (negb b).
Proof.
  intros (nF & Hc & Hr) (nF' & Hc' & Hq) Hb E1 E2 E3 E4 E5.
  rewrite (continues_inv _ _ _ _ Hc' Hc) in Hq.
  pose proof (stage_log start nf fin s rs nF Hc) as L.
  destruct (stage_events m nf start fin (fst rs) nF Hr
              (no_print_printed _ _ Hq) E1 E2 E3 E4 E5) as [P1 P2].
  rewrite (flag_decides _ _ _ Hr Hb) in P1, P2.
  rewrite <- P1 at 1. rewrite <- P2.
  split; apply reports_from_log; exact L.
Qed.

Lemma id_stage_reports s :
  let b := some_accepted id_accepts id_trial_of valid_triples
             (print "  Start of JTAG Finder using JTAG ID method.\r\n" s) in
  reports id_mark s (id_stage s) b
  /\ reports id_not_found s (id_stage s) (negb b).
Proof.
  cbv zeta. unfold id_stage. cbv zeta.
  generalize
    (flags_jtag_finder_id_method
       (print "  Start of JTAG Finder using JTAG ID method.\r\n" s)),
    (appends_jtag_finder_id_method (no_print id_not_found)
       (print "  Start of JTAG Finder using JTAG ID method.\r\n" s)
       (accepts_plain_no_print id_not_found ltac:(cbn; tauto)) eq_refl
       (fun _ _ => eq_refl)),
    (proj1 (search_reports id_mark id_accepts id_trial_of valid_triples
              jtag_finder_id_method
              (print "  Start of JTAG Finder using JTAG ID method.\r\n" s)
              id_trial_flag id_trial_state
              (jtag_finder_id_method_space _)
              (flags_jtag_finder_id_method _))).
  generalize (some_accepted id_accepts id_trial_of valid_triples
       (print "  Start of JTAG Finder using JTAG ID method.\r\n" s)).
  generalize (jtag_finder_id_method
       (print "  Start of JTAG Finder using JTAG ID method.\r\n" s)).
  intros rs b F A Hb.
  apply (stage_reports _ _ _ _ s rs b F A Hb); reflexivity.
Qed.

Lemma jtag_finder_bypass_method_unfold s :
  jtag_finder_bypass_method s = jtag_finder_bypass_method_with count_ones s.
Proof. reflexivity. Qed.

Lemma flags_jtag_finder_bypass_method s :
  flags bypass_mark 0 (log s) (fst (jtag_finder_bypass_method s))
    (log (snd (jtag_finder_bypass_method s))).
Proof.
  rewrite jtag_finder_bypass_method_unfold.
  apply flags_jtag_finder_bypass_method_with.
Qed.

Lemma bypass_stage_reports s :
  let b := some_accepted bypass_accepts bypass_trial_of valid_quadruples
             (print "  Start of JTAG Finder using Bypass method.\r\n" s) in
  reports bypass_mark s (bypass_stage s) b
  /\ reports bypass_not_found s (bypass_stage s) (negb b).
Proof.
  cbv zeta. unfold bypass_stage. cbv zeta.
  pose proof
    (appends_jtag_finder_bypass_method_with (no_print bypass_not_found)
       count_ones
       (print "  Start of JTAG Finder using Bypass method.\r\n" s)
       (accepts_plain_no_print bypass_not_found ltac:(cbn; tauto)) eq_refl
       (fun _ _ => eq_refl)) as A.
  rewrite <- jtag_finder_bypass_method_unfold in A. revert A.
  generalize
    (flags_jtag_finder_bypass_method
       (print "  Start of JTAG Finder using Bypass method.\r\n" s)),
    (proj1 (search_reports bypass_mark bypass_accepts bypass_trial_of
              valid_quadruples jtag_finder_bypass_method
              (print "  Start of JTAG Finder using Bypass method.\r\n" s)
              bypass_trial_flag bypass_trial_state
              (jtag_finder_bypass_method_space _)
              (flags_jtag_finder_bypass_method _))).
  generalize (some_accepted bypass_accepts bypass_trial_of valid_quadruples
       (print "  Start of JTAG Finder using Bypass method.\r\n" s)).
  generalize (jtag_finder_bypass_method
       (print "  Start of JTAG Finder using Bypass method.\r\n" s)).
  intros rs b F Hb A.
  apply (stage_reports _ _ _ _ s rs b F A Hb); reflexivity.
Qed.

Lemma swd_stage_reports s :
  let b := some_accepted swd_accepts swd_trial_of valid_pairs
             (print "  Start of SWD Finder.\r\n" s) in
  reports swd_mark s (swd_stage s) b
  /\ reports swd_not_found s (swd_stage s) (negb b).
Proof.
  cbv zeta. unfold swd_stage. cbv zeta.
  generalize
    (flags_swd_finder (print "  Start of SWD Finder.\r\n" s)),
    (appends_swd_finder (no_print swd_not_found)
       (print "  Start of SWD Finder.\r\n" s)
       (accepts_plain_no_print swd_not_found ltac:(cbn; tauto)) eq_refl
       (fun _ _ => eq_refl)),
    (proj1 (search_reports swd_mark swd_accepts swd_trial_of valid_pairs
              swd_finder (print "  Start of SWD Finder.\r\n" s)
              swd_trial_flag swd_trial_state (swd_finder_space _)
              (flags_swd_finder _))).
  generalize (some_accepted swd_accepts swd_trial_of valid_pairs
       (print "  Start of SWD Finder.\r\n" s)).
  generalize (swd_finder (print "  Start of SWD Finder.\r\n" s)).
  intros rs b F A Hb.
  apply (stage_reports _ _ _ _ s rs b F A Hb); reflexivity.
Qed.


(** A report of a stage is the report of the whole run when nothing before
    or after the stage prints the mark. *)
Lemma reports_between (m : string) (s0 s1 s2 s3 : machine W) (b : bool) :
  appends (no_print m) (log s0) (log s1) ->
  reports m s1 s2 b ->
  appends (no_print m) (log s2) (log s3) ->
  reports m s0 s3 b.
Proof.
  intros (a & Ha & Qa) (n & Hn & Pn) (c & Hc & Qc).
  apply history_continues in Ha, Hc.
  exists ((a ++ n) ++ c). split.
  - rewrite Hc, Hn, Ha. now rewrite !app_assoc.
  - rewrite !printed_app, Pn.
    rewrite (no_print_printed _ _ Qa), (no_print_printed _ _ Qc).
    now rewrite orb_false_r.
Qed.

(** A trial reports exactly when its candidate is accepted. *)
Lemma trial_reports (m : string) (accepts : list Z -> machine W -> bool)
    (trial : list Z -> Z * machine W -> Z * machine W) (q : list Z) r s :
  (forall q r t, fst (trial q (r, t)) = if accepts q t then 1 else r) ->
  (forall q r t, snd (trial q (r, t)) = snd (trial q (0, t))) ->
  flags m 0 (log s) (fst (trial q (0, s))) (log (snd (trial q (0, s)))) ->
  reports m s (snd (trial q (r, s))) (accepts q s).
Proof.
  intros Hflag Hstate (n & Hc & Hr).
  rewrite (Hstate q r s).
  rewrite <- (flag_decides _ _ _ Hr (Hflag q 0 s)). now apply reports_from_log.
Qed.

Lemma id_trial_reports roles r s :
  reports id_mark s (snd (id_trial_of roles (r, s))) (id_accepts roles s).
Proof.
  apply trial_reports; [apply id_trial_flag | apply id_trial_state |].
  destruct roles as [|tck [|tms [|tdo [|x roles]]]];
    [apply flags_refl | apply flags_refl | apply flags_refl
    | | apply flags_refl].
  apply flags_id_trial.
Qed.

Lemma run_finders_reports s :
  let s1 := print "Begin testing...\r\n\n" (print "\r\n\n" s) in
  let s2 := id_stage s1 in
  let s3 := bypass_stage s2 in
  let b1 := id_found
              (print "  Start of JTAG Finder using JTAG ID method.\r\n" s1) in
  let b2 := bypass_found
              (print "  Start of JTAG Finder using Bypass method.\r\n" s2) in
  let b3 := swd_found (print "  Start of SWD Finder.\r\n" s3) in
  reports id_mark s (run_finders s) b1
  /\ reports id_not_found s (run_finders s) (negb b1)
  /\ reports bypass_mark s (run_finders s) b2
  /\ reports bypass_not_found s (run_finders s) (negb b2)
  /\ reports swd_mark s (run_finders s) b3
  /\ reports swd_not_found s (run_finders s) (negb b3).
Proof.
  unfold run_finders, id_found, bypass_found, swd_found. cbv zeta.
  set (s1 := print "Begin testing...\r\n\n" (print "\r\n\n" s)).
  assert (H01 : forall p, accepts_plain p -> appends p (log s) (log s1)).
  { intros p Hp. subst s1.
    apply appends_trans with (log (print "\r\n\n" s));
      now apply plain_print. }
  clearbody s1.
  destruct (id_stage_reports s1) as [I1 I2].
  destruct (bypass_stage_reports (id_stage s1)) as [B1 B2].
  destruct (swd_stage_reports (bypass_stage (id_stage s1))) as [S1 S2].
  cbv zeta in I1, I2, B1, B2, S1, S2.
  revert I1 I2 B1 B2 S1 S2.
  generalize (some_accepted id_accepts id_trial_of valid_triples
    (print "  Start of JTAG Finder using JTAG ID method.\r\n" s1)).
  generalize (some_accepted bypass_accepts bypass_trial_of valid_quadruples
    (print "  Start of JTAG Finder using Bypass method.\r\n" (id_stage s1))).
  generalize (some_accepted swd_accepts swd_trial_of valid_pairs
    (print "  Start of SWD Finder.\r\n" (bypass_stage (id_stage s1)))).
  intros b3 b2 b1 I1 I2 B1 B2 S1 S2.
  assert (Hdone : forall p (t : machine W), accepts_plain p ->
            appends p (log t) (log (print "Done testing.\r\n" t)))
    by (intros; now apply plain_print).
  assert (Pl : forall m, In m marks -> accepts_plain (no_print m))
    by (intros; now apply accepts_plain_no_print).
  assert (Mid : In id_mark marks) by (cbn; tauto).
  assert (Mby : In bypass_mark marks) by (cbn; tauto).
  assert (Msw : In swd_mark marks) by (cbn; tauto).
  assert (Nid : In id_not_found marks) by (cbn; tauto).
  assert (Nby : In bypass_not_found marks) by (cbn; tauto).
  assert (Nsw : In swd_not_found marks) by (cbn; tauto).
  assert (Aid : forall m, In m marks ->
            no_print m (PrintStr id_mark) = true ->
            no_print m (PrintStr id_not_found) = true ->
            forall t, appends (no_print m) (log t) (log (id_stage t))).
  { intros m Hm E1 E2 t. apply appends_id_stage; auto. }
  assert (Aby : forall m, In m marks ->
            no_print m (PrintStr bypass_mark) = true ->
            no_print m (PrintStr bypass_not_found) = true ->
            forall t, appends (no_print m) (log t) (log (bypass_stage t))).
  { intros m Hm E1 E2 t. apply appends_bypass_stage; auto. }
  assert (Asw : forall m, In m marks ->
            no_print m (PrintStr swd_mark) = true ->
            no_print m (PrintStr swd_not_found) = true ->
            forall t, appends (no_print m) (log t) (log (swd_stage t))).
  { intros m Hm E1 E2 t. apply appends_swd_stage; auto. }
  assert (After1 : forall m, In m marks ->
            no_print m (PrintStr bypass_mark) = true ->
            no_print m (PrintStr bypass_not_found) = true ->
            no_print m (PrintStr swd_mark) = true ->
            no_print m (PrintStr swd_not_found) = true ->
            appends (no_print m) (log (id_stage s1))
              (log (print "Done testing.\r\n"
                      (swd_stage (bypass_stage (id_stage s1)))))).
  { intros m Hm E1 E2 E3 E4.
    apply appends_trans with (log (bypass_stage (id_stage s1)));
      [now apply Aby|].
    apply appends_trans with (log (swd_stage (bypass_stage (id_stage s1))));
      [now apply Asw | apply Hdone; now apply Pl]. }
  assert (Before2 : forall m, In m marks ->
            no_print m (PrintStr id_mark) = true ->
            no_print m (PrintStr id_not_found) = true ->
            appends (no_print m) (log s) (log (id_stage s1))).
  { intros m Hm E1 E2.
    apply appends_trans with (log s1); [apply H01; now apply Pl|].
    now apply Aid. }
  assert (After2 : forall m, In m marks ->
            no_print m (PrintStr swd_mark) = true ->
            no_print m (PrintStr swd_not_found) = true ->
            appends (no_print m) (log (bypass_stage (id_stage s1)))
              (log (print "Done testing.\r\n"
                      (swd_stage (bypass_stage (id_stage s1)))))).
  { intros m Hm E1 E2.
    apply appends_trans with (log (swd_stage (bypass_stage (id_stage s1))));
      [now apply Asw | apply Hdone; now apply Pl]. }
  assert (Before3 : forall m, In m marks ->
            no_print m (PrintStr id_mark) = true ->
            no_print m (PrintStr id_not_found) = true ->
            no_print m (PrintStr bypass_mark) = true ->
            no_print m (PrintStr bypass_not_found) = true ->
            appends (no_print m) (log s) (log (bypass_stage (id_stage s1)))).
  { intros m Hm E1 E2 E3 E4.
    apply appends_trans with (log (id_stage s1)); [now apply Before2|].
    now apply Aby. }
  split; [|split; [|split; [|split; [|split]]]].
  - apply (reports_between _ s s1 (id_stage s1) _ _);
      [apply H01; now apply Pl | exact I1 | now apply After1].
  - apply (reports_between _ s s1 (id_stage s1) _ _);
      [apply H01; now apply Pl | exact I2 | now apply After1].
  - apply (reports_between _ s (id_stage s1) (bypass_stage (id_stage s1)) _ _);
      [now apply Before2 | exact B1 | now apply After2].
  - apply (reports_between _ s (id_stage s1) (bypass_stage (id_stage s1)) _ _);
      [now apply Before2 | exact B2 | now apply After2].
  - apply (reports_between _ s (bypass_stage (id_stage s1))
             (swd_stage (bypass_stage (id_stage s1))) _ _);
      [now apply Before3 | exact S1 | apply Hdone; now apply Pl].
  - apply (reports_between _ s (bypass_stage (id_stage s1))
             (swd_stage (bypass_stage (id_stage s1))) _ _);
      [now apply Before3 | exact S2 | apply Hdone; now apply Pl].
Qed.



End Answers.

(** ** The sequences on a board with nothing attached *)

(** The 50 ones that open the connect sequence, on the pins 0 and 3 of a
    board with nothing attached. *)
Lemma send_fixed_swd_pattern_clocks_one_level_witness :
  valid_roles [0; 3] = true
  /\ (exists new,
        history (send_fixed_swd_pattern 0 3 1 50 (power_on tt))
        = history (power_on tt) ++ new
        /\ waveform 0 3 false false new
           = repeat (u8 1 =? 1) (Z.to_nat (u16 50))
        /\ out_bit (io (send_fixed_swd_pattern 0 3 1 50 (power_on tt))) 0
           = false
        /\ out_bit (io (send_fixed_swd_pattern 0 3 1 50 (power_on tt))) 3
           = (u8 1 =? 1)).
Proof.
  split; [reflexivity|].
  apply (send_fixed_swd_pattern_clocks_one_level
           0 3 1 50 false false (power_on tt));
    reflexivity.
Defined.

(** The JTAG-to-SWD switching word on the pins 0 and 3. *)
Lemma send_16bit_swd_pattern_shifts_msb_first_witness :
  valid_roles [0; 3] = true
  /\ (exists new,
        history (send_16bit_swd_pattern 0 3 0xE79E (power_on tt))
        = history (power_on tt) ++ new
        /\ waveform 0 3 false false new = msb_first16 0xE79E
        /\ out_bit (io (send_16bit_swd_pattern 0 3 0xE79E (power_on tt))) 0
           = false).
Proof.
  split; [reflexivity|].
  apply (send_16bit_swd_pattern_shifts_msb_first
           0 3 0xE79E false false (power_on tt));
    reflexivity.
Defined.


(** The SWD trial of the pair 0, 3 on a board with nothing attached. *)
Lemma swd_read_sequence_witness :
  valid_roles [0; 3] = true
  /\ (let s1 := swd_probe 0 3 (power_on tt) in
      exists s0 bytes,
        s1 = clr_pin 3 (clr_pin 0 (swd_read 0 3 s0))
        /\ dir_bit (io s0) 3 = false
        /\ List.length bytes = 32%nat
        /\ history (swd_read 0 3 s0)
           = history s0 ++ swd_read_events 0 3 bytes
        /\ waveform 0 3 false false (swd_read_events 0 3 bytes)
           = repeat false 38
        /\ read_points 0 3 false 0 (swd_read_events 0 3 bytes)
           = map (fun j => j + 1) (count_from 32 3)
        /\ reads_of (swd_read_events 0 3 bytes) = bytes
        /\ sampler_of s1 = sampler_run bytes
        /\ toggle_count s1 = toggles 0x00 bytes
        /\ fst (swd_trial 0 3 (0, power_on tt))
           = if 7 <? toggles 0x00 bytes then 1 else 0).
Proof.
  split; [reflexivity|].
  apply (swd_read_sequence
           0 3 0 (power_on tt));
    reflexivity.
Defined.

(** The tdi trial of the quadruple 0, 3, 4, 5 on a board with nothing
    attached. *)
Lemma id_tdi_sequence_witness :
  valid_roles [0; 3; 4; 5] = true
  /\ (let s1 := id_tdi_probe 0 3 4 5 (power_on tt) in
      exists s0 bytes,
        s1 = id_inject 0 4 5 (id_flush 0 5 s0)
        /\ List.length bytes = 512%nat
        /\ history s1 = history s0 ++ id_tdi_events 0 4 5 bytes
        /\ waveform 0 5 false false (id_tdi_events 0 4 5 bytes)
           = repeat false 513
             ++ map (fun j => (j <? 32) && negb (j mod 2 =? 0)) (upto 511)
        /\ read_points 0 4 false 0 (id_tdi_events 0 4 5 bytes)
           = map (fun j => j + 513) (upto 512)
        /\ reads_of (id_tdi_events 0 4 5 bytes) = bytes
        /\ idval s1 = idval (power_on tt)
        /\ tc s1 = toggles 0x00 bytes mod 256
        /\ fst (id_tdi_trial 0 3 4 5 (0, power_on tt))
           = if (29 <? toggles 0x00 bytes mod 256)
                && (toggles 0x00 bytes mod 256 <? 35)
             then 1 else 0).
Proof.
  split; [reflexivity|].
  apply (id_tdi_sequence
           0 3 4 5 0 (power_on tt));
    reflexivity.
Defined.

(** A board with nothing attached has steady inputs: the three finders
    find nothing on it. *)
Lemma steady_inputs_find_nothing_witness :
  steady_inputs unit
  /\ (fst (jtag_finder_id_method (power_on tt)) = 0
      /\ fst (jtag_finder_bypass_method (power_on tt)) = 0
      /\ fst (swd_finder (power_on tt)) = 0
      /\ id_stage (power_on tt)
         = print "  End of JTAG Finder using JTAG ID method.\r\n\n"
             (print id_not_found
                (snd (jtag_finder_id_method
                        (print "  Start of JTAG Finder using JTAG ID method.\r\n"
                           (power_on tt)))))
      /\ bypass_stage (power_on tt)
         = print "  End of JTAG Finder using Bypass method.\r\n\n"
             (print bypass_not_found
                (snd (jtag_finder_bypass_method
                        (print "  Start of JTAG Finder using Bypass method.\r\n"
                           (power_on tt)))))
      /\ swd_stage (power_on tt)
         = print "  End of SWD Finder.\r\n\n"
             (print swd_not_found
                (snd (swd_finder
                            (print "  Start of SWD Finder.\r\n" (power_on tt)))))).
Proof.
  split;
    [ intros [] []; split; reflexivity
    | apply (steady_inputs_find_nothing (power_on tt));
      intros [] []; split; reflexivity ].
Defined.
